(** * CalSnap: a shallow embedding of the calendar-feed pipeline of [src/index.js]

    The development follows the source top-down: JavaScript values and the
    string operations the worker uses, the key-value store and the upstream
    network as explicit state, then [serveCalendar], [generateCalendarToken],
    [parseCalendarToken], [generateEventTitleSync] and [refreshAccessToken],
    then the routes besides the feed ([isAuthenticated], [startOAuth], the
    two API endpoints and the router), and finally the properties of the
    feed specification and of the worker as a whole. *)

From Stdlib Require Import ZArith Ascii String List Bool Lia DecimalString.
From Stdlib Require DecimalPos DecimalZ.
From stdpp Require Import base option gmap strings.

Local Open Scope string_scope.
Local Open Scope Z_scope.

(** ** JavaScript values *)

(** Field values of the upstream records are JSON scalars; [JUndefined] is
    what a property read yields when the property is missing.  Numbers are
    the integers (time values, identifiers, minute counts). *)
Inductive JsVal : Type :=
| JUndefined
| JNull
| JBool (b : bool)
| JNum (n : Z)
| JStr (s : string).

Inductive Exn : Type := TypeError | RangeError | SyntaxError | NetworkError.

#[global] Instance JsVal_eq_dec : EqDecision JsVal.
Proof. solve_decision. Defined.

(** [n.toString()] of an integer *)
Definition string_of_Z (n : Z) : string := NilZero.string_of_int (Z.to_int n).

(** ToBoolean *)
Definition truthy (v : JsVal) : bool :=
  match v with
  | JUndefined | JNull => false
  | JBool b => b
  | JNum n => negb (Z.eqb n 0)
  | JStr s => negb (String.eqb s "")
  end.

(** ToString, as a template literal applies it *)
Definition ToString (v : JsVal) : string :=
  match v with
  | JUndefined => "undefined"
  | JNull => "null"
  | JBool true => "true"
  | JBool false => "false"
  | JNum n => string_of_Z n
  | JStr s => s
  end.

(** [a || b] *)
Definition js_or (a b : JsVal) : JsVal := if truthy a then a else b.

(** [v === 'literal'] *)
Definition strict_eq_str (v : JsVal) (lit : string) : bool :=
  match v with JStr s => String.eqb s lit | _ => false end.

(** A value read from the store: [null] or a string. *)
Definition of_kv (o : option string) : JsVal :=
  match o with Some s => JStr s | None => JNull end.

(** ** Strings *)

Definition LF : ascii := "010"%char.
Definition CR : ascii := "013"%char.
Definition CRLF : string := String CR (String LF "").
Definition comma : ascii := ","%char.
Definition backslash : ascii := "\"%char.

(** [s.replace(/c/g, rep)] for a one-character pattern and a replacement
    without [$]. *)
Fixpoint replace_char (c : ascii) (rep : string) (s : string) : string :=
  match s with
  | EmptyString => EmptyString
  | String a s' =>
      if Ascii.eqb a c then rep +:+ replace_char c rep s'
      else String a (replace_char c rep s')
  end.

(** [s.replace(/[-:]/g, '')] *)
Fixpoint remove_chars (p : ascii -> bool) (s : string) : string :=
  match s with
  | EmptyString => EmptyString
  | String a s' => if p a then remove_chars p s' else String a (remove_chars p s')
  end.

Fixpoint take (n : nat) (s : string) : string :=
  match n, s with
  | S k, String a s' => String a (take k s')
  | _, _ => EmptyString
  end.

Fixpoint drop (n : nat) (s : string) : string :=
  match n, s with
  | S k, String _ s' => drop k s'
  | _, _ => s
  end.

Definition is_digit (a : ascii) : bool :=
  let n := nat_of_ascii a in (48 <=? n)%nat && (n <=? 57)%nat.

(** [s.replace(/\.\d{3}/, '')]: the first dot followed by three digits goes. *)
Fixpoint remove_millis (s : string) : string :=
  match s with
  | String x s' =>
      if Ascii.eqb x "."
         && match s' with
            | String a (String b (String c _)) => is_digit a && is_digit b && is_digit c
            | _ => false
            end
      then drop 3 s'
      else String x (remove_millis s')
  | EmptyString => EmptyString
  end.

(** Canonicalize of a case-insensitive regular expression, on ASCII. *)
Definition upcase (a : ascii) : ascii :=
  let n := nat_of_ascii a in
  if (97 <=? n)%nat && (n <=? 122)%nat then ascii_of_nat (n - 32) else a.

Definition eq_exact (a b : ascii) : bool := Ascii.eqb a b.
Definition eq_nocase (a b : ascii) : bool := Ascii.eqb (upcase a) (upcase b).

(** Does [pat] occur at the start of [s]? *)
Fixpoint starts_with (eqc : ascii -> ascii -> bool) (pat s : string) : bool :=
  match pat, s with
  | EmptyString, _ => true
  | String p pat', String a s' => eqc p a && starts_with eqc pat' s'
  | String _ _, EmptyString => false
  end.

(** The first occurrence of [pat] in [s]: the text before it and the text
    from the match on. *)
Fixpoint find_sub (eqc : ascii -> ascii -> bool) (pat s : string)
  : option (string * string) :=
  if starts_with eqc pat s then Some (EmptyString, s)
  else match s with
       | EmptyString => None
       | String a s' =>
           match find_sub eqc pat s' with
           | Some (b, m) => Some (String a b, m)
           | None => None
           end
       end.

(** [s.includes(pat)] *)
Definition includes (s pat : string) : bool :=
  match find_sub eq_exact pat s with Some _ => true | None => false end.

(** GetSubstitution for a pattern without capture groups: [$$], [$&],
    [$`] and [$'] are expanded, every other [$] is literal. *)
Fixpoint GetSubstitution (matched before after : string) (rep : string) : string :=
  match rep with
  | String a tl =>
      match tl with
      | String c rest =>
          if Ascii.eqb a "$" && Ascii.eqb c "$" then
            String "$" (GetSubstitution matched before after rest)
          else if Ascii.eqb a "$" && Ascii.eqb c "&" then
            matched +:+ GetSubstitution matched before after rest
          else if Ascii.eqb a "$" && Ascii.eqb c "`" then
            before +:+ GetSubstitution matched before after rest
          else if Ascii.eqb a "$" && Ascii.eqb c "'" then
            after +:+ GetSubstitution matched before after rest
          else String a (GetSubstitution matched before after tl)
      | EmptyString => String a EmptyString
      end
  | EmptyString => EmptyString
  end.

(** [s.replace(pat, rep)] with a string pattern: the first occurrence only,
    compared exactly. *)
Definition replace_first (s pat rep : string) : string :=
  match find_sub eq_exact pat s with
  | Some (b, m) =>
      let n := String.length pat in
      b +:+ GetSubstitution (take n m) b (drop n m) rep +:+ drop n m
  | None => s
  end.

(** [s.replace(new RegExp(escaped(pat), 'gi'), rep)].  The source escapes
    every regular-expression metacharacter of [pat], so the expression
    matches the literal text of [pat]; the flags make it match every
    occurrence, left to right, without regard to case.  [before] is the
    text already scanned, [skip] the characters of a match still to pass. *)
Fixpoint replace_all_nocase_from (pat rep : string) (before : string) (skip : nat)
    (s : string) : string :=
  match s with
  | EmptyString => EmptyString
  | String a s' =>
      match skip with
      | S k => replace_all_nocase_from pat rep (before +:+ String a "") k s'
      | O =>
          if starts_with eq_nocase pat s then
            let n := String.length pat in
            GetSubstitution (take n s) before (drop n s) rep
              +:+ replace_all_nocase_from pat rep (before +:+ String a "") (n - 1) s'
          else String a (replace_all_nocase_from pat rep (before +:+ String a "") 0 s')
      end
  end.

(** The callers pass a non-empty pattern (a truthy team name). *)
Definition replace_all_nocase (s pat rep : string) : string :=
  match pat with
  | EmptyString => s
  | _ => replace_all_nocase_from pat rep "" 0 s
  end.

(** [parseInt(s)]: leading white space, a sign, an optional [0x] prefix,
    then the longest run of digits; [None] is NaN. *)
Definition is_ws (a : ascii) : bool :=
  let n := nat_of_ascii a in
  ((9 <=? n)%nat && (n <=? 13)%nat) || (n =? 32)%nat.

Fixpoint skip_ws (s : string) : string :=
  match s with
  | String a s' => if is_ws a then skip_ws s' else s
  | EmptyString => s
  end.

Definition digit_val (radix : Z) (a : ascii) : option Z :=
  let n := Z.of_nat (nat_of_ascii a) in
  let d := if (48 <=? n) && (n <=? 57) then Some (n - 48)
           else if (97 <=? n) && (n <=? 122) then Some (n - 87)
           else if (65 <=? n) && (n <=? 90) then Some (n - 55)
           else None in
  match d with
  | Some v => if v <? radix then Some v else None
  | None => None
  end.

Fixpoint parse_digits (radix : Z) (acc : option Z) (s : string) : option Z :=
  match s with
  | EmptyString => acc
  | String a s' =>
      match digit_val radix a with
      | Some d =>
          parse_digits radix (Some (match acc with Some x => x * radix + d | None => d end)) s'
      | None => acc
      end
  end.

Definition parseInt (s : string) : option Z :=
  let s := skip_ws s in
  let neg := starts_with eq_exact "-" s in
  let s := if neg || starts_with eq_exact "+" s then drop 1 s else s in
  let hex := starts_with eq_exact "0x" s || starts_with eq_exact "0X" s in
  let n := if hex then parse_digits 16 None (drop 2 s) else parse_digits 10 None s in
  match n with
  | Some n => Some (if neg then - n else n)
  | None => None
  end.

(** ** Dates *)

(** A [Date] object holds a time value in milliseconds or is invalid. *)
Definition Date : Type := option Z.

Definition TimeClip (n : Z) : Date :=
  if Z.abs n <=? 8640000000000000 then Some n else None.

(** [new Date(x)] for a number that may be NaN *)
Definition Date_of_number (n : option Z) : Date :=
  match n with Some n => TimeClip n | None => None end.

(** [a <= b] on numbers that may be NaN: false when either is. *)
Definition num_le (a b : option Z) : bool :=
  match a, b with Some x, Some y => x <=? y | _, _ => false end.

(** ** The runtime *)

(** What [JSON.parse] yields on the values this worker stores: a scalar, or
    an object whose members are scalars. *)
Inductive Json : Type :=
| JScalar (v : JsVal)
| JObject (members : gmap string JsVal).

Definition truthy_json (j : Json) : bool :=
  match j with JScalar v => truthy v | JObject _ => true end.

(** [obj.k] on an object built by the program *)
Definition obj_prop (o : gmap string JsVal) (k : string) : JsVal :=
  default JUndefined (o !! k).

(** [j.k] on a parsed value; a scalar has none of the properties read here. *)
Definition prop (j : Json) (k : string) : JsVal :=
  match j with JObject o => obj_prop o k | JScalar _ => JUndefined end.

(** The functions of the JavaScript runtime that the worker calls and whose
    results it only passes on.  [None] from [Date_parse] is an invalid date,
    from [JSON_parse] a [SyntaxError], from [toLocaleTimeString] (given the
    date and the [timeZone] option) a [RangeError]. *)
Record Runtime : Type := {
  Date_parse : string -> option Z;
  toISOString : Z -> string;
  toUTCString : Z -> string;
  toLocaleTimeString : Date -> JsVal -> option string;
  sha256_hex : string -> string;
  JSON_parse : string -> option Json;
  JSON_stringify : Json -> string
}.

(** ** Upstream records *)

(** A Collection+JSON item: [data] is a list of [{name, value}] pairs, and
    may be missing. *)
Record Field : Type := mkField { name : string; value : JsVal }.
Record Item : Type := mkItem { data : option (list Field) }.
Record Collection : Type := mkCollection { items : option (list Item) }.

(** The properties the worker reads of a parsed response body: [collection]
    of an API document, and the three members of a token response. *)
Record JsonDoc : Type := mkDoc {
  collection : option Collection;
  access_token : JsVal;
  refresh_token : JsVal;
  expires_in : JsVal
}.

(** A response of [fetch]: [json] is [None] when the body does not parse
    ([response.json()] rejects), [Some None] when it parses to [null]. *)
Record HttpResponse : Type := mkHttp {
  status : Z;
  text : string;
  json : option (option JsonDoc)
}.

Definition ok (r : HttpResponse) : bool := (200 <=? status r) && (status r <=? 299).

Inductive FetchResult : Type :=
| NetFail
| Resp (r : HttpResponse).

(** The requests the worker sends: a GET with a bearer token, and the POST
    to the token endpoint. *)
Inductive Call : Type :=
| ApiGet (url bearer : string)
| TokenPost (refresh client_id client_secret : string).

(** The world outside one invocation: the upstream answers, which may depend
    on the calls made so far, and the clock, read by [Date.now()] and
    [new Date()]. *)
Record World : Type := mkWorld {
  net : list Call -> Call -> FetchResult;
  clock : nat -> Z
}.

(** The bindings of [env] besides the store. *)
Record Env : Type := mkEnv {
  TEAMSNAP_CLIENT_ID : JsVal;
  TEAMSNAP_CLIENT_SECRET : JsVal
}.

Definition TEAMSNAP_TOKEN_URL : string := "https://auth.teamsnap.com/oauth/token".
Definition TEAMSNAP_API_URL : string := "https://api.teamsnap.com/v3".

(** ** State and effects *)

(** The store [env[KV_NAMESPACE]], the upstream calls made (oldest first) and
    the number of clock reads.  Expiry of store entries is not modelled: an
    invocation runs within the lifetime of the entries it reads. *)
Record State : Type := mkState {
  kv : gmap string string;
  calls : list Call;
  ticks : nat
}.

Inductive Result (A : Type) : Type :=
| Ok (a : A)
| Throw (e : Exn).
Arguments Ok {A} a.
Arguments Throw {A} e.

Definition M (A : Type) : Type := State -> Result A * State.

Definition ret {A} (a : A) : M A := fun st => (Ok a, st).
Definition throw {A} (e : Exn) : M A := fun st => (Throw e, st).
Definition bind {A B} (m : M A) (k : A -> M B) : M B :=
  fun st => match m st with
            | (Ok a, st') => k a st'
            | (Throw e, st') => (Throw e, st')
            end.
(** [try { m } catch (e) { h e }] *)
Definition try_catch {A} (m : M A) (h : Exn -> M A) : M A :=
  fun st => match m st with
            | (Ok a, st') => (Ok a, st')
            | (Throw e, st') => h e st'
            end.
Definition lift {A} (r : Result A) : M A := fun st => (r, st).

Declare Scope js_scope.
Delimit Scope js_scope with js.
Notation "'do' x <- m ; k" := (bind m (fun x => k))
  (at level 10, x name, m at level 100, k at level 200) : js_scope.
Local Open Scope js_scope.

(** [v.method(...)] for a [String.prototype] method: a [TypeError] unless
    [v] is a string. *)
Definition as_string (v : JsVal) : Result string :=
  match v with JStr s => Ok s | _ => Throw TypeError end.

(** [get(k)]: the value, or [null]. *)
Definition kv_get (k : string) : M JsVal :=
  fun st => (Ok (of_kv (kv st !! k)), st).

(** [put(k, v, {expirationTtl})]: the store takes string values and a
    time-to-live of at least 60 seconds, and throws otherwise. *)
Definition valid_ttl (ttl : JsVal) : bool :=
  match ttl with
  | JUndefined => true
  | JNum n => 60 <=? n
  | _ => false
  end.

Definition kv_put (k : string) (v : JsVal) (ttl : JsVal) : M unit :=
  fun st =>
    match v with
    | JStr s =>
        if valid_ttl ttl
        then (Ok tt, mkState (<[k := s]> (kv st)) (calls st) (ticks st))
        else (Throw RangeError, st)
    | _ => (Throw TypeError, st)
    end.

(** [delete(k)] *)
Definition kv_delete (k : string) : M unit :=
  fun st => (Ok tt, mkState (delete k (kv st)) (calls st) (ticks st)).

(** The keys of the store: the mapping of a token, and the cached pair of a
    feed ([cacheKey] and [lastUpdateKey] of [serveCalendar]). *)
Definition token_key (token : string) : string := "calendar_token:" +:+ token.
Definition cacheKey (calendarId : string) : string := "calendar_" +:+ calendarId.
Definition lastUpdateKey (calendarId : string) : string := cacheKey calendarId +:+ "_lastupdate".

(** [url.searchParams.get(p) === 'literal'] *)
Definition param_is (p : option string) (lit : string) : bool :=
  match p with Some v => String.eqb v lit | None => false end.

Section Worker.
Context (rt : Runtime) (w : World) (env : Env).

(** [fetch]: the call is recorded; a network failure rejects. *)
Definition fetch (c : Call) : M HttpResponse :=
  fun st =>
    let st' := mkState (kv st) (calls st ++ [c]) (ticks st) in
    match net w (calls st) c with
    | NetFail => (Throw NetworkError, st')
    | Resp r => (Ok r, st')
    end.

(** [Date.now()] *)
Definition Date_now : M Z :=
  fun st => (Ok (clock w (ticks st)), mkState (kv st) (calls st) (S (ticks st))).

(** [response.json()] *)
Definition response_json (r : HttpResponse) : M (option JsonDoc) :=
  match json r with
  | Some d => ret d
  | None => throw SyntaxError
  end.

(** [new Date(v)] *)
Definition new_Date (v : JsVal) : Date :=
  match v with
  | JStr s => Date_parse rt s
  | JNum n => TimeClip n
  | JBool b => Some (if b then 1 else 0)
  | JNull => Some 0
  | JUndefined => None
  end.

(** [d.toUTCString()] *)
Definition Date_toUTCString (d : Date) : string :=
  match d with Some t => toUTCString rt t | None => "Invalid Date" end.

(** [formatDate]: [date.toISOString().replace(/[-:]/g, '').replace(/\.\d{3}/, '')];
    [toISOString] throws on an invalid date. *)
Definition formatDate (d : Date) : Result string :=
  match d with
  | Some t =>
      Ok (remove_millis
            (remove_chars (fun a => Ascii.eqb a "-" || Ascii.eqb a ":") (toISOString rt t)))
  | None => Throw RangeError
  end.

(** *** OAuth token manager *)

(** [x.toString()] of a number that may be NaN *)
Definition string_of_number (n : option Z) : string :=
  match n with Some n => string_of_Z n | None => "NaN" end.

(** [Date.now() + (expires_in * 1000)]; past the first [put] of
    [refreshAccessToken], [expires_in] is a number or undefined. *)
Definition expiry_time (now : Z) (expires_in : JsVal) : option Z :=
  match expires_in with
  | JNum n => Some (now + n * 1000)
  | _ => None
  end.

(** [refreshAccessToken] (lines 505-552).  The result is the parsed token
    response, or [None] for [null]. *)
Definition refreshAccessToken : M (option JsonDoc) :=
  do refreshToken <- kv_get "oauth_refresh_token";
  if negb (truthy refreshToken) then ret None
  else
    try_catch
      (do response <- fetch (TokenPost (ToString refreshToken)
                               (ToString (TEAMSNAP_CLIENT_ID env))
                               (ToString (TEAMSNAP_CLIENT_SECRET env)));
       if ok response then
         do tokenData <- response_json response;
         match tokenData with
         | None => throw TypeError
         | Some td =>
             do _ <- kv_put "oauth_access_token" (access_token td) (expires_in td);
             do _ <- (if truthy (refresh_token td)
                  then kv_put "oauth_refresh_token" (refresh_token td) JUndefined
                  else ret tt);
             do now <- Date_now;
             let expiresAt := expiry_time now (expires_in td) in
             do _ <- kv_put "oauth_expires_at" (JStr (string_of_number expiresAt)) JUndefined;
             ret (Some td)
         end
       else ret None)
      (fun _ => ret None).

(** [fetchTeamSnapData] (lines 465-500) *)
Definition fetchTeamSnapData (endpoint : string) : M (option JsonDoc) :=
  do stored <- kv_get "oauth_access_token";
  do accessToken <-
    (if truthy stored then ret (Some stored)
     else
       do newTokens <- refreshAccessToken;
       match newTokens with
       | Some td => ret (Some (access_token td))
       | None => ret None
       end);
  match accessToken with
  | None => ret None
  | Some accessToken =>
      do response <- fetch (ApiGet (TEAMSNAP_API_URL +:+ endpoint) (ToString accessToken));
      if status response =? 401 then
        do newTokens <- refreshAccessToken;
        match newTokens with
        | Some td =>
            do retryResponse <-
              fetch (ApiGet (TEAMSNAP_API_URL +:+ endpoint) (ToString (access_token td)));
            if ok retryResponse then response_json retryResponse else ret None
        | None => ret None
        end
      else if ok response then response_json response else ret None
  end.

(** *** Token registry *)

(** [generateCalendarToken] (lines 392-401): the first 32 hexadecimal digits
    of the digest of [teamName:filterType:secret]; [teamId] is not used. *)
Definition generateCalendarToken (teamId : JsVal) (filterType : string) (teamName : JsVal)
  : string :=
  let clientSecret := js_or (TEAMSNAP_CLIENT_SECRET env) (JStr "fallback-salt") in
  let data := ToString teamName +:+ ":" +:+ filterType +:+ ":" +:+ ToString clientSecret in
  take 32 (sha256_hex rt data).

(** [parseCalendarToken] (lines 406-409): [mapping ? JSON.parse(mapping) : null] *)
Definition parseCalendarToken (token : string) : M Json :=
  do mapping <- kv_get (token_key token);
  if truthy mapping then
    match JSON_parse rt (ToString mapping) with
    | Some j => ret j
    | None => throw SyntaxError
    end
  else ret (JScalar JNull).

(** The object a team's [data] pairs are copied into: a later pair with the
    same name overwrites an earlier one. *)
Definition object_of (fs : list Field) : gmap string JsVal :=
  fold_left (fun o d => <[name d := value d]> o) fs ∅.

(** The object literal [{teamId, filterType}] of a token mapping. *)
Definition mapping_object (teamId : JsVal) (filterType : string) : gmap string JsVal :=
  <["filterType" := JStr filterType]> (<["teamId" := teamId]> ∅).

(** What the listing returns for one team. *)
Record TeamCalendars : Type := mkTeamCalendars {
  tc_id : JsVal;
  tc_name : JsVal;
  tc_customName : JsVal;
  tc_removeOpponentNames : bool;
  tc_all : string;
  tc_games : string
}.

(** The body of the [teams.map] callback of [handleTeamsApi] (lines 737-772):
    the two tokens of a team are computed and their mappings stored. *)
Definition teamWithCalendars (team : Item) : M TeamCalendars :=
  match data team with
  | None => throw TypeError
  | Some fs =>
      let teamData := object_of fs in
      let id := obj_prop teamData "id" in
      let nm := obj_prop teamData "name" in
      do customName <- kv_get ("custom_team_name_" +:+ ToString id);
      do removeOpponentNames <- kv_get ("remove_opponent_names_" +:+ ToString id);
      let allEventsToken := generateCalendarToken id "all" nm in
      let gamesOnlyToken := generateCalendarToken id "games" nm in
      do _ <- kv_put (token_key allEventsToken)
            (JStr (JSON_stringify rt (JObject (mapping_object id "all"))))
            (JNum 31536000);
      do _ <- kv_put (token_key gamesOnlyToken)
            (JStr (JSON_stringify rt (JObject (mapping_object id "games"))))
            (JNum 31536000);
      ret (mkTeamCalendars id nm customName (strict_eq_str removeOpponentNames "true")
             allEventsToken gamesOnlyToken)
  end.

(** *** Title and description *)

(** [generateEventTitleSync] (lines 433-460) *)
Definition generateEventTitleSync (event : gmap string JsVal)
    (customTeamName actualTeamName : JsVal) (removeOpponentNames : bool) : Result JsVal :=
  let teamName := js_or customTeamName (js_or actualTeamName (JStr "Team")) in
  let originalTitle :=
    js_or (obj_prop event "formatted_title_for_multi_team")
      (js_or (obj_prop event "formatted_title")
         (js_or (obj_prop event "name") (JStr "Untitled Event"))) in
  let isGame :=
    strict_eq_str (obj_prop event "game_type") "Game" || truthy (obj_prop event "opponent_name") in
  if isGame && truthy (obj_prop event "opponent_name") then
    if removeOpponentNames then Ok (JStr (ToString teamName +:+ ": Game"))
    else Ok (JStr (ToString teamName +:+ " vs. " +:+ ToString (obj_prop event "opponent_name")))
  else if isGame then
    let title := originalTitle in
    if truthy actualTeamName && truthy customTeamName then
      match as_string title, as_string actualTeamName with
      | Ok t, Ok a => Ok (JStr (replace_all_nocase t a (ToString customTeamName)))
      | _, _ => Throw TypeError
      end
    else Ok title
  else
    let title := originalTitle in
    if truthy actualTeamName && truthy customTeamName then
      match as_string title, as_string actualTeamName with
      | Ok t, Ok a => Ok (JStr (replace_all_nocase t a (ToString customTeamName)))
      | _, _ => Throw TypeError
      end
    else Ok title.

(** [generateEventTitle] (lines 419-423) *)
Definition generateEventTitle (eventData : gmap string JsVal) (teamId actualTeamName : JsVal)
  : M JsVal :=
  do customName <- kv_get ("custom_team_name_" +:+ ToString teamId);
  do removeOpponentNames <- kv_get ("remove_opponent_names_" +:+ ToString teamId);
  lift (generateEventTitleSync eventData customName actualTeamName
          (strict_eq_str removeOpponentNames "true")).

(** The two-character sequences the source writes as ['\\n'] and ['\\,']. *)
Definition esc_n : string := "\n".
Definition esc_comma : string := "\,".

(** [generateEventDescription] (lines 221-265) *)
Definition generateEventDescription (event : gmap string JsVal) : Result string :=
  let f := obj_prop event in
  let desc := "" in
  let desc :=
    if truthy (f "is_game") && truthy (f "opponent_name") then
      if strict_eq_str (f "game_type") "Home" then
        desc +:+ "Home vs. " +:+ ToString (f "opponent_name") +:+ esc_n
      else if strict_eq_str (f "game_type") "Away" then
        desc +:+ "Away at " +:+ ToString (f "opponent_name") +:+ esc_n
      else
        desc +:+ ToString (js_or (f "label") (JStr "TBD")) +:+ " vs. "
          +:+ ToString (f "opponent_name") +:+ esc_n
    else desc in
  let desc :=
    if truthy (f "uniform") then desc +:+ "Uniform: " +:+ ToString (f "uniform") +:+ esc_n
    else desc in
  let desc :=
    if truthy (f "location_name") then
      let desc := desc +:+ esc_n +:+ ToString (f "location_name") in
      let desc :=
        if truthy (f "additional_location_details")
           && negb (strict_eq_str (f "additional_location_details") "TBD")
        then desc +:+ esc_n +:+ ToString (f "additional_location_details")
        else desc in
      desc +:+ esc_n
    else desc in
  let arrival :=
    if truthy (f "is_game") && truthy (f "arrival_date") && truthy (f "minutes_to_arrive_early")
    then
      let timeZone :=
        if truthy (f "time_zone_iana_name") then f "time_zone_iana_name" else JUndefined in
      match toLocaleTimeString rt (new_Date (f "arrival_date")) timeZone with
      | Some arrivalTime =>
          Ok (desc +:+ "Arrival: " +:+ arrivalTime +:+ " · "
                +:+ ToString (f "minutes_to_arrive_early") +:+ " min. early" +:+ esc_n)
      | None => Throw RangeError
      end
    else Ok desc in
  match arrival with
  | Ok desc =>
      Ok (if truthy (f "notes") then desc +:+ esc_n +:+ ToString (f "notes") +:+ esc_n
          else desc)
  | Throw e => Throw e
  end.

(** *** ICS renderer *)

Definition join_space (l : list JsVal) : string :=
  match l with
  | [] => ""
  | x :: rest => fold_left (fun acc y => acc +:+ " " +:+ ToString y) rest (ToString x)
  end.

(** The address line of a location record (lines 291-305). *)
Definition addressParts (location : gmap string JsVal) : list JsVal :=
  (if truthy (obj_prop location "address") then [obj_prop location "address"] else [])
  ++ (if truthy (obj_prop location "city") then [obj_prop location "city"] else [])
  ++ (if truthy (obj_prop location "state") then [obj_prop location "state"] else [])
  ++ (if truthy (obj_prop location "postal_code") then [obj_prop location "postal_code"] else []).

(** The location text of an event (lines 283-310): the name and, when the
    lookup of [location_id] succeeds, the address after an escaped line
    break.  A failed lookup leaves the name alone. *)
Definition locationText_of (eventData : gmap string JsVal) : M JsVal :=
  let locationText := obj_prop eventData "location_name" in
  if truthy (obj_prop eventData "location_id") then
    try_catch
      (do locationData <-
         fetchTeamSnapData ("/locations/" +:+ ToString (obj_prop eventData "location_id"));
       match locationData with
       | Some {| collection := Some {| items := Some (it :: _) |} |} =>
           match data it with
           | None => throw TypeError
           | Some fs =>
               let parts := addressParts (object_of fs) in
               match parts with
               | [] => ret locationText
               | _ => ret (JStr (ToString locationText +:+ esc_n +:+ join_space parts))
               end
           end
       | _ => ret locationText
       end)
      (fun _ => ret locationText)
  else ret locationText.

(** [generateEventFromTemplate] (lines 267-324) *)
Definition generateEventFromTemplate (teamId : JsVal) (startDate endDate : Date)
    (eventData : gmap string JsVal) (customTitle : JsVal) : M string :=
  do description <- lift (generateEventDescription eventData);
  let description := replace_char comma esc_comma (replace_char LF esc_n description) in
  do updatedAt <-
    (if truthy (obj_prop eventData "updated_at")
     then ret (new_Date (obj_prop eventData "updated_at"))
     else do now <- Date_now; ret (TimeClip now));
  let eventBlock := "BEGIN:VEVENT" +:+ CRLF in
  let eventBlock :=
    eventBlock +:+ "UID:teamsnap-" +:+ ToString (obj_prop eventData "id")
      +:+ "@teamsnap.com" +:+ CRLF in
  do dtstart <- lift (formatDate startDate);
  let eventBlock := eventBlock +:+ "DTSTART:" +:+ dtstart +:+ CRLF in
  do dtend <- lift (formatDate endDate);
  let eventBlock := eventBlock +:+ "DTEND:" +:+ dtend +:+ CRLF in
  do title <- lift (as_string customTitle);
  let eventBlock :=
    eventBlock +:+ "SUMMARY:" +:+ replace_char comma esc_comma title +:+ CRLF in
  let eventBlock :=
    if negb (String.eqb description "")
    then eventBlock +:+ "DESCRIPTION:" +:+ description +:+ CRLF
    else eventBlock in
  do eventBlock <-
    (if truthy (obj_prop eventData "location_name") then
       do locationText <- locationText_of eventData;
       do lt <- lift (as_string locationText);
       ret (eventBlock +:+ "LOCATION:" +:+ replace_char comma esc_comma lt +:+ CRLF)
     else ret eventBlock);
  let eventUrl :=
    "https://go.teamsnap.com/" +:+ ToString teamId +:+ "/schedule/view_event/"
      +:+ ToString (obj_prop eventData "id") in
  let eventBlock := eventBlock +:+ "URL:" +:+ eventUrl +:+ CRLF in
  do lastmod <- lift (formatDate updatedAt);
  let eventBlock := eventBlock +:+ "LAST-MODIFIED:" +:+ lastmod +:+ CRLF in
  do now <- Date_now;
  do dtstamp <- lift (formatDate (TimeClip now));
  let eventBlock := eventBlock +:+ "DTSTAMP:" +:+ dtstamp +:+ CRLF in
  ret (eventBlock +:+ "END:VEVENT" +:+ CRLF).

(** The title of an event in the feed (lines 326-349). *)
Definition customTitle_of (teamId actualTeamName : JsVal) (eventData : gmap string JsVal)
  : M JsVal :=
  if truthy (obj_prop eventData "is_game") then
    generateEventTitle eventData teamId actualTeamName
  else if truthy (obj_prop eventData "formatted_title") then
    do customTeamName <- kv_get ("custom_team_name_" +:+ ToString teamId);
    let teamName := js_or customTeamName (js_or actualTeamName (JStr "Team")) in
    ret (JStr (ToString teamName +:+ ": " +:+ ToString (obj_prop eventData "formatted_title")))
  else if truthy (obj_prop eventData "formatted_title_for_multi_team") then
    let customTitle := obj_prop eventData "formatted_title_for_multi_team" in
    do customTeamName <- kv_get ("custom_team_name_" +:+ ToString teamId);
    if truthy actualTeamName && truthy customTeamName then
      do t <- lift (as_string customTitle);
      if includes t (ToString actualTeamName)
      then ret (JStr (replace_first t (ToString actualTeamName) (ToString customTeamName)))
      else ret customTitle
    else ret customTitle
  else
    ret (js_or (obj_prop eventData "label") (js_or (obj_prop eventData "name") (JStr "Event"))).

(** The loop over the events (lines 202-353): an event without a start is
    skipped, every other event adds its block. *)
Fixpoint render_events (teamId actualTeamName : JsVal) (events : list Item)
    (icsContent : string) : M string :=
  match events with
  | [] => ret icsContent
  | event :: rest =>
      match data event with
      | None => throw TypeError
      | Some fs =>
          let eventData := object_of fs in
          let startTime := obj_prop eventData "start_date" in
          let endTime := obj_prop eventData "end_date" in
          if negb (truthy startTime) then render_events teamId actualTeamName rest icsContent
          else
            let startDate := new_Date startTime in
            let endDate :=
              if truthy endTime then new_Date endTime
              else Date_of_number (option_map (fun t => t + 2 * 60 * 60 * 1000) startDate) in
            do customTitle <- customTitle_of teamId actualTeamName eventData;
            do eventBlock <-
              generateEventFromTemplate teamId startDate endDate eventData customTitle;
            render_events teamId actualTeamName rest (icsContent +:+ eventBlock)
      end
  end.

(** The calendar header (lines 191-200). *)
Definition calendar_header (calendarName : JsVal) : string :=
  let icsContent := "BEGIN:VCALENDAR" +:+ CRLF in
  let icsContent := icsContent +:+ "VERSION:2.0" +:+ CRLF in
  let icsContent :=
    icsContent +:+ "PRODID:-//TeamSnap Custom Calendar//TeamSnap Events//EN" +:+ CRLF in
  let icsContent := icsContent +:+ "CALSCALE:GREGORIAN" +:+ CRLF in
  let icsContent := icsContent +:+ "METHOD:PUBLISH" +:+ CRLF in
  if truthy calendarName
  then icsContent +:+ "X-WR-CALNAME:" +:+ ToString calendarName +:+ CRLF
  else icsContent.

(** The document of a feed (lines 186-355). *)
Definition render (teamId actualTeamName : JsVal) (events : list Item) : M string :=
  do customTeamName <- kv_get ("custom_team_name_" +:+ ToString teamId);
  let calendarName := js_or customTeamName (js_or actualTeamName (JStr "")) in
  do icsContent <- render_events teamId actualTeamName events (calendar_header calendarName);
  ret (icsContent +:+ "END:VCALENDAR" +:+ CRLF).

(** *** Feed cache and conditional responses *)

(** The parts of a request [serveCalendar] reads: three query parameters and
    two headers, each [None] when absent. *)
Record Request : Type := mkRequest {
  q_cache : option string;
  q_refresh : option string;
  q_format : option string;
  h_if_modified_since : option string;
  h_if_none_match : option string
}.

(** A response: the status, the body ([None] for [null]) and the headers the
    worker sets. *)
Record Response : Type := mkResponse {
  resp_status : Z;
  resp_body : option string;
  resp_headers : list (string * string)
}.

Definition dquote : string := String "034"%char "".

(** [`"${calendarId}-${v}"`] *)
Definition make_etag (calendarId v : string) : string :=
  dquote +:+ calendarId +:+ "-" +:+ v +:+ dquote.

Definition freshness_headers (lastModified : Date) (etag : string) : list (string * string) :=
  [("Last-Modified", Date_toUTCString lastModified);
   ("ETag", etag);
   ("Cache-Control", "public, max-age=3600")].

Definition attachment (teamId filterType : JsVal) : string :=
  "attachment; filename=" +:+ dquote +:+ ToString teamId +:+ "_" +:+ ToString filterType
    +:+ ".ics" +:+ dquote.

(** The conditional request against the cached pair (lines 57-88): the 304
    response, if one is due. *)
Definition conditional_response (calendarId : string)
    (ifModifiedSince ifNoneMatch cachedIcs cachedLastUpdate : JsVal) : option Response :=
  if truthy cachedIcs && truthy cachedLastUpdate then
    let lastModified := Date_of_number (parseInt (ToString cachedLastUpdate)) in
    let etag := make_etag calendarId (ToString cachedLastUpdate) in
    if truthy ifModifiedSince && num_le lastModified (new_Date ifModifiedSince) then
      Some (mkResponse 304 None (freshness_headers lastModified etag))
    else if truthy ifNoneMatch && strict_eq_str ifNoneMatch etag then
      Some (mkResponse 304 None (freshness_headers lastModified etag))
    else None
  else None.

(** The access token of a feed request (lines 90-100); [None] leads to the
    401 response. *)
Definition feed_access_token : M (option JsVal) :=
  do accessToken <- kv_get "oauth_access_token";
  if negb (truthy accessToken) then
    do newTokens <- refreshAccessToken;
    match newTokens with
    | Some td => ret (Some (access_token td))
    | None => ret None
    end
  else ret (Some accessToken).

(** [items[0].data.find(d => d.name === 'name').value] *)
Definition item_name (it : Item) : Result JsVal :=
  match data it with
  | None => Throw TypeError
  | Some fs =>
      match List.find (fun d => String.eqb (name d) "name") fs with
      | Some d => Ok (value d)
      | None => Throw TypeError
      end
  end.

(** The upstream team name (lines 102-111); [null] when it cannot be had. *)
Definition fetch_team_name (teamId : JsVal) : M JsVal :=
  try_catch
    (do teamData <- fetchTeamSnapData ("/teams/" +:+ ToString teamId);
     match teamData with
     | Some {| collection := Some {| items := Some (it :: _) |} |} => lift (item_name it)
     | _ => ret JNull
     end)
    (fun _ => ret JNull).

(** The event fetch (lines 113-134): the 500 response, or the parsed body. *)
Definition fetch_team_events (teamId accessToken : JsVal) : M (Response + option JsonDoc) :=
  try_catch
    (do teamEventsResponse <-
       fetch (ApiGet (TEAMSNAP_API_URL +:+ "/events/search?team_id=" +:+ ToString teamId)
                     (ToString accessToken));
     if negb (ok teamEventsResponse) then
       ret (inl (mkResponse 500
                   (Some ("Error fetching team events: "
                            +:+ string_of_Z (status teamEventsResponse) +:+ " "
                            +:+ text teamEventsResponse)) []))
     else
       do eventsData <- response_json teamEventsResponse;
       ret (inr eventsData))
    (fun _ => ret (inl (mkResponse 500 (Some "Failed to fetch team events") []))).

(** [eventsData.collection.items], or no events (lines 136-141). *)
Definition events_of (eventsData : option JsonDoc) : list Item :=
  match eventsData with
  | Some {| collection := Some {| items := Some l |} |} => l
  | _ => []
  end.

(** [event.data?.find(d => d.name === k)?.value] *)
Definition find_value (event : Item) (k : string) : JsVal :=
  match data event with
  | None => JUndefined
  | Some fs =>
      match List.find (fun d => String.eqb (name d) k) fs with
      | Some d => value d
      | None => JUndefined
      end
  end.

(** Cancelled events are dropped (lines 143-147). *)
Definition drop_cancelled (events : list Item) : list Item :=
  List.filter (fun event => negb (truthy (find_value event "is_canceled"))) events.

(** The filter of the feed (lines 149-156). *)
Definition apply_filter (filterType : JsVal) (events : list Item) : list Item :=
  if strict_eq_str filterType "games" then
    List.filter
      (fun event =>
         strict_eq_str (find_value event "game_type") "Game"
         || truthy (find_value event "opponent_name"))
      events
  else events.

(** The latest update among the events (lines 158-168). *)
Definition latest_update (events : list Item) : Z :=
  fold_left
    (fun latestEventUpdate event =>
       let updatedAt := find_value event "updated_at" in
       if truthy updatedAt then
         match new_Date updatedAt with
         | Some updateTime =>
             if latestEventUpdate <? updateTime then updateTime else latestEventUpdate
         | None => latestEventUpdate
         end
       else latestEventUpdate)
    events 0.

(** The cached document is served (lines 171-184). *)
Definition cached_response (calendarId : string) (teamId filterType : JsVal)
    (cachedIcs cachedLastUpdate : JsVal) : Response :=
  let lastModified := Date_of_number (parseInt (ToString cachedLastUpdate)) in
  let etag := make_etag calendarId (ToString cachedLastUpdate) in
  mkResponse 200 (Some (ToString cachedIcs))
    ([("Content-Type", "text/calendar; charset=utf-8");
      ("Content-Disposition", attachment teamId filterType)]
     ++ freshness_headers lastModified etag)%list.

(** A new document is rendered, cached when the events carry an update time,
    and served (lines 186-386). *)
Definition render_and_respond (request : Request) (calendarId : string) (forceText : bool)
    (teamId filterType actualTeamName : JsVal) (events : list Item) (latestEventUpdate : Z)
  : M Response :=
  do icsContent <- render teamId actualTeamName events;
  do _ <- (if 0 <? latestEventUpdate then
             do _ <- kv_put (cacheKey calendarId) (JStr icsContent) (JNum 3600);
             kv_put (lastUpdateKey calendarId) (JStr (string_of_Z latestEventUpdate))
               (JNum 3600)
           else ret tt);
  do lastModified <-
    (if negb (latestEventUpdate =? 0) then ret (TimeClip latestEventUpdate)
     else do now <- Date_now; ret (TimeClip now));
  do tag <- (if negb (latestEventUpdate =? 0) then ret latestEventUpdate else Date_now);
  let etag := make_etag calendarId (string_of_Z tag) in
  let formatAsText := forceText || param_is (q_format request) "text" in
  let headers := freshness_headers lastModified etag in
  let headers :=
    if formatAsText then
      (headers ++ [("Content-Type", "text/plain; charset=utf-8");
                   ("Content-Disposition", "inline");
                   ("X-Content-Type-Options", "nosniff")])%list
    else
      (headers ++ [("Content-Type", "text/calendar; charset=utf-8");
                   ("Content-Disposition", attachment teamId filterType)])%list in
  ret (mkResponse 200 (Some icsContent) headers).

(** [cachedIcs && cachedLastUpdate && latestEventUpdate <= parseInt(cachedLastUpdate)] *)
Definition cache_is_fresh (cachedIcs cachedLastUpdate : JsVal) (latestEventUpdate : Z) : bool :=
  truthy cachedIcs && truthy cachedLastUpdate
  && num_le (Some latestEventUpdate) (parseInt (ToString cachedLastUpdate)).

(** The response once the events are fetched (lines 136-387): they are
    filtered, and the cached document is served if it is fresh, a new one
    otherwise. *)
Definition serve_events (request : Request) (calendarId : string) (forceText : bool)
    (teamId filterType cachedIcs cachedLastUpdate actualTeamName : JsVal)
    (eventsData : option JsonDoc) : M Response :=
  let events := events_of eventsData in
  let events := drop_cancelled events in
  let events := apply_filter filterType events in
  let latestEventUpdate := latest_update events in
  if cache_is_fresh cachedIcs cachedLastUpdate latestEventUpdate
  then ret (cached_response calendarId teamId filterType cachedIcs cachedLastUpdate)
  else
    render_and_respond request calendarId forceText teamId filterType
      actualTeamName events latestEventUpdate.

(** What follows the conditional check: the access token, the team name and
    the events are fetched (lines 90-141). *)
Definition fetch_phase (teamId : JsVal) : M (Response + (JsVal * option JsonDoc)) :=
  do accessToken <- feed_access_token;
  match accessToken with
  | None =>
      ret (inl (mkResponse 401 (Some "Calendar access expired. Please re-authenticate.") []))
  | Some accessToken =>
      do actualTeamName <- fetch_team_name teamId;
      do fetched <- fetch_team_events teamId accessToken;
      match fetched with
      | inl failure => ret (inl failure)
      | inr eventsData => ret (inr (actualTeamName, eventsData))
      end
  end.

(** [serveCalendar] (lines 21-387) *)
Definition serveCalendar (request : Request) (calendarId : string) (forceText : bool)
  : M Response :=
  do tokenData <- parseCalendarToken calendarId;
  if negb (truthy_json tokenData) then
    ret (mkResponse 400 (Some "Invalid or expired calendar token.") [])
  else
    let teamId := prop tokenData "teamId" in
    let filterType := prop tokenData "filterType" in
    let cacheOff := param_is (q_cache request) "off" in
    let forceRefresh := param_is (q_refresh request) "true" in
    let ifModifiedSince := of_kv (h_if_modified_since request) in
    let ifNoneMatch := of_kv (h_if_none_match request) in
    do cachedIcs <-
      (if cacheOff || forceRefresh then ret JNull else kv_get (cacheKey calendarId));
    do cachedLastUpdate <-
      (if cacheOff || forceRefresh then ret JNull else kv_get (lastUpdateKey calendarId));
    do _ <- (if forceRefresh
             then do _ <- kv_delete (cacheKey calendarId); kv_delete (lastUpdateKey calendarId)
             else ret tt);
    match conditional_response calendarId ifModifiedSince ifNoneMatch cachedIcs cachedLastUpdate
    with
    | Some notModified => ret notModified
    | None =>
        do fetched <- fetch_phase teamId;
        match fetched with
        | inl failure => ret failure
        | inr (actualTeamName, eventsData) =>
            serve_events request calendarId forceText teamId filterType cachedIcs
              cachedLastUpdate actualTeamName eventsData
        end
    end.

End Worker.

(** * The routes besides the feed

    The authentication check, the two API endpoints and the router (lines
    561-594 and 674-929). *)

(** ** Requests and answers *)

(** [s.endsWith(suffix)] *)
Definition ends_with (suffix s : string) : bool :=
  let n := String.length s in
  let k := String.length suffix in
  (k <=? n)%nat && String.eqb (drop (n - k) s) suffix.

(** [s.substring(start, end)]: both indices are clamped to the string, and
    swapped when the first is the larger. *)
Definition substring (s : string) (start finish : Z) : string :=
  let len := Z.of_nat (String.length s) in
  let a := Z.min (Z.max start 0) len in
  let b := Z.min (Z.max finish 0) len in
  take (Z.to_nat (Z.max a b - Z.min a b)) (drop (Z.to_nat (Z.min a b)) s).

(** [URLSearchParams.prototype.toString]: the application/x-www-form-urlencoded
    serializer, on the bytes of the names and values. *)
Definition hex_upper (n : nat) : ascii :=
  ascii_of_nat (if (n <? 10)%nat then 48 + n else 55 + n).

Definition form_byte (a : ascii) : string :=
  let n := nat_of_ascii a in
  if (n =? 32)%nat then "+"
  else if ((48 <=? n) && (n <=? 57))%nat || ((65 <=? n) && (n <=? 90))%nat
          || ((97 <=? n) && (n <=? 122))%nat
          || (n =? 42)%nat || (n =? 45)%nat || (n =? 46)%nat || (n =? 95)%nat
       then String a ""
       else String "%" (String (hex_upper (n / 16)) (String (hex_upper (n mod 16)) "")).

Fixpoint form_encode (s : string) : string :=
  match s with
  | EmptyString => EmptyString
  | String a s' => form_byte a +:+ form_encode s'
  end.

Fixpoint form_urlencoded (params : list (string * string)) : string :=
  match params with
  | [] => ""
  | [(k, v)] => form_encode k +:+ "=" +:+ form_encode v
  | (k, v) :: rest => form_encode k +:+ "=" +:+ form_encode v +:+ "&" +:+ form_urlencoded rest
  end.

(** What the routes read of a request: the method, the origin and the path
    of its URL, the [teamId] query parameter, the body as [request.json()]
    gives it ([None] when it rejects), and the parts [serveCalendar] reads. *)
Record ApiRequest : Type := mkApiRequest {
  req_method : string;
  req_origin : string;
  req_pathname : string;
  req_teamId : option string;
  req_body : option Json;
  req_feed : Request
}.

#[local] Set Warnings "-register-all".

(** The values [JSON.stringify] is applied to in the answers of the API. *)
Inductive JsonTree : Type :=
| Leaf (v : JsVal)
| Arr (elements : list JsonTree)
| Obj (members : list (string * JsonTree)).

Definition TEAMSNAP_OAUTH_URL : string := "https://auth.teamsnap.com/oauth/authorize".

(** [Response.redirect(url, 302)] *)
Definition redirect (url : string) : Response :=
  mkResponse 302 None [("Location", url)].

(** [items[0].data.find(d => d.name === k)?.value] *)
Definition find_field (it : Item) (k : string) : Result JsVal :=
  match data it with
  | None => Throw TypeError
  | Some fs =>
      Ok (match List.find (fun d => String.eqb (name d) k) fs with
          | Some d => value d
          | None => JUndefined
          end)
  end.

(** One entry of the listing (lines 762-771). *)
Definition team_json (workerUrl : string) (t : TeamCalendars) : JsonTree :=
  Obj [("id", Leaf (tc_id t));
       ("name", Leaf (tc_name t));
       ("customName", Leaf (tc_customName t));
       ("removeOpponentNames", Leaf (JBool (tc_removeOpponentNames t)));
       ("calendars",
        Obj [("all", Leaf (JStr (workerUrl +:+ "/" +:+ tc_all t +:+ ".ics")));
             ("games", Leaf (JStr (workerUrl +:+ "/" +:+ tc_games t +:+ ".ics")))])].

Section Routes.
Context (rt : Runtime) (w : World) (env : Env).

(** The binding [env.ALLOWED_USER_EMAIL]. *)
Context (ALLOWED_USER_EMAIL : JsVal).

(** [JSON.stringify] on the answers of the API, and the page
    [getSettingsHTML] returns (lines 935-1139), a constant. *)
Context (stringify : JsonTree -> string) (settingsHTML : string).

(** [new Response(JSON.stringify(v), {status, headers: {'Content-Type': 'application/json'}})] *)
Definition json_response (status : Z) (v : JsonTree) : Response :=
  mkResponse status (Some (stringify v)) [("Content-Type", "application/json")].

Definition error_response (status : Z) (message : string) : Response :=
  json_response status (Obj [("error", Leaf (JStr message))]).

(** [isAuthenticated] (lines 561-577).  The clock is read only when an
    expiry time is stored; a stored value that is no number compares as
    false. *)
Definition isAuthenticated : M bool :=
  do accessToken <- kv_get "oauth_access_token";
  do expiresAt <- kv_get "oauth_expires_at";
  if negb (truthy accessToken) then ret false
  else if truthy expiresAt then
    do now <- Date_now w;
    match parseInt (ToString expiresAt) with
    | Some expiry =>
        if expiry <? now then
          do newTokens <- refreshAccessToken w env;
          ret (match newTokens with Some _ => true | None => false end)
        else ret true
    | None => ret true
    end
  else ret true.

(** [startOAuth] (lines 582-594) *)
Definition startOAuth (request : ApiRequest) : Response :=
  let workerUrl := req_origin request in
  let params :=
    form_urlencoded
      [("client_id", ToString (TEAMSNAP_CLIENT_ID env));
       ("redirect_uri", workerUrl +:+ "/auth-callback");
       ("response_type", "code")] in
  redirect (TEAMSNAP_OAUTH_URL +:+ "?" +:+ params).

(** [Promise.all(teams.map(...))] of [handleTeamsApi] (line 737): the
    callbacks are taken in the order of the teams. *)
Fixpoint teamsWithCalendars (teams : list Item) : M (list TeamCalendars) :=
  match teams with
  | [] => ret []
  | team :: rest =>
      do t <- teamWithCalendars rt env team;
      do ts <- teamsWithCalendars rest;
      ret (t :: ts)
  end.

(** [handleTeamsApi] (lines 700-788) *)
Definition handleTeamsApi (request : ApiRequest) : M Response :=
  try_catch
    (do userData <- fetchTeamSnapData w env "/me";
     match userData with
     | Some {| collection := Some {| items := Some (user :: _) |} |} =>
         do userEmail <- lift (find_field user "email");
         do userId <- lift (find_field user "id");
         if negb (truthy ALLOWED_USER_EMAIL) then
           ret (mkResponse 403
                  (Some "Access denied: ALLOWED_USER_EMAIL environment variable is required")
                  [])
         else if negb (bool_decide (userEmail = ALLOWED_USER_EMAIL)) then
           ret (mkResponse 403
                  (Some ("Access denied: The email '" +:+ ToString userEmail
                           +:+ "' is not authorized to use this service."))
                  [])
         else
           do teamsResponse <-
             fetchTeamSnapData w env ("/teams/active?user_id=" +:+ ToString userId);
           match teamsResponse with
           | Some {| collection := Some c |} =>
               let teams := match items c with Some l => l | None => [] end in
               let workerUrl := req_origin request in
               do listing <- teamsWithCalendars teams;
               ret (json_response 200
                      (Obj [("user", Obj [("email", Leaf userEmail)]);
                            ("teams", Arr (map (team_json workerUrl) listing))]))
           | _ => ret (error_response 500 "Teams data not found")
           end
     | _ => ret (error_response 500 "User data not found")
     end)
    (fun _ => ret (error_response 500 "Failed to fetch teams")).

(** The store keys of a team's settings. *)
Definition custom_name_key (teamId : string) : string := "custom_team_name_" +:+ teamId.
Definition remove_opponents_key (teamId : string) : string :=
  "remove_opponent_names_" +:+ teamId.

(** The answer of the GET branch (lines 805-813). *)
Definition settings_json (customName : JsVal) (removeOpponentNames : bool) : JsonTree :=
  Obj [("customName", Leaf customName);
       ("removeOpponentNames", Leaf (JBool removeOpponentNames))].

(** The cached feeds of a team are dropped (lines 843-857). *)
Definition invalidate_feeds (teamId : JsVal) : M unit :=
  do teamData <- fetchTeamSnapData w env ("/teams/" +:+ ToString teamId);
  do teamName <-
    match teamData with
    | Some {| collection := Some {| items := Some (it :: _) |} |} => lift (item_name it)
    | _ => ret JNull
    end;
  if truthy teamName then
    let allEventsToken := generateCalendarToken rt env teamId "all" teamName in
    let gamesOnlyToken := generateCalendarToken rt env teamId "games" teamName in
    do _ <- kv_delete (cacheKey allEventsToken);
    do _ <- kv_delete (lastUpdateKey allEventsToken);
    do _ <- kv_delete (cacheKey gamesOnlyToken);
    kv_delete (lastUpdateKey gamesOnlyToken)
  else ret tt.

(** [handleTeamSettingsApi] (lines 793-865).  Destructuring the body throws
    on [null]; any other value that is no object has none of the three
    properties. *)
Definition handleTeamSettingsApi (request : ApiRequest) : M Response :=
  if String.eqb (req_method request) "GET" then
    let teamId := of_kv (req_teamId request) in
    if negb (truthy teamId) then ret (error_response 400 "Missing teamId")
    else
      do customName <- kv_get (custom_name_key (ToString teamId));
      do removeOpponentNames <- kv_get (remove_opponents_key (ToString teamId));
      ret (json_response 200
             (settings_json customName (strict_eq_str removeOpponentNames "true")))
  else if String.eqb (req_method request) "POST" then
    match req_body request with
    | None => throw SyntaxError
    | Some (JScalar JNull) => throw TypeError
    | Some parsed =>
        let teamId := prop parsed "teamId" in
        let customName := prop parsed "customName" in
        let removeOpponentNames := prop parsed "removeOpponentNames" in
        if negb (truthy teamId) then ret (error_response 400 "Missing teamId")
        else
          do _ <- (if truthy customName
                   then kv_put (custom_name_key (ToString teamId)) customName JUndefined
                   else kv_delete (custom_name_key (ToString teamId)));
          do _ <- (if negb (bool_decide (removeOpponentNames = JUndefined)) then
                     if truthy removeOpponentNames
                     then kv_put (remove_opponents_key (ToString teamId)) (JStr "true") JUndefined
                     else kv_delete (remove_opponents_key (ToString teamId))
                   else ret tt);
          do _ <- invalidate_feeds teamId;
          ret (json_response 200 (Obj [("success", Leaf (JBool true))]))
    end
  else ret (mkResponse 405 (Some "Method Not Allowed") []).

(** [handleApiRequest] (lines 674-695) *)
Definition handleApiRequest (request : ApiRequest) : M Response :=
  let path := req_pathname request in
  do authenticated <- isAuthenticated;
  if negb authenticated then ret (error_response 401 "Not authenticated")
  else if String.eqb path "/api/teams" then handleTeamsApi request
  else if String.eqb path "/api/team-settings" then handleTeamSettingsApi request
  else ret (mkResponse 404 (Some "Not Found") []).

(** The identifier of a feed in the path [/<id>.ics] or [/<id>.txt]. *)
Definition calendarId_of (path : string) : string :=
  substring path 1 (Z.of_nat (String.length path) - 4).

(** The OAuth callback (lines 599-665) exchanges an authorization code at
    the token endpoint; the router is taken for any handler of that route. *)
Context (handleOAuthCallback : ApiRequest -> M Response).

(** The [fetch] handler of the worker (lines 872-928) *)
Definition worker_fetch (request : ApiRequest) : M Response :=
  let path := req_pathname request in
  if starts_with eq_exact "/api/" path then handleApiRequest request
  else if ends_with ".ics" path then
    serveCalendar rt w env (req_feed request) (calendarId_of path) false
  else if ends_with ".txt" path then
    serveCalendar rt w env (req_feed request) (calendarId_of path) true
  else if String.eqb path "/auth-callback" then handleOAuthCallback request
  else if String.eqb path "/" then
    do authenticated <- isAuthenticated;
    if authenticated then ret (redirect (req_origin request +:+ "/settings"))
    else ret (startOAuth request)
  else if String.eqb path "/settings" then
    do authenticated <- isAuthenticated;
    if negb authenticated then ret (startOAuth request)
    else ret (mkResponse 200 (Some settingsHTML) [("Content-Type", "text/html")])
  else
    do authenticated <- isAuthenticated;
    if authenticated then ret (redirect (req_origin request +:+ "/settings"))
    else ret (startOAuth request).

End Routes.

(** * Vocabulary of the properties *)

(** The request [refreshAccessToken] sends to the token endpoint. *)
Definition refresh_call (env : Env) (st : State) : Call :=
  TokenPost (ToString (of_kv (kv st !! "oauth_refresh_token")))
    (ToString (TEAMSNAP_CLIENT_ID env)) (ToString (TEAMSNAP_CLIENT_SECRET env)).

(** The token endpoint fails: the request does not get through, or the
    response is not a success. *)
Definition refresh_fails (w : World) (env : Env) (st : State) : Prop :=
  net w (calls st) (refresh_call env st) = NetFail
  \/ exists r, net w (calls st) (refresh_call env st) = Resp r /\ ok r = false.

(** A token resolves: its mapping is stored and parses to a truthy value. *)
Definition resolves (rt : Runtime) (st : State) (token : string) (tokenData : Json) : Prop :=
  exists mapping,
    kv st !! token_key token = Some mapping /\ mapping <> ""
    /\ JSON_parse rt mapping = Some tokenData /\ truthy_json tokenData = true.

(** The cached pair of a feed is stored, document and watermark. *)
Definition cached_pair (st : State) (calendarId ics lastUpdate : string) : Prop :=
  kv st !! cacheKey calendarId = Some ics /\ ics <> ""
  /\ kv st !! lastUpdateKey calendarId = Some lastUpdate /\ lastUpdate <> "".

(** Neither [cache=off] nor [refresh=true] was requested. *)
Definition no_bypass (request : Request) : Prop :=
  q_cache request <> Some "off" /\ q_refresh request <> Some "true".

(** The client's copy is current: its [If-Modified-Since] date is at or
    after the cached watermark, or its [If-None-Match] is the cached ETag. *)
Definition copy_is_current (rt : Runtime) (request : Request) (calendarId lastUpdate : string)
  : Prop :=
  (exists since t watermark,
      h_if_modified_since request = Some since /\ since <> ""
      /\ Date_parse rt since = Some t
      /\ parseInt lastUpdate = Some watermark /\ TimeClip watermark = Some watermark
      /\ watermark <= t)
  \/ h_if_none_match request = Some (make_etag calendarId lastUpdate).

(** The request is not answered 304: no conditional header shows the
    client's copy to be current. *)
Definition not_conditional (rt : Runtime) (request : Request) (calendarId : string)
    (cachedIcs cachedLastUpdate : JsVal) : Prop :=
  conditional_response rt calendarId (of_kv (h_if_modified_since request))
    (of_kv (h_if_none_match request)) cachedIcs cachedLastUpdate = None.

(** The events of a feed, as [serveCalendar] filters them. *)
Definition feed_events (filterType : JsVal) (eventsData : option JsonDoc) : list Item :=
  apply_filter filterType (drop_cancelled (events_of eventsData)).

(** The answer to a token that does not resolve (line 27). *)
Definition invalid_token : Response :=
  mkResponse 400 (Some "Invalid or expired calendar token.") [].

(** [JSON.parse] gives back the members of an object that [JSON.stringify]
    wrote. *)
Definition JSON_round_trip (rt : Runtime) (o : gmap string JsVal) : Prop :=
  JSON_stringify rt (JObject o) <> ""
  /\ exists j,
       JSON_parse rt (JSON_stringify rt (JObject o)) = Some j
       /\ truthy_json j = true
       /\ forall k, prop j k = obj_prop o k.

(** Does [c] occur in [s]? *)
Fixpoint has_char (c : ascii) (s : string) : bool :=
  match s with
  | EmptyString => false
  | String a s' => Ascii.eqb a c || has_char c s'
  end.

(** A text value is well escaped when it holds no line feed and every comma
    in it follows a backslash; [escaped] tells whether the character before
    is a backslash. *)
Fixpoint well_escaped_from (escaped : bool) (s : string) : bool :=
  match s with
  | EmptyString => true
  | String a s' =>
      if Ascii.eqb a LF then false
      else if Ascii.eqb a comma then escaped && well_escaped_from false s'
      else well_escaped_from (Ascii.eqb a backslash) s'
  end.

Definition well_escaped (s : string) : bool := well_escaped_from false s.

(** A description is empty or ends with the two characters backslash, n. *)
Definition ends_line (d : string) : Prop := d = "" \/ exists d', d = d' +:+ esc_n.

(** [line] occurs in [x]. *)
Definition has_line (line x : string) : Prop := exists before after, x = before +:+ line +:+ after.

(** The cache is bypassed: [cache=off] or [refresh=true]. *)
Definition bypass (request : Request) : bool :=
  param_is (q_cache request) "off" || param_is (q_refresh request) "true".

(** What [serveCalendar] reads of the cached pair under a key. *)
Definition read_cache (request : Request) (st : State) (key : string) : JsVal :=
  if bypass request then JNull else of_kv (kv st !! key).

(** The state once [refresh=true] has deleted the cached pair. *)
Definition after_refresh (request : Request) (calendarId : string) (st : State) : State :=
  if param_is (q_refresh request) "true"
  then mkState (delete (lastUpdateKey calendarId) (delete (cacheKey calendarId) (kv st)))
         (calls st) (ticks st)
  else st.

(** The same request, sent again with an [If-None-Match] header. *)
Definition with_if_none_match (request : Request) (etag : string) : Request :=
  mkRequest (q_cache request) (q_refresh request) (q_format request)
    (h_if_modified_since request) (Some etag).

(** Two states agree on every key of the store but the three of the OAuth
    token manager. *)
Definition same_but_oauth (st st' : State) : Prop :=
  forall k,
    k <> "oauth_access_token" -> k <> "oauth_refresh_token" -> k <> "oauth_expires_at" ->
    kv st' !! k = kv st !! k.

(** A computation that writes no other key, however it ends. *)
Definition oauth_only {A} (m : M A) : Prop :=
  forall st r st', m st = (r, st') -> same_but_oauth st st'.

(** Every value a computation returns satisfies [P]. *)
Definition returns {A} (P : A -> Prop) (m : M A) : Prop :=
  forall st a st', m st = (Ok a, st') -> P a.

(** The update time of an event, if it carries one that parses. *)
Definition update_time (rt : Runtime) (event : Item) : option Z :=
  let updatedAt := find_value event "updated_at" in
  if truthy updatedAt then new_Date rt updatedAt else None.

(** The test of the "games" filter. *)
Definition game_like (event : Item) : bool :=
  strict_eq_str (find_value event "game_type") "Game"
  || truthy (find_value event "opponent_name").


(** [n] decimal digits. *)
Fixpoint all_digits (s : string) : bool :=
  match s with
  | EmptyString => true
  | String a s' => is_digit a && all_digits s'
  end.

Definition digits (n : nat) (s : string) : Prop :=
  String.length s = n /\ all_digits s = true.

(** The upstream calls: a GET of [url], a POST to the token endpoint. *)
Definition is_get (url : string) (c : Call) : bool :=
  match c with ApiGet u _ => String.eqb u url | TokenPost _ _ _ => false end.

Definition is_post (c : Call) : bool :=
  match c with ApiGet _ _ => false | TokenPost _ _ _ => true end.

(** A computation that ends without an exception, whatever the state. *)
Definition never_throws {A} (m : M A) : Prop :=
  forall st, exists a st', m st = (Ok a, st').

(** A computation that sends nothing upstream, however it ends. *)
Definition keeps_calls {A} (m : M A) : Prop :=
  forall st r st', m st = (r, st') -> calls st' = calls st.

(** Requests that are GETs of [url] or POSTs to the token endpoint, at most
    [gets] of the former and [posts] of the latter. *)
Definition within (url : string) (gets posts : nat) (l : list Call) : Prop :=
  Forall (fun c => is_get url c || is_post c = true) l
  /\ (length (List.filter (is_get url) l) <= gets)%nat
  /\ (length (List.filter is_post l) <= posts)%nat.

(** The requests a computation sends, however it ends, satisfy [P]. *)
Definition traffic {A} (m : M A) (P : list Call -> Prop) : Prop :=
  forall st r st', m st = (r, st') -> exists l, calls st' = (calls st ++ l)%list /\ P l.

(** The signed-in user is the allowed one: [ALLOWED_USER_EMAIL] is set, and
    [/me] yields a user with that email. *)
Definition signed_in_as_allowed (w : World) (env : Env) (allowed : JsVal) (st : State) : Prop :=
  truthy allowed = true
  /\ exists doc user rest st1,
       fetchTeamSnapData w env "/me" st = (Ok (Some doc), st1)
       /\ collection doc = Some (mkCollection (Some (user :: rest)))
       /\ find_field user "email" = Ok allowed.

(** The upstream names the team: the first item of the document has a name. *)
Definition named_by (teamData : option JsonDoc) (teamName : JsVal) : Prop :=
  exists doc it rest,
    teamData = Some doc
    /\ collection doc = Some (mkCollection (Some (it :: rest)))
    /\ item_name it = Ok teamName.

(** [st0] is [st] but for the two settings of a team. *)
Definition settings_written (teamId : string) (st st0 : State) : Prop :=
  calls st0 = calls st /\ ticks st0 = ticks st
  /\ forall k, k <> custom_name_key teamId -> k <> remove_opponents_key teamId ->
               kv st0 !! k = kv st !! k.

(** The fields of an event as the renderer reads them: the last pair of a
    name wins. *)
Definition event_object (event : Item) : gmap string JsVal :=
  match data event with Some fs => object_of fs | None => ∅ end.

(** An event with a start date. *)
Definition has_start (event : Item) : bool :=
  truthy (obj_prop (event_object event) "start_date").

(** The text of an event in the document: it runs from BEGIN:VEVENT to
    END:VEVENT and holds the UID line of the event. *)
Definition block_of (event : Item) (block : string) : Prop :=
  starts_with eq_exact ("BEGIN:VEVENT" +:+ CRLF) block = true
  /\ ends_with ("END:VEVENT" +:+ CRLF) block = true
  /\ has_line ("UID:teamsnap-" +:+ ToString (obj_prop (event_object event) "id")
                 +:+ "@teamsnap.com" +:+ CRLF) block.

Definition join_blocks (blocks : list string) : string :=
  fold_right String.append "" blocks.



(** * A reference runtime

    An executable instance of [Runtime], to run the worker on concrete
    requests: SHA-256, the proleptic Gregorian calendar in UTC, and JSON for
    the values of [Json]. *)

Module Reference.

(** ** SHA-256 (FIPS 180-4) *)

Definition w32 (x : Z) : Z := x mod 4294967296.
Definition rotr (n x : Z) : Z := w32 (Z.lor (Z.shiftr x n) (Z.shiftl x (32 - n))).
Definition Ch (x y z : Z) : Z := Z.lxor (Z.land x y) (Z.land (Z.lxor x 4294967295) z).
Definition Maj (x y z : Z) : Z := Z.lxor (Z.lxor (Z.land x y) (Z.land x z)) (Z.land y z).
Definition Sigma0 (x : Z) : Z := Z.lxor (Z.lxor (rotr 2 x) (rotr 13 x)) (rotr 22 x).
Definition Sigma1 (x : Z) : Z := Z.lxor (Z.lxor (rotr 6 x) (rotr 11 x)) (rotr 25 x).
Definition sigma0 (x : Z) : Z := Z.lxor (Z.lxor (rotr 7 x) (rotr 18 x)) (Z.shiftr x 3).
Definition sigma1 (x : Z) : Z := Z.lxor (Z.lxor (rotr 17 x) (rotr 19 x)) (Z.shiftr x 10).

Definition K256 : list Z :=
  [1116352408; 1899447441; 3049323471; 3921009573; 961987163; 1508970993; 2453635748;
   2870763221; 3624381080; 310598401; 607225278; 1426881987; 1925078388; 2162078206;
   2614888103; 3248222580; 3835390401; 4022224774; 264347078; 604807628; 770255983;
   1249150122; 1555081692; 1996064986; 2554220882; 2821834349; 2952996808; 3210313671;
   3336571891; 3584528711; 113926993; 338241895; 666307205; 773529912; 1294757372;
   1396182291; 1695183700; 1986661051; 2177026350; 2456956037; 2730485921; 2820302411;
   3259730800; 3345764771; 3516065817; 3600352804; 4094571909; 275423344; 430227734;
   506948616; 659060556; 883997877; 958139571; 1322822218; 1537002063; 1747873779;
   1955562222; 2024104815; 2227730452; 2361852424; 2428436474; 2756734187; 3204031479;
   3329325298].

Definition H256 : list Z :=
  [1779033703; 3144134277; 1013904242; 2773480762; 1359893119; 2600822924; 528734635;
   1541459225].

Definition bytes_of (s : string) : list Z :=
  List.map (fun a => Z.of_nat (nat_of_ascii a)) (list_ascii_of_string s).

(** The message, the bit 1, zeros up to 56 modulo 64, and the bit length on
    eight bytes. *)
Definition pad (msg : list Z) : list Z :=
  let len := Z.of_nat (List.length msg) in
  let zeros := Z.to_nat ((55 - len) mod 64) in
  let bits := len * 8 in
  (msg ++ [128] ++ List.repeat 0 zeros
     ++ List.map (fun i => Z.shiftr bits (8 * i) mod 256) [7; 6; 5; 4; 3; 2; 1; 0])%list.

Fixpoint words_of (fuel : nat) (bs : list Z) : list Z :=
  match fuel, bs with
  | S k, a :: b :: c :: d :: rest =>
      (Z.shiftl a 24 + Z.shiftl b 16 + Z.shiftl c 8 + d) :: words_of k rest
  | _, _ => []
  end.

(** The message schedule, latest word first. *)
Fixpoint extend (n : nat) (ws : list Z) : list Z :=
  match n with
  | O => ws
  | S k =>
      let x :=
        w32 (sigma1 (List.nth 1 ws 0) + List.nth 6 ws 0 + sigma0 (List.nth 14 ws 0)
             + List.nth 15 ws 0) in
      extend k (x :: ws)
  end.

Definition round (st : list Z) (kw : Z * Z) : list Z :=
  match st with
  | [a; b; c; d; e; f; g; h] =>
      let t1 := h + Sigma1 e + Ch e f g + fst kw + snd kw in
      let t2 := Sigma0 a + Maj a b c in
      [w32 (t1 + t2); a; b; c; w32 (d + t1); e; f; g]
  | _ => st
  end.

Definition compress (h : list Z) (block : list Z) : list Z :=
  let ws := List.rev (extend 48 (List.rev block)) in
  let out := fold_left round (List.combine K256 ws) h in
  List.map (fun p => w32 (fst p + snd p)) (List.combine h out).

Fixpoint blocks (fuel : nat) (ws : list Z) (h : list Z) : list Z :=
  match fuel, ws with
  | _, [] => h
  | O, _ => h
  | S k, _ => blocks k (List.skipn 16 ws) (compress h (List.firstn 16 ws))
  end.

Definition hex_digit (n : Z) : ascii :=
  ascii_of_nat (Z.to_nat (if n <? 10 then 48 + n else 87 + n)).

Definition hex8 (x : Z) : string :=
  string_of_list_ascii
    (List.map (fun i => hex_digit (Z.shiftr x (4 * i) mod 16)) [7; 6; 5; 4; 3; 2; 1; 0]).

Definition sha256 (s : string) : string :=
  let bs := pad (bytes_of s) in
  let ws := words_of (List.length bs) bs in
  fold_left (fun acc x => acc +:+ hex8 x) (blocks (List.length ws) ws H256) "".

(** ** Calendar dates in UTC *)

(** Days since 1970-01-01 of a civil date, and back. *)
Definition days_from_civil (y m d : Z) : Z :=
  let y := if m <=? 2 then y - 1 else y in
  let era := y / 400 in
  let yoe := y - era * 400 in
  let doy := (153 * (if 2 <? m then m - 3 else m + 9) + 2) / 5 + d - 1 in
  let doe := yoe * 365 + yoe / 4 - yoe / 100 + doy in
  era * 146097 + doe - 719468.

Definition civil_from_days (z : Z) : Z * Z * Z :=
  let z := z + 719468 in
  let era := z / 146097 in
  let doe := z - era * 146097 in
  let yoe := (doe - doe / 1460 + doe / 36524 - doe / 146096) / 365 in
  let y := yoe + era * 400 in
  let doy := doe - (365 * yoe + yoe / 4 - yoe / 100) in
  let mp := (5 * doy + 2) / 153 in
  let d := doy - (153 * mp + 2) / 5 + 1 in
  let m := if mp <? 10 then mp + 3 else mp - 9 in
  (if m <=? 2 then y + 1 else y, m, d).

Fixpoint zeros (n : nat) : string :=
  match n with O => "" | S k => String "0" (zeros k) end.

(** A number on at least [n] digits. *)
Definition padded (n : nat) (x : Z) : string :=
  let s := string_of_Z (Z.abs x) in
  zeros (n - String.length s) +:+ s.

Definition clock_time (t : Z) : string :=
  let sod := (t / 1000) mod 86400 in
  padded 2 (sod / 3600) +:+ ":" +:+ padded 2 (sod mod 3600 / 60) +:+ ":"
    +:+ padded 2 (sod mod 60).

Definition iso_string (t : Z) : string :=
  let '(y, m, d) := civil_from_days (t / 86400000) in
  let year :=
    if (0 <=? y) && (y <=? 9999) then padded 4 y
    else (if y <? 0 then "-" else "+") +:+ padded 6 y in
  year +:+ "-" +:+ padded 2 m +:+ "-" +:+ padded 2 d +:+ "T" +:+ clock_time t +:+ "."
    +:+ padded 3 (t mod 1000) +:+ "Z".

Definition day_names : list string := ["Sun"; "Mon"; "Tue"; "Wed"; "Thu"; "Fri"; "Sat"].
Definition month_names : list string :=
  ["Jan"; "Feb"; "Mar"; "Apr"; "May"; "Jun"; "Jul"; "Aug"; "Sep"; "Oct"; "Nov"; "Dec"].

Definition utc_string (t : Z) : string :=
  let days := t / 86400000 in
  let '(y, m, d) := civil_from_days days in
  List.nth (Z.to_nat ((days + 4) mod 7)) day_names "" +:+ ", " +:+ padded 2 d +:+ " "
    +:+ List.nth (Z.to_nat (m - 1)) month_names "" +:+ " "
    +:+ (if y <? 0 then "-" else "") +:+ padded 4 y +:+ " " +:+ clock_time t +:+ " GMT".

(** The digits of [s], all of them, as a number. *)
Definition number_of (s : string) : option Z :=
  match s with
  | EmptyString => None
  | _ => if String.length (remove_chars is_digit s) =? 0 then parse_digits 10 None s else None
  end%nat.

Definition civil_time (y m d hh mm ss ms : option Z) : option Z :=
  match y, m, d, hh, mm, ss, ms with
  | Some y, Some m, Some d, Some hh, Some mm, Some ss, Some ms =>
      if (1 <=? m) && (m <=? 12) && (1 <=? d) && (d <=? 31) && (hh <=? 23) && (mm <=? 59)
         && (ss <=? 59)
      then Some ((((days_from_civil y m d * 24 + hh) * 60 + mm) * 60 + ss) * 1000 + ms)
      else None
  | _, _, _, _, _, _, _ => None
  end.

Fixpoint index_of (x : string) (l : list string) (i : Z) : option Z :=
  match l with
  | [] => None
  | y :: rest => if String.eqb x y then Some i else index_of x rest (i + 1)
  end.

Definition part (s : string) (i n : nat) : option Z := number_of (take n (drop i s)).
Definition lit (s : string) (i : nat) (x : string) : bool :=
  String.eqb (take (String.length x) (drop i s)) x.

(** [YYYY-MM-DDTHH:MM:SSZ], with or without milliseconds, and the HTTP date
    [Www, DD Mon YYYY HH:MM:SS GMT]. *)
Definition parse_date (s : string) : option Z :=
  let n := String.length s in
  if (Nat.eqb n 20 || Nat.eqb n 24)
     && lit s 4 "-" && lit s 7 "-" && lit s 10 "T" && lit s 13 ":" && lit s 16 ":"
     && lit s (n - 1) "Z" && (Nat.eqb n 20 || lit s 19 ".")
  then civil_time (part s 0 4) (part s 5 2) (part s 8 2) (part s 11 2) (part s 14 2)
         (part s 17 2) (if Nat.eqb n 20 then Some 0 else part s 20 3)
  else if Nat.eqb n 29 && lit s 3 ", " && lit s 7 " " && lit s 11 " " && lit s 16 " "
          && lit s 19 ":" && lit s 22 ":" && lit s 25 " GMT"
  then civil_time (part s 12 4) (index_of (take 3 (drop 8 s)) month_names 1) (part s 5 2)
         (part s 17 2) (part s 20 2) (part s 23 2) (Some 0)
  else None.

(** The time of day as [en-US] writes it with [hour: 'numeric'] and
    [minute: '2-digit'].  This instance knows the zone UTC only. *)
Definition locale_time (d : Date) (timeZone : JsVal) : option string :=
  match timeZone with
  | JUndefined | JStr "UTC" =>
      match d with
      | None => Some "Invalid Date"
      | Some t =>
          let sod := (t / 1000) mod 86400 in
          let h := sod / 3600 in
          let h12 := if h mod 12 =? 0 then 12 else h mod 12 in
          Some (string_of_Z h12 +:+ ":" +:+ padded 2 (sod mod 3600 / 60)
                  +:+ (if h <? 12 then " AM" else " PM"))
      end
  | _ => None
  end.

(** ** JSON *)

Definition hex_val (a : ascii) : option Z := digit_val 16 a.

(** UTF-8 of a code point of the basic plane. *)
Definition utf8 (c : Z) : string :=
  let ch x := String (ascii_of_nat (Z.to_nat x)) "" in
  if c <? 128 then ch c
  else if c <? 2048 then ch (192 + c / 64) +:+ ch (128 + c mod 64)
  else ch (224 + c / 4096) +:+ ch (128 + c / 64 mod 64) +:+ ch (128 + c mod 64).

Definition unescape (e : ascii) : option ascii :=
  (if Ascii.eqb e "034" then Some "034"
   else if Ascii.eqb e "\" then Some "\"
   else if Ascii.eqb e "/" then Some "/"
   else if Ascii.eqb e "b" then Some "008"
   else if Ascii.eqb e "f" then Some "012"
   else if Ascii.eqb e "n" then Some "010"
   else if Ascii.eqb e "r" then Some "013"
   else if Ascii.eqb e "t" then Some "009"
   else None)%char.

(** The characters of a string literal after its opening quote: the text,
    and what follows the closing quote. *)
Fixpoint parse_chars (s : string) : option (string * string) :=
  match s with
  | EmptyString => None
  | String a rest =>
      if Ascii.eqb a "034" then Some ("", rest)
      else if Ascii.eqb a "\" then
        match rest with
        | EmptyString => None
        | String e rest' =>
            if Ascii.eqb e "u" then
              match rest' with
              | String a (String b (String c (String d rest''))) =>
                  match hex_val a, hex_val b, hex_val c, hex_val d, parse_chars rest'' with
                  | Some a, Some b, Some c, Some d, Some (t, r) =>
                      Some (utf8 (((a * 16 + b) * 16 + c) * 16 + d) +:+ t, r)
                  | _, _, _, _, _ => None
                  end
              | _ => None
              end
            else
              match unescape e, parse_chars rest' with
              | Some x, Some (t, r) => Some (String x t, r)
              | _, _ => None
              end
        end
      else if (nat_of_ascii a <? 32)%nat then None
      else match parse_chars rest with
           | Some (t, r) => Some (String a t, r)
           | None => None
           end
  end.

Fixpoint span_digits (s : string) : string * string :=
  match s with
  | String a rest =>
      if is_digit a then let '(d, r) := span_digits rest in (String a d, r) else ("", s)
  | EmptyString => ("", s)
  end.

(** An integer literal; a fraction or an exponent is outside [JsVal]. *)
Definition parse_number (s : string) : option (JsVal * string) :=
  let neg := starts_with eq_exact "-" s in
  let '(d, r) := span_digits (if neg then drop 1 s else s) in
  let leading_zero := starts_with eq_exact "0" d && (1 <? String.length d)%nat in
  let more := match r with String a _ => Ascii.eqb a "." || Ascii.eqb a "e" || Ascii.eqb a "E"
                         | EmptyString => false end in
  match parse_digits 10 None d with
  | Some n => if leading_zero || more then None
              else Some (JNum (if neg : bool then - n else n), r)
  | None => None
  end.

Definition parse_scalar (s : string) : option (JsVal * string) :=
  match s with
  | String a rest =>
      if Ascii.eqb a "034" then
        match parse_chars rest with Some (t, r) => Some (JStr t, r) | None => None end
      else if starts_with eq_exact "null" s then Some (JNull, drop 4 s)
      else if starts_with eq_exact "true" s then Some (JBool true, drop 4 s)
      else if starts_with eq_exact "false" s then Some (JBool false, drop 5 s)
      else parse_number s
  | EmptyString => None
  end.

(** JSON white space: space, tab, line feed, carriage return. *)
Fixpoint skip_space (s : string) : string :=
  match s with
  | String a rest =>
      let n := nat_of_ascii a in
      if ((n =? 32) || (n =? 9) || (n =? 10) || (n =? 13))%nat then skip_space rest else s
  | EmptyString => s
  end.

(** The members of an object after its opening brace or after a comma. *)
Fixpoint parse_members (fuel : nat) (s : string) (acc : gmap string JsVal)
  : option (gmap string JsVal * string) :=
  match fuel with
  | O => None
  | S k =>
      match skip_space s with
      | String q rest =>
          match (if Ascii.eqb q "034" then parse_chars rest else None) with
          | Some (key, r) =>
              match skip_space r with
              | String c r =>
                  match (if Ascii.eqb c ":" then parse_scalar (skip_space r) else None) with
                  | Some (v, r) =>
                      let acc := <[key := v]> acc in
                      match skip_space r with
                      | String x r =>
                          if Ascii.eqb x "," then parse_members k r acc
                          else if Ascii.eqb x "}" then Some (acc, r)
                          else None
                      | EmptyString => None
                      end
                  | None => None
                  end
              | EmptyString => None
              end
          | None => None
          end
      | EmptyString => None
      end
  end.

Definition parse_json (s : string) : option Json :=
  let done (r : string) := String.eqb (skip_space r) "" in
  let s := skip_space s in
  if starts_with eq_exact "{" s then
    let rest := drop 1 s in
    if starts_with eq_exact "}" (skip_space rest) then
      if done (drop 1 (skip_space rest)) then Some (JObject ∅) else None
    else
      match parse_members (String.length rest) rest ∅ with
      | Some (o, r) => if done r then Some (JObject o) else None
      | None => None
      end
  else
    match parse_scalar s with
    | Some (v, r) => if done r then Some (JScalar v) else None
    | None => None
    end.

Definition hex2 (n : nat) : string :=
  String (hex_digit (Z.of_nat n / 16)) (String (hex_digit (Z.of_nat n mod 16)) "").

Fixpoint quote_chars (s : string) : string :=
  match s with
  | EmptyString => EmptyString
  | String a rest =>
      let n := nat_of_ascii a in
      (if (n =? 34)%nat then "\" +:+ dquote
       else if (n =? 92)%nat then "\\"
       else if (n =? 8)%nat then "\b"
       else if (n =? 12)%nat then "\f"
       else if (n =? 10)%nat then "\n"
       else if (n =? 13)%nat then "\r"
       else if (n =? 9)%nat then "\t"
       else if (n <? 32)%nat then "\u00" +:+ hex2 n
       else String a "") +:+ quote_chars rest
  end.

Definition quote (s : string) : string := dquote +:+ quote_chars s +:+ dquote.

Definition stringify_scalar (v : JsVal) : option string :=
  match v with
  | JUndefined => None
  | JNull => Some "null"
  | JBool b => Some (if b then "true" else "false")
  | JNum n => Some (string_of_Z n)
  | JStr s => Some (quote s)
  end.

(** Members whose value is undefined are left out. *)
Definition stringify_members (l : list (string * JsVal)) : list string :=
  List.flat_map
    (fun kv => match stringify_scalar (snd kv) with
               | Some v => [quote (fst kv) +:+ ":" +:+ v]
               | None => []
               end) l.

Definition join_comma (l : list string) : string :=
  match l with
  | [] => ""
  | x :: rest => fold_left (fun acc y => acc +:+ "," +:+ y) rest x
  end.

Definition stringify (j : Json) : string :=
  match j with
  | JScalar v => default "" (stringify_scalar v)
  | JObject o => "{" +:+ join_comma (stringify_members (map_to_list o)) +:+ "}"
  end.

Definition runtime : Runtime := {|
  Date_parse := parse_date;
  toISOString := iso_string;
  toUTCString := utc_string;
  toLocaleTimeString := locale_time;
  sha256_hex := sha256;
  JSON_parse := parse_json;
  JSON_stringify := stringify
|}.

End Reference.

(** * Sample data

    One team, "Tigers" with identifier 1, its token under the reference
    runtime, and an upstream that serves a given list of events. *)

Module Sample.

Definition env : Env := mkEnv (JStr "client-id") (JStr "s3cret").

Definition item (l : list (string * JsVal)) : Item :=
  mkItem (Some (List.map (fun p => mkField (fst p) (snd p)) l)).

Definition api_doc (l : list Item) : JsonDoc :=
  mkDoc (Some (mkCollection (Some l))) JUndefined JUndefined JUndefined.

Definition success (l : list Item) : FetchResult :=
  Resp (mkHttp 200 "" (Some (Some (api_doc l)))).

Definition tigers : Item := item [("id", JNum 1); ("name", JStr "Tigers")].

(** Another team of the same name. *)
Definition tigers_b : Item := item [("id", JNum 2); ("name", JStr "Tigers")].

(** The API serves the team and its events and knows no location; the token
    endpoint cannot be reached. *)
Definition upstream (events : list Item) (log : list Call) (c : Call) : FetchResult :=
  match c with
  | ApiGet url _ =>
      if String.eqb url (TEAMSNAP_API_URL +:+ "/teams/1") then success [tigers]
      else if String.eqb url (TEAMSNAP_API_URL +:+ "/events/search?team_id=1")
      then success events
      else Resp (mkHttp 404 "Not Found" None)
  | TokenPost _ _ _ => NetFail
  end.

(** The clock starts at 2024-01-01T00:00:00Z and advances a millisecond
    with every read. *)
Definition world (events : list Item) : World :=
  mkWorld (upstream events) (fun n => 1704067200000 + Z.of_nat n).

Definition token : string :=
  generateCalendarToken Reference.runtime env (JNum 1) "all" (JStr "Tigers").

Definition games_token : string :=
  generateCalendarToken Reference.runtime env (JNum 1) "games" (JStr "Tigers").

Definition mapping : string :=
  Reference.stringify (JObject (mapping_object (JNum 1) "all")).

(** A store with the mapping of the token, an access token, and more. *)
Definition store (more : list (string * string)) : gmap string string :=
  list_to_map ([(token_key token, mapping); ("oauth_access_token", "at")] ++ more)%list.

Definition state (more : list (string * string)) : State := mkState (store more) [] 0.

(** The events of the filter scenario. *)
Definition event_A : Item := item [("game_type", JStr "Game"); ("opponent_name", JStr "X")].
Definition event_B : Item := item [("is_game", JBool false)].
Definition event_C : Item := item [("is_canceled", JBool true)].

(** A request without query parameters and conditional headers. *)
Definition plain : Request := mkRequest None None None None None.

End Sample.

(** * Sample data of the routes

    A signed-in user with one team, an upstream that serves them and a
    token endpoint that grants, to run the routes on concrete requests. *)

Module Portal.

(** [JSON.stringify] on the answers of the API: members and elements in
    order, a member whose value is undefined left out. *)
Fixpoint stringify_tree (t : JsonTree) : option string :=
  match t with
  | Leaf v => Reference.stringify_scalar v
  | Arr elements =>
      Some ("[" +:+ Reference.join_comma
                      (List.map (fun e => default "null" (stringify_tree e)) elements)
                +:+ "]")
  | Obj members =>
      Some ("{" +:+ Reference.join_comma
                      (List.flat_map
                         (fun m => match stringify_tree (snd m) with
                                   | Some v => [Reference.quote (fst m) +:+ ":" +:+ v]
                                   | None => []
                                   end) members)
                +:+ "}")
  end.

Definition stringify (t : JsonTree) : string := default "" (stringify_tree t).

Definition user : Item := Sample.item [("id", JNum 7); ("email", JStr "coach@example.com")].

Definition allowed : JsVal := JStr "coach@example.com".

(** A token response without a lifetime and without a refresh token. *)
Definition grant : JsonDoc := mkDoc None (JStr "at2") JUndefined JUndefined.

(** The API serves the user, the teams of the user and team 1; the token
    endpoint grants. *)
Definition upstream (log : list Call) (c : Call) : FetchResult :=
  match c with
  | ApiGet url _ =>
      if String.eqb url (TEAMSNAP_API_URL +:+ "/me") then Sample.success [user]
      else if String.eqb url (TEAMSNAP_API_URL +:+ "/teams/active?user_id=7")
      then Sample.success [Sample.tigers]
      else if String.eqb url (TEAMSNAP_API_URL +:+ "/teams/1")
      then Sample.success [Sample.tigers]
      else Resp (mkHttp 404 "Not Found" None)
  | TokenPost _ _ _ => Resp (mkHttp 200 "" (Some (Some grant)))
  end.

Definition world : World := mkWorld upstream (fun n => 1704067200000 + Z.of_nat n).

(** A store with an access token, and more. *)
Definition state (more : list (string * string)) : State :=
  mkState (list_to_map (("oauth_access_token", "at") :: more)) [] 0.

(** A GET of a path, and a POST of a body to a path. *)
Definition get (path : string) (teamId : option string) : ApiRequest :=
  mkApiRequest "GET" "https://calsnap.example" path teamId None Sample.plain.

Definition post (path : string) (body : Json) : ApiRequest :=
  mkApiRequest "POST" "https://calsnap.example" path None (Some body) Sample.plain.

(** The settings a client posts for team 1. *)
Definition settings : Json :=
  JObject (list_to_map [("teamId", JNum 1); ("customName", JStr "Cats");
                        ("removeOpponentNames", JBool true)]).

End Portal.

(** * Properties *)

(** ** Reasoning about the effects *)

(** Closed goals are settled by running the model. *)
Ltac run_model := vm_compute; reflexivity.
Ltac distinct := let H := fresh in intros H; vm_compute in H; discriminate H.

Lemma bind_Ok {A B} (m : M A) (k : A -> M B) st a st' :
  m st = (Ok a, st') -> bind m k st = k a st'.
Proof. intros H. unfold bind. now rewrite H. Qed.

Lemma bind_Throw {A B} (m : M A) (k : A -> M B) st e st' :
  m st = (Throw e, st') -> bind m k st = (Throw e, st').
Proof. intros H. unfold bind. now rewrite H. Qed.

Lemma try_catch_Ok {A} (m : M A) h st a st' :
  m st = (Ok a, st') -> try_catch m h st = (Ok a, st').
Proof. intros H. unfold try_catch. now rewrite H. Qed.

Lemma try_catch_Throw {A} (m : M A) h st e st' :
  m st = (Throw e, st') -> try_catch m h st = h e st'.
Proof. intros H. unfold try_catch. now rewrite H. Qed.

(** ** Event filter *)

Section FilterScenario.
Variables A B C : Item.
Hypothesis A_game_type : find_value A "game_type" = JStr "Game".
Hypothesis A_opponent : find_value A "opponent_name" = JStr "X".
Hypothesis A_live : truthy (find_value A "is_canceled") = false.
Hypothesis B_no_game_type : find_value B "game_type" = JUndefined.
Hypothesis B_no_opponent : find_value B "opponent_name" = JUndefined.
Hypothesis B_live : truthy (find_value B "is_canceled") = false.
Hypothesis C_cancelled : truthy (find_value C "is_canceled") = true.

Lemma drop_cancelled_ABC : drop_cancelled [A; B; C] = [A; B].
Proof.
  unfold drop_cancelled. simpl.
  now rewrite A_live, B_live, C_cancelled.
Qed.

(** C5: of a game A (game_type "Game", opponent "X"), a non-game B (no
    game_type, no opponent) and a cancelled event C, the filter "games"
    keeps exactly A and the filter "all" exactly A and B; C is dropped under
    both. *)
Theorem filter_scenario :
  apply_filter (JStr "games") (drop_cancelled [A; B; C]) = [A]
  /\ apply_filter (JStr "all") (drop_cancelled [A; B; C]) = [A; B]
  /\ ~ In C [A; B].
Proof.
  rewrite drop_cancelled_ABC. repeat split.
  - unfold apply_filter. simpl.
    now rewrite A_game_type, B_no_game_type, B_no_opponent.
  - intros [HA | [HB | []]].
    + rewrite <- HA in C_cancelled. congruence.
    + rewrite <- HB in C_cancelled. congruence.
Qed.

End FilterScenario.

(** The three events of the scenario. *)
Lemma filter_scenario_witness :
  apply_filter (JStr "games") (drop_cancelled [Sample.event_A; Sample.event_B; Sample.event_C])
  = [Sample.event_A]
  /\ apply_filter (JStr "all") (drop_cancelled [Sample.event_A; Sample.event_B; Sample.event_C])
     = [Sample.event_A; Sample.event_B]
  /\ ~ In Sample.event_C [Sample.event_A; Sample.event_B].
Proof.
  apply (filter_scenario Sample.event_A Sample.event_B Sample.event_C); reflexivity.
Defined.

(** ** OAuth token refresh *)

(** C8: when the token endpoint answers with a non-success response or the
    request fails, [refreshAccessToken] returns null and the store is the one
    it started with: access token, refresh token and expiry are untouched. *)
Theorem refresh_failure_keeps_store (w : World) (env : Env) (st : State) :
  refresh_fails w env st ->
  exists st', refreshAccessToken w env st = (Ok None, st') /\ kv st' = kv st.
Proof.
  intros Hfail. unfold refreshAccessToken, bind, kv_get.
  destruct (truthy (of_kv (kv st !! "oauth_refresh_token"))) eqn:Htok; simpl.
  - unfold try_catch, bind, fetch, refresh_fails, refresh_call in *. simpl.
    destruct Hfail as [Hnet | (r & Hnet & Hok)]; rewrite Hnet; simpl.
    + eexists; split; [reflexivity | reflexivity].
    + rewrite Hok. simpl. eexists; split; reflexivity.
  - eexists; split; reflexivity.
Qed.

(** The token endpoint cannot be reached; the three OAuth keys stay. *)
Lemma refresh_failure_keeps_store_witness :
  let st := Sample.state [("oauth_refresh_token", "r1"); ("oauth_expires_at", "1700000000000")] in
  refresh_fails (Sample.world []) Sample.env st
  /\ exists st',
       refreshAccessToken (Sample.world []) Sample.env st = (Ok None, st') /\ kv st' = kv st.
Proof.
  assert (H : refresh_fails (Sample.world []) Sample.env
                (Sample.state [("oauth_refresh_token", "r1");
                               ("oauth_expires_at", "1700000000000")])).
  { left. run_model. }
  split; [exact H|].
  exact (refresh_failure_keeps_store (Sample.world []) Sample.env _ H).
Defined.

(** ** Feed cache and conditional responses *)

Lemma truthy_JStr s : s <> "" -> truthy (JStr s) = true.
Proof.
  intros H. simpl. destruct (String.eqb_spec s ""); [contradiction | reflexivity].
Qed.

Lemma param_is_false p lit : p <> Some lit -> param_is p lit = false.
Proof.
  intros H. destruct p as [v|]; simpl; [|reflexivity].
  destruct (String.eqb_spec v lit); [subst; contradiction | reflexivity].
Qed.

Lemma make_etag_truthy calendarId v : truthy (JStr (make_etag calendarId v)) = true.
Proof. reflexivity. Qed.

Lemma parseCalendarToken_resolves rt st token tokenData :
  resolves rt st token tokenData ->
  parseCalendarToken rt token st = (Ok tokenData, st).
Proof.
  intros (mapping & Hkv & Hne & Hparse & _).
  unfold parseCalendarToken, bind, kv_get. rewrite Hkv. cbn [of_kv].
  rewrite (truthy_JStr _ Hne). cbn [ToString]. now rewrite Hparse.
Qed.

Lemma conditional_response_current rt request calendarId ics lastUpdate :
  ics <> "" -> lastUpdate <> "" ->
  copy_is_current rt request calendarId lastUpdate ->
  exists headers,
    conditional_response rt calendarId (of_kv (h_if_modified_since request))
      (of_kv (h_if_none_match request)) (JStr ics) (JStr lastUpdate)
    = Some (mkResponse 304 None headers).
Proof.
  intros Hics Hlu Hcur. unfold conditional_response.
  rewrite (truthy_JStr _ Hics), (truthy_JStr _ Hlu). cbn [andb ToString].
  destruct Hcur as [(since & t & wm & Hh & Hne & Hparse & Hint & Hclip & Hle) | Hetag].
  - rewrite Hh. cbn [of_kv]. rewrite (truthy_JStr _ Hne). cbn [new_Date].
    rewrite Hparse, Hint. cbn [Date_of_number]. rewrite Hclip. cbn [num_le andb].
    destruct (Z.leb_spec wm t); [|lia]. eexists; reflexivity.
  - destruct (truthy (of_kv (h_if_modified_since request))
              && num_le (Date_of_number (parseInt lastUpdate))
                   (new_Date rt (of_kv (h_if_modified_since request)))).
    + eexists; reflexivity.
    + rewrite Hetag. cbn [of_kv]. rewrite make_etag_truthy.
      cbn [strict_eq_str]. rewrite String.eqb_refl. eexists; reflexivity.
Qed.

(** The sample token resolves to team 1 and the filter "all". *)
Lemma sample_resolves more :
  resolves Reference.runtime (Sample.state more) Sample.token
    (JObject (mapping_object (JNum 1) "all")).
Proof.
  exists Sample.mapping. split; [|split; [|split]].
  - unfold Sample.state, Sample.store. cbn [kv app].
    rewrite list_to_map_cons. apply lookup_insert_eq.
  - distinct.
  - run_model.
  - reflexivity.
Qed.

(** C4: with a cached pair, no bypass flag, and a conditional header that
    shows the client's copy to be current, the answer is 304 without a body,
    and the state is the one before the request: no upstream call was made
    and no store key was written or deleted. *)
Theorem not_modified_without_effects (rt : Runtime) (w : World) (env : Env)
    (request : Request) (calendarId : string) (forceText : bool) (st : State)
    (tokenData : Json) (ics lastUpdate : string) :
  resolves rt st calendarId tokenData ->
  cached_pair st calendarId ics lastUpdate ->
  no_bypass request ->
  copy_is_current rt request calendarId lastUpdate ->
  exists headers,
    serveCalendar rt w env request calendarId forceText st
    = (Ok (mkResponse 304 None headers), st).
Proof.
  intros Hres (Hics & Hics_ne & Hlu & Hlu_ne) (Hoff & Hrefresh) Hcur.
  destruct (conditional_response_current rt request calendarId ics lastUpdate
              Hics_ne Hlu_ne Hcur) as (headers & Hcond).
  exists headers. unfold serveCalendar.
  rewrite (bind_Ok _ _ _ _ _ (parseCalendarToken_resolves _ _ _ _ Hres)).
  destruct Hres as (_ & _ & _ & _ & Htruthy). rewrite Htruthy. cbn [negb].
  rewrite (param_is_false _ _ Hoff), (param_is_false _ _ Hrefresh). cbn [orb].
  unfold bind, kv_get, ret. rewrite Hics, Hlu. cbn [of_kv].
  rewrite Hcond. reflexivity.
Qed.

(** A cached watermark of 1000 and [If-Modified-Since] one second after the
    epoch. *)
Lemma not_modified_without_effects_witness :
  let st := Sample.state [(cacheKey Sample.token, "BEGIN:VCALENDAR");
                          (lastUpdateKey Sample.token, "1000")] in
  let request := mkRequest None None None (Some "Thu, 01 Jan 1970 00:00:01 GMT") None in
  cached_pair st Sample.token "BEGIN:VCALENDAR" "1000"
  /\ no_bypass request
  /\ copy_is_current Reference.runtime request Sample.token "1000"
  /\ exists headers,
       serveCalendar Reference.runtime (Sample.world []) Sample.env request Sample.token false st
       = (Ok (mkResponse 304 None headers), st).
Proof.
  intros st request.
  assert (Hpair : cached_pair st Sample.token "BEGIN:VCALENDAR" "1000").
  { split; [run_model | split; [distinct | split; [run_model | distinct]]]. }
  assert (Hflags : no_bypass request) by (split; discriminate).
  assert (Hcur : copy_is_current Reference.runtime request Sample.token "1000").
  { left. exists "Thu, 01 Jan 1970 00:00:01 GMT", 1000, 1000.
    split; [reflexivity | split; [discriminate | split; [run_model |]]].
    split; [run_model | split; [reflexivity | lia]]. }
  split; [exact Hpair | split; [exact Hflags | split; [exact Hcur |]]].
  exact (not_modified_without_effects Reference.runtime (Sample.world []) Sample.env request
           Sample.token false st _ _ _ (sample_resolves _) Hpair Hflags Hcur).
Defined.

(** C3: with a cached pair and no bypass flag, when the events are fetched
    and their latest update is not after the cached watermark, the answer is
    a 200 with the cached document as its body and with Last-Modified and
    ETag from the cached watermark; the state is the one the fetches left, so
    no document was rendered and nothing was stored. *)
Theorem cached_document_served (rt : Runtime) (w : World) (env : Env)
    (request : Request) (calendarId : string) (forceText : bool) (st st' : State)
    (tokenData : Json) (ics lastUpdate : string) (watermark : Z)
    (actualTeamName : JsVal) (eventsData : option JsonDoc) :
  resolves rt st calendarId tokenData ->
  cached_pair st calendarId ics lastUpdate ->
  no_bypass request ->
  not_conditional rt request calendarId (JStr ics) (JStr lastUpdate) ->
  fetch_phase w env (prop tokenData "teamId") st = (Ok (inr (actualTeamName, eventsData)), st') ->
  parseInt lastUpdate = Some watermark ->
  latest_update rt (feed_events (prop tokenData "filterType") eventsData) <= watermark ->
  serveCalendar rt w env request calendarId forceText st
  = (Ok (mkResponse 200 (Some ics)
           [("Content-Type", "text/calendar; charset=utf-8");
            ("Content-Disposition",
             attachment (prop tokenData "teamId") (prop tokenData "filterType"));
            ("Last-Modified", Date_toUTCString rt (TimeClip watermark));
            ("ETag", make_etag calendarId lastUpdate);
            ("Cache-Control", "public, max-age=3600")]),
     st').
Proof.
  intros Hres (Hics & Hics_ne & Hlu & Hlu_ne) (Hoff & Hrefresh) Hcond Hfetch Hint Hle.
  unfold serveCalendar.
  rewrite (bind_Ok _ _ _ _ _ (parseCalendarToken_resolves _ _ _ _ Hres)).
  destruct Hres as (_ & _ & _ & _ & Htruthy). rewrite Htruthy. cbn [negb].
  rewrite (param_is_false _ _ Hoff), (param_is_false _ _ Hrefresh). cbn [orb].
  unfold bind at 1. unfold kv_get at 1. rewrite Hics.
  unfold bind at 1. unfold kv_get at 1. rewrite Hlu.
  unfold bind at 1. unfold ret at 1. cbn [of_kv].
  unfold not_conditional in Hcond. rewrite Hcond.
  rewrite (bind_Ok _ _ _ _ _ Hfetch). unfold serve_events, cache_is_fresh.
  rewrite (truthy_JStr _ Hics_ne), (truthy_JStr _ Hlu_ne). cbn [andb ToString].
  rewrite Hint. unfold feed_events in Hle. cbn [num_le].
  destruct (Z.leb_spec (latest_update rt
              (apply_filter (prop tokenData "filterType")
                 (drop_cancelled (events_of eventsData)))) watermark); [|lia].
  unfold ret, cached_response. cbn [ToString]. rewrite Hint. reflexivity.
Qed.

(** The scenario of the specification: cached watermark 1000, latest
    [updated_at] 900. *)
Lemma cached_document_served_witness :
  let st := Sample.state [(cacheKey Sample.token, "BEGIN:VCALENDAR");
                          (lastUpdateKey Sample.token, "1000")] in
  let events := [Sample.item [("id", JNum 7); ("start_date", JStr "2024-01-01T17:00:00Z");
                              ("updated_at", JStr "1970-01-01T00:00:00.900Z")]] in
  let w := Sample.world events in
  latest_update Reference.runtime (feed_events (JStr "all") (Some (Sample.api_doc events))) = 900
  /\ serveCalendar Reference.runtime w Sample.env Sample.plain Sample.token false st
     = (Ok (mkResponse 200 (Some "BEGIN:VCALENDAR")
              [("Content-Type", "text/calendar; charset=utf-8");
               ("Content-Disposition", attachment (JNum 1) (JStr "all"));
               ("Last-Modified", "Thu, 01 Jan 1970 00:00:01 GMT");
               ("ETag", make_etag Sample.token "1000");
               ("Cache-Control", "public, max-age=3600")]),
        snd (fetch_phase w Sample.env (JNum 1) st)).
Proof.
  intros st events w. split; [run_model|].
  refine (cached_document_served Reference.runtime w Sample.env Sample.plain Sample.token
            false st _ (JObject (mapping_object (JNum 1) "all")) "BEGIN:VCALENDAR" "1000" 1000
            (JStr "Tigers") (Some (Sample.api_doc events)) (sample_resolves _) _ _ _ _ _ _).
  - split; [run_model | split; [distinct | split; [run_model | distinct]]].
  - split; discriminate.
  - run_model.
  - run_model.
  - run_model.
  - vm_compute. discriminate.
Defined.

(** ** Token registry *)

(** C7, as the code has it: a token whose mapping is absent or empty, or
    parses to a falsy value, is answered 400 and nothing else happens; a
    stored mapping that does not parse makes [JSON.parse] throw, and the
    [SyntaxError] leaves [parseCalendarToken] and [serveCalendar] uncaught. *)
Theorem unresolved_token (rt : Runtime) (w : World) (env : Env) (request : Request)
    (token : string) (forceText : bool) (st : State) :
  (kv st !! token_key token = None \/ kv st !! token_key token = Some ""
   \/ (exists mapping tokenData,
         kv st !! token_key token = Some mapping
         /\ JSON_parse rt mapping = Some tokenData /\ truthy_json tokenData = false)
   -> serveCalendar rt w env request token forceText st = (Ok invalid_token, st))
  /\ (forall mapping,
        kv st !! token_key token = Some mapping -> mapping <> "" ->
        JSON_parse rt mapping = None ->
        parseCalendarToken rt token st = (Throw SyntaxError, st)
        /\ serveCalendar rt w env request token forceText st = (Throw SyntaxError, st)).
Proof.
  split.
  - intros [Hnone | [Hempty | (mapping & tokenData & Hkv & Hparse & Hfalsy)]];
      unfold serveCalendar, parseCalendarToken, bind, kv_get.
    + now rewrite Hnone.
    + now rewrite Hempty.
    + rewrite Hkv. cbn [of_kv ToString].
      destruct (truthy (JStr mapping)).
      * rewrite Hparse. unfold ret. now rewrite Hfalsy.
      * reflexivity.
  - intros mapping Hkv Hne Hparse.
    assert (Hthrow : parseCalendarToken rt token st = (Throw SyntaxError, st)).
    { unfold parseCalendarToken, bind, kv_get. rewrite Hkv. cbn [of_kv ToString].
      rewrite (truthy_JStr _ Hne). now rewrite Hparse. }
    split; [exact Hthrow|].
    unfold serveCalendar. now rewrite (bind_Throw _ _ _ _ _ Hthrow).
Qed.

(** An unknown token. *)
Lemma unresolved_token_witness :
  serveCalendar Reference.runtime (Sample.world []) Sample.env Sample.plain "0000" false
    (Sample.state [])
  = (Ok invalid_token, Sample.state []).
Proof.
  apply (unresolved_token Reference.runtime (Sample.world []) Sample.env Sample.plain "0000"
           false (Sample.state [])).
  left. run_model.
Defined.

(** C7 fails for a mapping that is stored but is not JSON: the request for
    an unknown token is answered 400, the request for the token with the
    malformed mapping ends in an uncaught [SyntaxError]. *)
Lemma malformed_mapping_throws :
  let st := Sample.state [(token_key "0000", "{bad")] in
  serveCalendar Reference.runtime (Sample.world []) Sample.env Sample.plain "ffff" false st
  = (Ok invalid_token, st)
  /\ serveCalendar Reference.runtime (Sample.world []) Sample.env Sample.plain "0000" false st
     = (Throw SyntaxError, st).
Proof. split; run_model. Qed.

(** ** Issue and resolve *)

Lemma append_inj_l (p a b : string) : p +:+ a = p +:+ b -> a = b.
Proof.
  induction p as [|c p IH]; simpl; intros H; [exact H|].
  injection H as H. exact (IH H).
Qed.

Lemma token_key_inj a b : token_key a = token_key b -> a = b.
Proof. apply append_inj_l. Qed.

Lemma mapping_object_teamId teamId filterType :
  obj_prop (mapping_object teamId filterType) "teamId" = teamId.
Proof.
  unfold obj_prop, mapping_object.
  rewrite lookup_insert_ne by discriminate. now rewrite lookup_insert_eq.
Qed.

Lemma mapping_object_filterType teamId filterType :
  obj_prop (mapping_object teamId filterType) "filterType" = JStr filterType.
Proof. unfold obj_prop, mapping_object. now rewrite lookup_insert_eq. Qed.

(** A stored mapping that round-trips resolves to its pair. *)
Lemma resolve_stored rt st token teamId filterType :
  JSON_round_trip rt (mapping_object teamId filterType) ->
  kv st !! token_key token
  = Some (JSON_stringify rt (JObject (mapping_object teamId filterType))) ->
  exists j,
    parseCalendarToken rt token st = (Ok j, st)
    /\ truthy_json j = true
    /\ prop j "teamId" = teamId /\ prop j "filterType" = JStr filterType.
Proof.
  intros (Hne & j & Hparse & Htruthy & Hprops) Hkv.
  exists j. split; [|split; [exact Htruthy|]].
  - apply parseCalendarToken_resolves. eexists. eauto.
  - now rewrite !Hprops, mapping_object_teamId, mapping_object_filterType.
Qed.

(** The state after the callback of [handleTeamsApi] has run for a team. *)
Lemma teamWithCalendars_stores rt env team fs st teamId teamName :
  data team = Some fs ->
  obj_prop (object_of fs) "id" = teamId ->
  obj_prop (object_of fs) "name" = teamName ->
  exists tc,
    teamWithCalendars rt env team st
    = (Ok tc,
       mkState
         (<[token_key (generateCalendarToken rt env teamId "games" teamName)
            := JSON_stringify rt (JObject (mapping_object teamId "games"))]>
            (<[token_key (generateCalendarToken rt env teamId "all" teamName)
               := JSON_stringify rt (JObject (mapping_object teamId "all"))]>
               (kv st)))
         (calls st) (ticks st))
    /\ tc_all tc = generateCalendarToken rt env teamId "all" teamName
    /\ tc_games tc = generateCalendarToken rt env teamId "games" teamName.
Proof.
  intros Hdata <- <-.
  unfold teamWithCalendars. rewrite Hdata.
  unfold bind, kv_get, kv_put, ret. cbn [valid_ttl]. cbn [kv calls ticks Z.leb].
  eexists. split; [reflexivity | split; reflexivity].
Qed.

(** C2, as the code has it: the token is a digest of the team name, the
    filter type and the secret, not of the team identifier.  After the
    mappings of a team are stored, each of its two tokens resolves to the
    team's identifier and the token's filter type, in every later state in
    which the mapping of that token is still the one stored: an explicit
    delete ends this, and so does issuing for another team of the same
    name, which rewrites the mapping. *)
Theorem issue_then_resolve (rt : Runtime) (env : Env) (team : Item) (fs : list Field)
    (st : State) (teamId teamName : JsVal) :
  data team = Some fs ->
  obj_prop (object_of fs) "id" = teamId ->
  obj_prop (object_of fs) "name" = teamName ->
  JSON_round_trip rt (mapping_object teamId "all") ->
  JSON_round_trip rt (mapping_object teamId "games") ->
  generateCalendarToken rt env teamId "all" teamName
  <> generateCalendarToken rt env teamId "games" teamName ->
  exists tc st1,
    teamWithCalendars rt env team st = (Ok tc, st1)
    /\ tc_all tc = generateCalendarToken rt env teamId "all" teamName
    /\ tc_games tc = generateCalendarToken rt env teamId "games" teamName
    /\ forall st2 filterType,
         filterType = "all" \/ filterType = "games" ->
         let token := generateCalendarToken rt env teamId filterType teamName in
         kv st2 !! token_key token = kv st1 !! token_key token ->
         exists j,
           parseCalendarToken rt token st2 = (Ok j, st2)
           /\ truthy_json j = true
           /\ prop j "teamId" = teamId /\ prop j "filterType" = JStr filterType.
Proof.
  intros Hdata Hid Hname Hall Hgames Hdistinct.
  destruct (teamWithCalendars_stores rt env team fs st teamId teamName Hdata Hid Hname)
    as (tc & Hrun & Htc_all & Htc_games).
  eexists tc, _. split; [exact Hrun|]. split; [exact Htc_all|]. split; [exact Htc_games|].
  intros st2 filterType [-> | ->] token Hsame; subst token.
  - apply resolve_stored; [exact Hall|].
    rewrite Hsame. cbn [kv].
    rewrite lookup_insert_ne, lookup_insert_eq; [reflexivity|].
    intros H. apply token_key_inj in H. apply Hdistinct. symmetry. exact H.
  - apply resolve_stored; [exact Hgames|].
    rewrite Hsame. cbn [kv]. now rewrite lookup_insert_eq.
Qed.

Lemma reference_round_trip filterType :
  filterType = "all" \/ filterType = "games" ->
  JSON_round_trip Reference.runtime (mapping_object (JNum 1) filterType).
Proof.
  intros [-> | ->].
  - split; [distinct|]. exists (JObject (mapping_object (JNum 1) "all")).
    split; [run_model | split; reflexivity].
  - split; [distinct|]. exists (JObject (mapping_object (JNum 1) "games")).
    split; [run_model | split; reflexivity].
Qed.

(** The team "Tigers" under the reference runtime. *)
Lemma issue_then_resolve_witness :
  generateCalendarToken Reference.runtime Sample.env (JNum 1) "all" (JStr "Tigers")
  <> generateCalendarToken Reference.runtime Sample.env (JNum 1) "games" (JStr "Tigers")
  /\ exists tc st1,
       teamWithCalendars Reference.runtime Sample.env Sample.tigers (mkState ∅ [] 0)
       = (Ok tc, st1)
       /\ tc_all tc
          = generateCalendarToken Reference.runtime Sample.env (JNum 1) "all" (JStr "Tigers")
       /\ tc_games tc
          = generateCalendarToken Reference.runtime Sample.env (JNum 1) "games" (JStr "Tigers")
       /\ forall st2 filterType,
            filterType = "all" \/ filterType = "games" ->
            let token :=
              generateCalendarToken Reference.runtime Sample.env (JNum 1) filterType
                (JStr "Tigers") in
            kv st2 !! token_key token = kv st1 !! token_key token ->
            exists j,
              parseCalendarToken Reference.runtime token st2 = (Ok j, st2)
              /\ truthy_json j = true
              /\ prop j "teamId" = JNum 1 /\ prop j "filterType" = JStr filterType.
Proof.
  assert (Hdistinct :
            generateCalendarToken Reference.runtime Sample.env (JNum 1) "all" (JStr "Tigers")
            <> generateCalendarToken Reference.runtime Sample.env (JNum 1) "games"
                 (JStr "Tigers")) by distinct.
  split; [exact Hdistinct|].
  apply (issue_then_resolve Reference.runtime Sample.env Sample.tigers
           [mkField "id" (JNum 1); mkField "name" (JStr "Tigers")]
           (mkState ∅ [] 0) (JNum 1) (JStr "Tigers")).
  - reflexivity.
  - run_model.
  - run_model.
  - apply reference_round_trip. now left.
  - apply reference_round_trip. now right.
  - exact Hdistinct.
Defined.

(** C2 fails when two teams carry the same name: both get the same token,
    and the mapping stored for the second team replaces the one of the
    first; nothing was deleted, yet the token issued for team 1 resolves to
    team 2. *)
Lemma same_name_rewrites_mapping :
  let issue := teamWithCalendars Reference.runtime Sample.env in
  let st1 := snd (issue Sample.tigers (mkState ∅ [] 0)) in
  let st2 := snd (issue Sample.tigers_b st1) in
  fst (issue Sample.tigers (mkState ∅ [] 0))
  = Ok (mkTeamCalendars (JNum 1) (JStr "Tigers") JNull false Sample.token Sample.games_token)
  /\ fst (issue Sample.tigers_b st1)
     = Ok (mkTeamCalendars (JNum 2) (JStr "Tigers") JNull false Sample.token Sample.games_token)
  /\ fst (parseCalendarToken Reference.runtime Sample.token st1)
     = Ok (JObject (mapping_object (JNum 1) "all"))
  /\ fst (parseCalendarToken Reference.runtime Sample.token st2)
     = Ok (JObject (mapping_object (JNum 2) "all")).
Proof.
  split; [run_model | split; [run_model | split; run_model]].
Qed.

(** ** Titles *)

(** C6 does not hold of the feed: for a non-game event with only a
    multi-team title, [serveCalendar] replaces the first occurrence of the
    team name that matches exactly, where [generateEventTitleSync] on the
    same event replaces every occurrence without regard to case. *)
Theorem multi_team_title_first_match_only :
  let eventData :=
    object_of [mkField "is_game" (JBool false);
               mkField "formatted_title_for_multi_team"
                 (JStr "Tigers Practice (tigers vs Tigers)")] in
  let st := Sample.state [("custom_team_name_1", "Cats")] in
  customTitle_of (JNum 1) (JStr "Tigers") eventData st
  = (Ok (JStr "Cats Practice (tigers vs Tigers)"), st)
  /\ generateEventTitleSync eventData (JStr "Cats") (JStr "Tigers") false
     = Ok (JStr "Cats Practice (Cats vs Cats)").
Proof. split; [run_model | run_model]. Qed.

(** What [generateEventTitleSync] does for an event that is not a game in
    its sense and has a multi-team title: every occurrence of the upstream
    name is replaced, without regard to case. *)
Lemma generateEventTitleSync_substitutes (event : gmap string JsVal)
    (title actualTeamName customTeamName : string) (removeOpponentNames : bool) :
  strict_eq_str (obj_prop event "game_type") "Game" = false ->
  truthy (obj_prop event "opponent_name") = false ->
  obj_prop event "formatted_title_for_multi_team" = JStr title ->
  title <> "" -> actualTeamName <> "" -> customTeamName <> "" ->
  generateEventTitleSync event (JStr customTeamName) (JStr actualTeamName) removeOpponentNames
  = Ok (JStr (replace_all_nocase title actualTeamName customTeamName)).
Proof.
  intros Hgame Hopp Htitle Hne Hactual Hcustom.
  unfold generateEventTitleSync. rewrite Hgame, Hopp, Htitle. cbn [orb andb].
  unfold js_or. rewrite (truthy_JStr _ Hne).
  rewrite (truthy_JStr _ Hactual), (truthy_JStr _ Hcustom). reflexivity.
Qed.

(** ** Escaping *)

#[local] Arguments String.append : simpl nomatch.

Lemma append_assoc (a b c : string) : (a +:+ b) +:+ c = a +:+ (b +:+ c).
Proof. induction a as [|x a IH]; simpl; [reflexivity | now rewrite IH]. Qed.

Lemma has_char_append c a b : has_char c (a +:+ b) = has_char c a || has_char c b.
Proof.
  induction a as [|x a IH]; simpl; [reflexivity|]. rewrite IH. now rewrite orb_assoc.
Qed.

Lemma replace_LF_has_no_LF s : has_char LF (replace_char LF esc_n s) = false.
Proof.
  induction s as [|a s IH]; simpl; [reflexivity|].
  destruct (Ascii.eqb a LF) eqn:E; simpl.
  - exact IH.
  - now rewrite E.
Qed.

Lemma replace_comma_well_escaped s escaped :
  has_char LF s = false ->
  well_escaped_from escaped (replace_char comma esc_comma s) = true.
Proof.
  revert escaped. induction s as [|a s IH]; intros escaped H; simpl in *; [reflexivity|].
  apply orb_false_elim in H as [Ha Hs].
  destruct (Ascii.eqb a comma) eqn:E; simpl.
  - now apply IH.
  - rewrite Ha, E. now apply IH.
Qed.

(** The escaping step of [generateEventFromTemplate] leaves no line feed and
    no comma without a backslash before it, whatever the text. *)
Lemma escaping_well_escaped s :
  well_escaped (replace_char comma esc_comma (replace_char LF esc_n s)) = true.
Proof. apply replace_comma_well_escaped, replace_LF_has_no_LF. Qed.

Lemma line_end_here a : exists d', a +:+ esc_n = d' +:+ esc_n.
Proof. now exists a. Qed.

Lemma line_end_later a b :
  (exists d', b = d' +:+ esc_n) -> exists d', a +:+ b = d' +:+ esc_n.
Proof. intros [d' ->]. exists (a +:+ d'). now rewrite append_assoc. Qed.

Ltac split_ifs :=
  repeat match goal with
         | |- context [if ?c then _ else _] => destruct c
         | |- context [match ?x with Some _ => _ | None => _ end] => destruct x eqn:?
         end.

Lemma line_end_base : exists d', esc_n = d' +:+ esc_n.
Proof. now exists "". Qed.

Lemma line_end_cons a b :
  (exists d', b = d' +:+ esc_n) -> exists d', String a b = d' +:+ esc_n.
Proof. intros [d' ->]. now exists (String a d'). Qed.

Ltac line_end :=
  first [ left; reflexivity
        | right;
          repeat first [ apply line_end_here | apply line_end_base
                       | apply line_end_later | apply line_end_cons ] ].

Lemma description_ends_line rt event d :
  generateEventDescription rt event = Ok d -> ends_line d.
Proof.
  unfold generateEventDescription. cbv zeta. intros H. revert H.
  split_ifs; intros H; try discriminate H; injection H as <-; line_end.
Qed.

Lemma description_adds_no_line_feed rt event d :
  generateEventDescription rt event = Ok d ->
  (forall k, has_char LF (ToString (obj_prop event k)) = false) ->
  (forall t timeZone s, toLocaleTimeString rt t timeZone = Some s -> has_char LF s = false) ->
  has_char LF d = false.
Proof.
  unfold generateEventDescription. cbv zeta. intros H Hfields Htime. revert H.
  assert (Hlabel : has_char LF (ToString (js_or (obj_prop event "label") (JStr "TBD"))) = false).
  { unfold js_or. destruct (truthy (obj_prop event "label")); [apply Hfields | reflexivity]. }
  split_ifs; intros H; try discriminate H; injection H as <-;
    repeat match goal with
           | E : toLocaleTimeString _ _ _ = Some _ |- _ => apply Htime in E
           end;
    repeat (progress (simpl; rewrite ?has_char_append, ?Hfields, ?Hlabel));
    repeat match goal with E : has_char LF _ = false |- _ => rewrite ?E; clear E end;
    reflexivity.
Qed.

Lemma bind_inv {A B} (m : M A) (k : A -> M B) st b st' :
  bind m k st = (Ok b, st') ->
  exists a st1, m st = (Ok a, st1) /\ k a st1 = (Ok b, st').
Proof.
  unfold bind. destruct (m st) as [[a|e] st1]; intros H; [|discriminate H].
  now exists a, st1.
Qed.

Lemma lift_inv {A} (r : Result A) st a st' : lift r st = (Ok a, st') -> r = Ok a /\ st' = st.
Proof. unfold lift. intros H. injection H as -> ->. now split. Qed.

Lemma ret_inv {A} (x : A) st a st' : ret x st = (Ok a, st') -> a = x /\ st' = st.
Proof. unfold ret. intros H. injection H as -> ->. now split. Qed.

Lemma append_nil_r (a : string) : a +:+ "" = a.
Proof. induction a as [|x a IH]; simpl; [reflexivity | now rewrite IH]. Qed.

Lemma has_line_here line before : has_line line (before +:+ line).
Proof. exists before, "". now rewrite append_nil_r. Qed.

Lemma has_line_left line x y : has_line line x -> has_line line (x +:+ y).
Proof.
  intros (before & after & ->). exists before, (after +:+ y).
  now rewrite !append_assoc.
Qed.

(** The text that [generateEventFromTemplate] writes after [DESCRIPTION:]
    is the synthesized description with the line feeds and then the commas
    replaced, once. *)
Lemma template_embeds_escaped_description rt w env teamId startDate endDate eventData
    customTitle st block st' :
  generateEventFromTemplate rt w env teamId startDate endDate eventData customTitle st
  = (Ok block, st') ->
  exists d,
    generateEventDescription rt eventData = Ok d
    /\ (let description := replace_char comma esc_comma (replace_char LF esc_n d) in
        description <> "" ->
        has_line ("DESCRIPTION:" +:+ description +:+ CRLF) block).
Proof.
  unfold generateEventFromTemplate. intros H.
  apply bind_inv in H as (d & st1 & Hd & H). apply lift_inv in Hd as [Hd ->].
  exists d. split; [exact Hd|]. intros Hne.
  apply bind_inv in H as (updatedAt & st2 & _ & H).
  apply bind_inv in H as (dtstart & st3 & _ & H).
  apply bind_inv in H as (dtend & st4 & _ & H).
  apply bind_inv in H as (title & st5 & _ & H).
  destruct (String.eqb_spec (replace_char comma esc_comma (replace_char LF esc_n d)) "")
    as [Heq | _]; [contradiction|].
  cbn [negb] in H.
  apply bind_inv in H as (eventBlock & st6 & Hloc & H).
  apply bind_inv in H as (lastmod & st7 & _ & H).
  apply bind_inv in H as (now & st8 & _ & H).
  apply bind_inv in H as (dtstamp & st9 & _ & H).
  apply ret_inv in H as [-> _].
  destruct (truthy (obj_prop eventData "location_name")).
  - apply bind_inv in Hloc as (locationText & st10 & _ & Hloc).
    apply bind_inv in Hloc as (lt & st11 & _ & Hloc).
    apply ret_inv in Hloc as [-> _].
    repeat first [apply has_line_here | apply has_line_left].
  - apply ret_inv in Hloc as [-> _].
    repeat first [apply has_line_here | apply has_line_left].
Qed.

(** C9, as the code has it: [generateEventDescription] ends every line it
    writes with the two characters backslash and n, already escaped; a line
    feed is in its result only where a field value or the localized time has
    one.  [generateEventFromTemplate] then replaces line feeds and commas,
    once, and writes the result after [DESCRIPTION:]; that text holds no
    line feed and no comma without a backslash before it. *)
Theorem description_escaping (rt : Runtime) (event : gmap string JsVal) (d : string) :
  generateEventDescription rt event = Ok d ->
  ends_line d
  /\ ((forall k, has_char LF (ToString (obj_prop event k)) = false) ->
      (forall t timeZone s,
          toLocaleTimeString rt t timeZone = Some s -> has_char LF s = false) ->
      has_char LF d = false)
  /\ well_escaped (replace_char comma esc_comma (replace_char LF esc_n d)) = true
  /\ forall w env teamId startDate endDate customTitle st block st',
       generateEventFromTemplate rt w env teamId startDate endDate event customTitle st
       = (Ok block, st') ->
       replace_char comma esc_comma (replace_char LF esc_n d) <> "" ->
       has_line ("DESCRIPTION:" +:+ replace_char comma esc_comma (replace_char LF esc_n d)
                   +:+ CRLF) block.
Proof.
  intros Hd. split; [|split; [|split]].
  - exact (description_ends_line rt event d Hd).
  - exact (description_adds_no_line_feed rt event d Hd).
  - apply escaping_well_escaped.
  - intros w env teamId startDate endDate customTitle st block st' Hblock Hne.
    destruct (template_embeds_escaped_description _ _ _ _ _ _ _ _ _ _ _ Hblock)
      as (d' & Hd' & Hline).
    rewrite Hd in Hd'. injection Hd' as <-. exact (Hline Hne).
Qed.

(** A uniform with a comma and notes with a line feed. *)
Lemma description_escaping_witness :
  let event :=
    object_of [mkField "uniform" (JStr "White, away");
               mkField "notes" (JStr ("Bring water" +:+ String LF "and skates"))] in
  let d := "Uniform: White, away" +:+ esc_n +:+ esc_n +:+ "Bring water" +:+ String LF "and skates"
             +:+ esc_n in
  generateEventDescription Reference.runtime event = Ok d
  /\ replace_char comma esc_comma (replace_char LF esc_n d)
     = "Uniform: White\, away\n\nBring water\nand skates\n"
  /\ ends_line d
  /\ ((forall k, has_char LF (ToString (obj_prop event k)) = false) ->
      (forall t timeZone s,
          toLocaleTimeString Reference.runtime t timeZone = Some s -> has_char LF s = false) ->
      has_char LF d = false)
  /\ well_escaped (replace_char comma esc_comma (replace_char LF esc_n d)) = true
  /\ forall w env teamId startDate endDate customTitle st block st',
       generateEventFromTemplate Reference.runtime w env teamId startDate endDate event
         customTitle st
       = (Ok block, st') ->
       replace_char comma esc_comma (replace_char LF esc_n d) <> "" ->
       has_line ("DESCRIPTION:" +:+ replace_char comma esc_comma (replace_char LF esc_n d)
                   +:+ CRLF) block.
Proof.
  intros event d.
  assert (Hd : generateEventDescription Reference.runtime event = Ok d) by run_model.
  split; [exact Hd|]. split; [run_model|].
  exact (description_escaping Reference.runtime event d Hd).
Defined.

(** C9 fails where it says that the synthesizer returns literal newlines:
    the description of an event with a uniform ends with the characters
    backslash and n, and holds no line feed. *)
Lemma description_lines_are_pre_escaped :
  generateEventDescription Reference.runtime (object_of [mkField "uniform" (JStr "White")])
  = Ok ("Uniform: White" +:+ String backslash (String "n" ""))
  /\ has_char LF ("Uniform: White" +:+ String backslash (String "n" "")) = false.
Proof. split; run_model. Qed.

(** C1 does not hold of the calendar name and of the titles: the name is
    written after [X-WR-CALNAME:] as it is, so a custom name with a comma
    gives a line with a bare comma; and in a title only the commas are
    replaced, so an opponent name with a line feed breaks the [SUMMARY]
    line.  The description of the same event is escaped. *)
Theorem calendar_name_and_title_not_escaped :
  let events :=
    [Sample.item [("id", JNum 7); ("is_game", JBool true);
                  ("opponent_name", JStr ("Jets" +:+ String LF "B"));
                  ("start_date", JStr "2024-01-01T17:00:00Z");
                  ("updated_at", JStr "2023-12-01T00:00:00Z")]] in
  let st := Sample.state [("custom_team_name_1", "Leafs, U12")] in
  option_map resp_body
    (match fst (serveCalendar Reference.runtime (Sample.world events) Sample.env Sample.plain
                  Sample.token false st) with
     | Ok r => Some r
     | Throw _ => None
     end)
  = Some (Some ("BEGIN:VCALENDAR" +:+ CRLF
                +:+ "VERSION:2.0" +:+ CRLF
                +:+ "PRODID:-//TeamSnap Custom Calendar//TeamSnap Events//EN" +:+ CRLF
                +:+ "CALSCALE:GREGORIAN" +:+ CRLF
                +:+ "METHOD:PUBLISH" +:+ CRLF
                +:+ "X-WR-CALNAME:Leafs, U12" +:+ CRLF
                +:+ "BEGIN:VEVENT" +:+ CRLF
                +:+ "UID:teamsnap-7@teamsnap.com" +:+ CRLF
                +:+ "DTSTART:20240101T170000Z" +:+ CRLF
                +:+ "DTEND:20240101T190000Z" +:+ CRLF
                +:+ "SUMMARY:Leafs\, U12 vs. Jets" +:+ String LF "B" +:+ CRLF
                +:+ "DESCRIPTION:TBD vs. Jets\nB\n" +:+ CRLF
                +:+ "URL:https://go.teamsnap.com/1/schedule/view_event/7" +:+ CRLF
                +:+ "LAST-MODIFIED:20231201T000000Z" +:+ CRLF
                +:+ "DTSTAMP:20240101T000000Z" +:+ CRLF
                +:+ "END:VEVENT" +:+ CRLF
                +:+ "END:VCALENDAR" +:+ CRLF))
  /\ well_escaped "Leafs, U12" = false
  /\ well_escaped ("Leafs\, U12 vs. Jets" +:+ String LF "B") = false.
Proof. split; [run_model | split; reflexivity]. Qed.

(** ** Numbers as strings *)

#[local] Arguments String.append : simpl nomatch.

Lemma string_of_Z_inj a b : string_of_Z a = string_of_Z b -> a = b.
Proof.
  unfold string_of_Z. intros H.
  assert (Hnil : forall n, Z.to_int n <> Decimal.Pos Decimal.Nil
                           /\ Z.to_int n <> Decimal.Neg Decimal.Nil).
  { intros [|p|p]; simpl; split; try discriminate;
      intros E; injection E as E; now apply DecimalPos.Unsigned.to_uint_nonnil in E. }
  apply DecimalZ.to_int_inj.
  assert (E : Some (Z.to_int a) = Some (Z.to_int b)).
  { rewrite <- (NilZero.isi (Z.to_int a)), <- (NilZero.isi (Z.to_int b));
      try apply Hnil. now rewrite H. }
  now injection E.
Qed.

Lemma parse_digits_acc d p :
  parse_digits 10 (Some (Z.pos p)) (NilEmpty.string_of_uint d)
  = Some (Z.pos (Pos.of_uint_acc d p)).
Proof.
  revert p. induction d; intros p; simpl; [reflexivity | ..];
    rewrite <- IHd; do 2 f_equal;
    match goal with
    | |- context [Z.of_nat (nat_of_ascii ?c)] =>
        let v := eval vm_compute in (Z.of_nat (nat_of_ascii c)) in
        change (Z.of_nat (nat_of_ascii c)) with v
    end; lia.
Qed.

Lemma parse_digits_uint d acc :
  d <> Decimal.Nil -> acc = None \/ acc = Some 0 ->
  parse_digits 10 acc (NilEmpty.string_of_uint d) = Some (Z.of_N (Pos.of_uint d)).
Proof.
  revert acc. induction d; intros acc Hd Hacc; [contradiction | ..];
    try (destruct Hacc as [-> | ->]; exact (parse_digits_acc d _)).
  assert (Hnil : d = Decimal.Nil \/ d <> Decimal.Nil)
    by (destruct d; [now left | right; discriminate ..]).
  destruct Hnil as [-> | Hnil]; [destruct Hacc as [-> | ->]; reflexivity|].
  transitivity (parse_digits 10 (Some 0) (NilEmpty.string_of_uint d)).
  - destruct Hacc as [-> | ->]; reflexivity.
  - apply IHd; [exact Hnil | now right].
Qed.

Lemma string_of_Z_pos p : string_of_Z (Z.pos p) = NilEmpty.string_of_uint (Pos.to_uint p).
Proof.
  unfold string_of_Z. simpl. unfold NilZero.string_of_uint.
  destruct (Pos.to_uint p) eqn:E; try reflexivity.
  now apply DecimalPos.Unsigned.to_uint_nonnil in E.
Qed.

Lemma digits_first d :
  d <> Decimal.Nil ->
  let s := NilEmpty.string_of_uint d in
  skip_ws s = s /\ starts_with eq_exact "-" s = false /\ starts_with eq_exact "+" s = false
  /\ starts_with eq_exact "0x" s = false /\ starts_with eq_exact "0X" s = false.
Proof.
  intros Hd. destruct d; [contradiction | ..]; try (repeat split; reflexivity).
  destruct d; repeat split; reflexivity.
Qed.

(** [parseInt] reads back a non-negative number that [toString] wrote. *)
Lemma parseInt_string_of_Z n : 0 <= n -> parseInt (string_of_Z n) = Some n.
Proof.
  intros Hn. destruct n as [|p|p]; [reflexivity | | lia].
  rewrite string_of_Z_pos.
  destruct (digits_first (Pos.to_uint p) (DecimalPos.Unsigned.to_uint_nonnil p))
    as (Hws & Hminus & Hplus & Hx & HX).
  unfold parseInt. cbv zeta. rewrite Hws, Hminus, Hplus. cbn [orb].
  rewrite Hx, HX. cbn [orb].
  rewrite (parse_digits_uint _ None (DecimalPos.Unsigned.to_uint_nonnil p) (or_introl eq_refl)).
  now rewrite DecimalPos.Unsigned.of_to.
Qed.

Lemma length_append (a b : string) :
  String.length (a +:+ b) = (String.length a + String.length b)%nat.
Proof. induction a as [|x a IH]; simpl; [reflexivity | now rewrite IH]. Qed.

Lemma append_inj_r (a b c : string) : a +:+ c = b +:+ c -> a = b.
Proof.
  intros H.
  assert (Hlen : String.length a = String.length b).
  { apply (f_equal String.length) in H. rewrite !length_append in H. lia. }
  revert b H Hlen. induction a as [|x a IH]; intros [|y b] H Hlen;
    try discriminate Hlen; [reflexivity|].
  simpl in H. injection H as -> H. f_equal. apply IH; [exact H|].
  simpl in Hlen. lia.
Qed.

Lemma make_etag_inj calendarId a b : make_etag calendarId a = make_etag calendarId b -> a = b.
Proof.
  unfold make_etag. intros H.
  do 3 apply append_inj_l in H. exact (append_inj_r _ _ _ H).
Qed.

(** ** The store keys a feed request may write *)

Lemma same_but_oauth_refl st : same_but_oauth st st.
Proof. now intros k _ _ _. Qed.

Lemma same_but_oauth_trans st1 st2 st3 :
  same_but_oauth st1 st2 -> same_but_oauth st2 st3 -> same_but_oauth st1 st3.
Proof. intros H12 H23 k H1 H2 H3. now rewrite H23, H12. Qed.

Lemma oauth_only_ret {A} (a : A) : oauth_only (ret a).
Proof. intros st r st' H. injection H as _ <-. apply same_but_oauth_refl. Qed.

Lemma oauth_only_throw {A} e : oauth_only (@throw A e).
Proof. intros st r st' H. injection H as _ <-. apply same_but_oauth_refl. Qed.

Lemma oauth_only_lift {A} (x : Result A) : oauth_only (lift x).
Proof. intros st r st' H. injection H as _ <-. apply same_but_oauth_refl. Qed.

Lemma oauth_only_bind {A B} (m : M A) (k : A -> M B) :
  oauth_only m -> (forall a, oauth_only (k a)) -> oauth_only (bind m k).
Proof.
  intros Hm Hk st r st'. unfold bind.
  destruct (m st) as [[a|e] st1] eqn:E; intros H.
  - exact (same_but_oauth_trans _ _ _ (Hm _ _ _ E) (Hk a _ _ _ H)).
  - injection H as _ <-. exact (Hm _ _ _ E).
Qed.

Lemma oauth_only_try_catch {A} (m : M A) h :
  oauth_only m -> (forall e, oauth_only (h e)) -> oauth_only (try_catch m h).
Proof.
  intros Hm Hh st r st'. unfold try_catch.
  destruct (m st) as [[a|e] st1] eqn:E; intros H.
  - injection H as _ <-. exact (Hm _ _ _ E).
  - exact (same_but_oauth_trans _ _ _ (Hm _ _ _ E) (Hh e _ _ _ H)).
Qed.

Lemma oauth_only_kv_get k : oauth_only (kv_get k).
Proof. intros st r st' H. injection H as _ <-. apply same_but_oauth_refl. Qed.

Lemma oauth_only_fetch w c : oauth_only (fetch w c).
Proof.
  intros st r st'. unfold fetch. destruct (net w (calls st) c); intros H;
    injection H as _ <-; now intros k _ _ _.
Qed.

Lemma oauth_only_Date_now w : oauth_only (Date_now w).
Proof. intros st r st' H. injection H as _ <-. now intros k _ _ _. Qed.

Lemma oauth_only_response_json r : oauth_only (response_json r).
Proof.
  unfold response_json. destruct (json r); [apply oauth_only_ret | apply oauth_only_throw].
Qed.

Lemma oauth_only_kv_put k v ttl :
  k = "oauth_access_token" \/ k = "oauth_refresh_token" \/ k = "oauth_expires_at" ->
  oauth_only (kv_put k v ttl).
Proof.
  intros Hk st r st'. unfold kv_put.
  destruct v; try (intros H; injection H as _ <-; apply same_but_oauth_refl).
  destruct (valid_ttl ttl); intros H; injection H as _ <-; [|apply same_but_oauth_refl].
  intros k' H1 H2 H3. cbn [kv]. apply lookup_insert_ne.
  destruct Hk as [-> | [-> | ->]]; congruence.
Qed.

Ltac oauth_step :=
  first [ match goal with H : context [oauth_only] |- _ => apply H end
        | apply oauth_only_ret | apply oauth_only_throw | apply oauth_only_lift
        | apply oauth_only_kv_get | apply oauth_only_fetch | apply oauth_only_Date_now
        | apply oauth_only_response_json
        | apply oauth_only_kv_put; tauto
        | apply oauth_only_bind; [|intros ?]
        | apply oauth_only_try_catch; [|intros ?]
        | match goal with
          | |- oauth_only (if ?c then _ else _) => destruct c
          | |- oauth_only (match ?x with _ => _ end) => destruct x
          end
        ].

Lemma oauth_only_refreshAccessToken w env : oauth_only (refreshAccessToken w env).
Proof. unfold refreshAccessToken. repeat oauth_step. Qed.

Lemma oauth_only_fetchTeamSnapData w env endpoint :
  oauth_only (fetchTeamSnapData w env endpoint).
Proof.
  pose proof (oauth_only_refreshAccessToken w env).
  unfold fetchTeamSnapData. repeat oauth_step.
Qed.

Lemma oauth_only_fetch_phase w env teamId : oauth_only (fetch_phase w env teamId).
Proof.
  pose proof (oauth_only_refreshAccessToken w env).
  pose proof (oauth_only_fetchTeamSnapData w env).
  unfold fetch_phase, feed_access_token, fetch_team_name, fetch_team_events.
  repeat oauth_step.
Qed.

Lemma oauth_only_generateEventFromTemplate rt w env teamId startDate endDate eventData title :
  oauth_only (generateEventFromTemplate rt w env teamId startDate endDate eventData title).
Proof.
  pose proof (oauth_only_fetchTeamSnapData w env).
  unfold generateEventFromTemplate, locationText_of. repeat oauth_step.
Qed.

Lemma oauth_only_customTitle_of teamId actualTeamName eventData :
  oauth_only (customTitle_of teamId actualTeamName eventData).
Proof. unfold customTitle_of, generateEventTitle. repeat oauth_step. Qed.

Lemma oauth_only_render_events rt w env teamId actualTeamName events icsContent :
  oauth_only (render_events rt w env teamId actualTeamName events icsContent).
Proof.
  revert icsContent. induction events as [|event rest IH]; intros icsContent; simpl.
  - apply oauth_only_ret.
  - pose proof (oauth_only_generateEventFromTemplate rt w env teamId).
    pose proof (oauth_only_customTitle_of teamId actualTeamName).
    repeat oauth_step.
Qed.

Lemma oauth_only_render rt w env teamId actualTeamName events :
  oauth_only (render rt w env teamId actualTeamName events).
Proof.
  pose proof (oauth_only_render_events rt w env teamId actualTeamName events).
  unfold render. repeat oauth_step.
Qed.

Lemma cache_keys_not_oauth calendarId k :
  k = cacheKey calendarId \/ k = lastUpdateKey calendarId ->
  k <> "oauth_access_token" /\ k <> "oauth_refresh_token" /\ k <> "oauth_expires_at".
Proof.
  intros [-> | ->]; unfold lastUpdateKey, cacheKey; repeat split; discriminate.
Qed.

(** ** The statuses of a feed response *)

Lemma returns_ret {A} (P : A -> Prop) a : P a -> returns P (ret a).
Proof. intros H st x st' E. now injection E as <- _. Qed.

Lemma returns_throw {A} (P : A -> Prop) e : returns P (throw e).
Proof. intros st x st' E. discriminate E. Qed.

Lemma returns_bind {A B} (P : B -> Prop) (m : M A) (k : A -> M B) :
  (forall a, returns P (k a)) -> returns P (bind m k).
Proof.
  intros Hk st b st' E. apply bind_inv in E as (a & st1 & _ & E). exact (Hk a _ _ _ E).
Qed.

Lemma returns_try_catch {A} (P : A -> Prop) (m : M A) h :
  returns P m -> (forall e, returns P (h e)) -> returns P (try_catch m h).
Proof.
  intros Hm Hh st a st'. unfold try_catch.
  destruct (m st) as [[x|e] st1] eqn:E; intros H.
  - injection H as <- _. exact (Hm _ _ _ E).
  - exact (Hh e _ _ _ H).
Qed.

Ltac returns_step :=
  first [ apply returns_throw
        | apply returns_ret; cbn; try discriminate; try tauto
        | apply returns_bind; intros ?
        | apply returns_try_catch; [|intros ?]
        | match goal with
          | |- returns _ (if ?c then _ else _) => destruct c
          | |- returns _ (match ?x with _ => _ end) => destruct x
          end ].

Lemma returns_bind_post {A B} (Q : A -> Prop) (P : B -> Prop) (m : M A) (k : A -> M B) :
  returns Q m -> (forall a, Q a -> returns P (k a)) -> returns P (bind m k).
Proof.
  intros Hm Hk st b st' E. apply bind_inv in E as (a & st1 & Ha & E).
  exact (Hk a (Hm _ _ _ Ha) _ _ _ E).
Qed.

Lemma fetch_team_events_failure w teamId accessToken :
  returns (fun x => match x with inl r => resp_status r <> 304 | inr _ => True end)
    (fetch_team_events w teamId accessToken).
Proof. unfold fetch_team_events. repeat returns_step. Qed.

Lemma fetch_phase_failure w env teamId :
  returns (fun x => match x with inl r => resp_status r <> 304 | inr _ => True end)
    (fetch_phase w env teamId).
Proof.
  unfold fetch_phase. apply returns_bind. intros [accessToken|]; [|repeat returns_step].
  apply returns_bind. intros actualTeamName.
  apply (returns_bind_post _ _ _ _ (fetch_team_events_failure w teamId accessToken)).
  intros [failure | eventsData] H; repeat returns_step.
Qed.

Lemma serve_events_status rt w env request calendarId forceText teamId filterType cachedIcs
    cachedLastUpdate actualTeamName eventsData :
  returns (fun r => resp_status r <> 304)
    (serve_events rt w env request calendarId forceText teamId filterType cachedIcs
       cachedLastUpdate actualTeamName eventsData).
Proof. unfold serve_events, render_and_respond. repeat returns_step. Qed.

Lemma parseCalendarToken_keeps_state rt token st r st' :
  parseCalendarToken rt token st = (r, st') -> st' = st.
Proof.
  unfold parseCalendarToken, bind, kv_get.
  destruct (truthy (of_kv (kv st !! token_key token))).
  - destruct (JSON_parse rt _); intros H; now injection H as _ <-.
  - intros H. now injection H as _ <-.
Qed.

Lemma read_cache_spec request st key :
  (if param_is (q_cache request) "off" || param_is (q_refresh request) "true"
   then ret JNull else kv_get key) st
  = (Ok (read_cache request st key), st).
Proof. unfold read_cache, bypass. now destruct (_ || _). Qed.

Lemma refresh_spec request calendarId st :
  (if param_is (q_refresh request) "true"
   then bind (kv_delete (cacheKey calendarId)) (fun _ => kv_delete (lastUpdateKey calendarId))
   else ret tt) st
  = (Ok tt, after_refresh request calendarId st).
Proof. unfold after_refresh. now destruct (param_is _ _). Qed.

(** [serveCalendar] past the token: the cached pair is read, the conditional
    request answered, or the events fetched and served. *)
Lemma serveCalendar_resolved rt w env request calendarId forceText st tokenData :
  parseCalendarToken rt calendarId st = (Ok tokenData, st) ->
  truthy_json tokenData = true ->
  serveCalendar rt w env request calendarId forceText st
  = let cachedIcs := read_cache request st (cacheKey calendarId) in
    let cachedLastUpdate := read_cache request st (lastUpdateKey calendarId) in
    let st1 := after_refresh request calendarId st in
    match conditional_response rt calendarId (of_kv (h_if_modified_since request))
            (of_kv (h_if_none_match request)) cachedIcs cachedLastUpdate with
    | Some notModified => (Ok notModified, st1)
    | None =>
        match fetch_phase w env (prop tokenData "teamId") st1 with
        | (Ok (inl failure), st2) => (Ok failure, st2)
        | (Ok (inr (actualTeamName, eventsData)), st2) =>
            serve_events rt w env request calendarId forceText (prop tokenData "teamId")
              (prop tokenData "filterType") cachedIcs cachedLastUpdate actualTeamName
              eventsData st2
        | (Throw e, st2) => (Throw e, st2)
        end
    end.
Proof.
  intros Hparse Htruthy. unfold serveCalendar.
  rewrite (bind_Ok _ _ _ _ _ Hparse). rewrite Htruthy. cbn [negb].
  rewrite (bind_Ok _ _ _ _ _ (read_cache_spec request st (cacheKey calendarId))).
  rewrite (bind_Ok _ _ _ _ _ (read_cache_spec request st (lastUpdateKey calendarId))).
  rewrite (bind_Ok _ _ _ _ _ (refresh_spec request calendarId st)).
  cbv zeta.
  destruct (conditional_response _ _ _ _ _ _); [reflexivity|].
  unfold bind.
  destruct (fetch_phase _ _ _ _) as [[[failure | [actualTeamName eventsData]] | e] st2];
    reflexivity.
Qed.

(** A feed request is answered 304 by the conditional check only. *)
Lemma not_modified_only_conditional rt w env request calendarId forceText st r st' :
  serveCalendar rt w env request calendarId forceText st = (Ok r, st') ->
  resp_status r = 304 ->
  conditional_response rt calendarId (of_kv (h_if_modified_since request))
    (of_kv (h_if_none_match request))
    (read_cache request st (cacheKey calendarId))
    (read_cache request st (lastUpdateKey calendarId))
  = Some r.
Proof.
  intros Hrun Hstatus.
  destruct (parseCalendarToken rt calendarId st) as [[tokenData | e] st0] eqn:Hparse.
  - pose proof (parseCalendarToken_keeps_state _ _ _ _ _ Hparse) as ->.
    destruct (truthy_json tokenData) eqn:Htruthy.
    + rewrite (serveCalendar_resolved _ _ _ _ _ _ _ _ Hparse Htruthy) in Hrun.
      cbv zeta in Hrun.
      destruct (conditional_response _ _ _ _ _ _) as [notModified|].
      * injection Hrun as -> _. reflexivity.
      * destruct (fetch_phase _ _ _ _) as [[[failure | [actualTeamName eventsData]] | e] st2]
          eqn:Hfetch.
        -- injection Hrun as -> _.
           now pose proof (fetch_phase_failure _ _ _ _ _ _ Hfetch).
        -- now pose proof (serve_events_status _ _ _ _ _ _ _ _ _ _ _ _ _ _ _ Hrun).
        -- discriminate Hrun.
    + unfold serveCalendar in Hrun. rewrite (bind_Ok _ _ _ _ _ Hparse), Htruthy in Hrun.
      injection Hrun as <- _. discriminate Hstatus.
  - unfold serveCalendar in Hrun. rewrite (bind_Throw _ _ _ _ _ Hparse) in Hrun.
    discriminate Hrun.
Qed.

(** ** Feeds without an update time *)

Lemma conditional_response_no_cache rt calendarId ifModifiedSince ifNoneMatch cachedLastUpdate :
  conditional_response rt calendarId ifModifiedSince ifNoneMatch JNull cachedLastUpdate = None.
Proof. reflexivity. Qed.

(** A document rendered for events without an update time is not cached,
    and is served with a modification time and an ETag read off the clock. *)
Lemma render_and_respond_zero rt w env request calendarId forceText teamId filterType
    actualTeamName events st2 icsContent st3 :
  render rt w env teamId actualTeamName events st2 = (Ok icsContent, st3) ->
  exists contentHeaders,
    render_and_respond rt w env request calendarId forceText teamId filterType actualTeamName
      events 0 st2
    = (Ok (mkResponse 200 (Some icsContent)
             (freshness_headers rt (TimeClip (clock w (ticks st3)))
                (make_etag calendarId (string_of_Z (clock w (S (ticks st3)))))
              ++ contentHeaders)),
       mkState (kv st3) (calls st3) (S (S (ticks st3)))).
Proof.
  intros Hrender. unfold render_and_respond.
  rewrite (bind_Ok _ _ _ _ _ Hrender). cbn [Z.ltb Z.compare Z.eqb negb].
  unfold bind, ret, Date_now. cbn [kv calls ticks].
  destruct (forceText || param_is (q_format request) "text"); eexists; reflexivity.
Qed.

(** C10, as the code has it: when the filtered events carry no update time
    and the request is not answered from the cache, a new document is
    rendered and neither cache key is written; Last-Modified and ETag each
    come from a read of the clock of their own, so a request at another
    instant carries another ETag, and the same request sent again with this
    ETag in If-None-Match is not answered 304.  (A request answered from a
    cached pair carries the ETag of the cached watermark instead.) *)
Theorem watermark_zero_response (rt : Runtime) (w : World) (env : Env) (request : Request)
    (calendarId : string) (forceText : bool) (st st2 st3 : State) (tokenData : Json)
    (actualTeamName : JsVal) (eventsData : option JsonDoc) (icsContent : string) :
  let teamId := prop tokenData "teamId" in
  let filterType := prop tokenData "filterType" in
  let cachedIcs := read_cache request st (cacheKey calendarId) in
  let cachedLastUpdate := read_cache request st (lastUpdateKey calendarId) in
  let st1 := after_refresh request calendarId st in
  let events := feed_events filterType eventsData in
  let tag := clock w (S (ticks st3)) in
  let etag := make_etag calendarId (string_of_Z tag) in
  let final := mkState (kv st3) (calls st3) (S (S (ticks st3))) in
  resolves rt st calendarId tokenData ->
  not_conditional rt request calendarId cachedIcs cachedLastUpdate ->
  fetch_phase w env teamId st1 = (Ok (inr (actualTeamName, eventsData)), st2) ->
  latest_update rt events = 0 ->
  cache_is_fresh cachedIcs cachedLastUpdate 0 = false ->
  render rt w env teamId actualTeamName events st2 = (Ok icsContent, st3) ->
  0 <= tag ->
  (exists contentHeaders,
      serveCalendar rt w env request calendarId forceText st
      = (Ok (mkResponse 200 (Some icsContent)
               (freshness_headers rt (TimeClip (clock w (ticks st3))) etag ++ contentHeaders)),
         final))
  /\ kv final !! cacheKey calendarId = kv st1 !! cacheKey calendarId
  /\ kv final !! lastUpdateKey calendarId = kv st1 !! lastUpdateKey calendarId
  /\ (forall t, t <> tag -> make_etag calendarId (string_of_Z t) <> etag)
  /\ (forall w' forceText' r st',
         serveCalendar rt w' env (with_if_none_match request etag) calendarId forceText' final
         = (Ok r, st') ->
         resp_status r <> 304).
Proof.
  intros teamId filterType cachedIcs cachedLastUpdate st1 events tag etag final
    Hres Hcond Hfetch Hzero Hstale Hrender Htag.
  assert (Hframe : same_but_oauth st1 st3).
  { exact (same_but_oauth_trans _ _ _
             (oauth_only_fetch_phase _ _ _ _ _ _ Hfetch)
             (oauth_only_render _ _ _ _ _ _ _ _ _ Hrender)). }
  assert (Hkeys : forall k, k = cacheKey calendarId \/ k = lastUpdateKey calendarId ->
                            kv final !! k = kv st1 !! k).
  { intros k Hk. destruct (cache_keys_not_oauth calendarId k Hk) as (H1 & H2 & H3).
    exact (Hframe k H1 H2 H3). }
  split; [|split; [|split; [|split]]].
  - destruct (render_and_respond_zero rt w env request calendarId forceText teamId filterType
                actualTeamName events st2 icsContent st3 Hrender) as (contentHeaders & Hresp).
    exists contentHeaders.
    assert (Htruthy : truthy_json tokenData = true)
      by (destruct Hres as (? & _ & _ & _ & H); exact H).
    rewrite (serveCalendar_resolved _ _ _ _ _ _ _ _
               (parseCalendarToken_resolves _ _ _ _ Hres) Htruthy).
    cbv zeta. unfold not_conditional in Hcond. fold cachedIcs cachedLastUpdate. rewrite Hcond.
    fold st1 teamId. rewrite Hfetch. unfold serve_events.
    unfold events, feed_events in Hzero. fold filterType. rewrite Hzero.
    fold cachedIcs cachedLastUpdate. rewrite Hstale. exact Hresp.
  - apply Hkeys. now left.
  - apply Hkeys. now right.
  - intros t Ht E. apply make_etag_inj, string_of_Z_inj in E. contradiction.
  - intros w' forceText' r st' Hrun Hstatus.
    apply not_modified_only_conditional in Hrun; [|exact Hstatus].
    unfold read_cache in Hrun.
    change (bypass (with_if_none_match request etag)) with (bypass request) in Hrun.
    change (h_if_modified_since (with_if_none_match request etag))
      with (h_if_modified_since request) in Hrun.
    change (h_if_none_match (with_if_none_match request etag)) with (Some etag) in Hrun.
    destruct (bypass request) eqn:Hbypass; [discriminate Hrun|].
    assert (Hst1 : st1 = st).
    { unfold st1, after_refresh. unfold bypass in Hbypass.
      apply orb_false_elim in Hbypass as [_ ->]. reflexivity. }
    rewrite !Hkeys, Hst1 in Hrun by tauto.
    unfold not_conditional, cachedIcs, cachedLastUpdate, read_cache in Hcond, Hstale.
    rewrite Hbypass in Hcond, Hstale.
    unfold conditional_response in Hrun, Hcond. unfold cache_is_fresh in Hstale.
    destruct (truthy (of_kv (kv st !! cacheKey calendarId))
              && truthy (of_kv (kv st !! lastUpdateKey calendarId))); [|discriminate Hrun].
    destruct (truthy (of_kv (h_if_modified_since request)) && _); [discriminate Hcond|].
    cbn [of_kv truthy strict_eq_str] in Hrun.
    destruct (String.eqb_spec etag
                (make_etag calendarId (ToString (of_kv (kv st !! lastUpdateKey calendarId)))))
      as [E | _]; [|rewrite andb_false_r in Hrun; discriminate Hrun].
    apply make_etag_inj in E. rewrite <- E, (parseInt_string_of_Z _ Htag) in Hstale.
    cbn [andb num_le] in Hstale. apply Z.leb_gt in Hstale. lia.
Qed.

(** One practice without an update time, and nothing cached. *)
Lemma watermark_zero_response_witness :
  let events :=
    [Sample.item [("id", JNum 9); ("label", JStr "Practice");
                  ("start_date", JStr "2024-01-02T17:00:00Z")]] in
  let w := Sample.world events in
  let st := Sample.state [] in
  let tokenData := JObject (mapping_object (JNum 1) "all") in
  let st2 :=
    snd (fetch_phase w Sample.env (prop tokenData "teamId")
           (after_refresh Sample.plain Sample.token st)) in
  let rendered :=
    render Reference.runtime w Sample.env (prop tokenData "teamId") (JStr "Tigers")
      (feed_events (prop tokenData "filterType") (Some (Sample.api_doc events))) st2 in
  let st3 := snd rendered in
  let etag := make_etag Sample.token (string_of_Z (clock w (S (ticks st3)))) in
  latest_update Reference.runtime
    (feed_events (prop tokenData "filterType") (Some (Sample.api_doc events))) = 0
  /\ etag = make_etag Sample.token "1704067200003"
  /\ kv (mkState (kv st3) (calls st3) (S (S (ticks st3)))) !! cacheKey Sample.token
     = kv (after_refresh Sample.plain Sample.token st) !! cacheKey Sample.token
  /\ forall w' forceText' r st',
       serveCalendar Reference.runtime w' Sample.env (with_if_none_match Sample.plain etag)
         Sample.token forceText' (mkState (kv st3) (calls st3) (S (S (ticks st3))))
       = (Ok r, st') ->
       resp_status r <> 304.
Proof.
  intros events w st tokenData st2 rendered st3 etag.
  assert (Hzero : latest_update Reference.runtime
                    (feed_events (prop tokenData "filterType")
                       (Some (Sample.api_doc events))) = 0) by run_model.
  assert (Hcond : not_conditional Reference.runtime Sample.plain Sample.token
                    (read_cache Sample.plain st (cacheKey Sample.token))
                    (read_cache Sample.plain st (lastUpdateKey Sample.token))) by run_model.
  assert (Hfetch : fetch_phase w Sample.env (prop tokenData "teamId")
                     (after_refresh Sample.plain Sample.token st)
                   = (Ok (inr (JStr "Tigers", Some (Sample.api_doc events))), st2))
    by run_model.
  assert (Hstale : cache_is_fresh (read_cache Sample.plain st (cacheKey Sample.token))
                     (read_cache Sample.plain st (lastUpdateKey Sample.token)) 0 = false)
    by run_model.
  assert (Hrender : rendered
                    = (Ok match fst rendered with Ok s => s | Throw _ => "" end, st3))
    by run_model.
  assert (Htag : 0 <= clock w (S (ticks st3))) by (vm_compute; discriminate).
  destruct (watermark_zero_response Reference.runtime w Sample.env Sample.plain Sample.token
              false st st2 st3 tokenData (JStr "Tigers") (Some (Sample.api_doc events)) _
              (sample_resolves []) Hcond Hfetch Hzero Hstale Hrender Htag)
    as (_ & Hkey & _ & _ & Hagain).
  split; [exact Hzero|]. split; [run_model|]. split; [exact Hkey | exact Hagain].
Defined.

(** C10 fails for a request that is answered from the cache: with a cached
    pair of watermark 1000 and no event upstream, the watermark of the events
    is 0, the response is the cached document with the ETag of the cached
    watermark, whatever the clock says, and the request sent again with that
    ETag is answered 304. *)
Lemma cached_answer_for_watermark_zero :
  let st := Sample.state [(cacheKey Sample.token, "BEGIN:VCALENDAR");
                          (lastUpdateKey Sample.token, "1000")] in
  let w := Sample.world [] in
  let first := serveCalendar Reference.runtime w Sample.env Sample.plain Sample.token false st in
  let etag := make_etag Sample.token "1000" in
  latest_update Reference.runtime (feed_events (JStr "all") (Some (Sample.api_doc []))) = 0
  /\ clock w 0 = 1704067200000
  /\ fst first
     = Ok (mkResponse 200 (Some "BEGIN:VCALENDAR")
             [("Content-Type", "text/calendar; charset=utf-8");
              ("Content-Disposition", attachment (JNum 1) (JStr "all"));
              ("Last-Modified", "Thu, 01 Jan 1970 00:00:01 GMT");
              ("ETag", etag);
              ("Cache-Control", "public, max-age=3600")])
  /\ fst (serveCalendar Reference.runtime w Sample.env (with_if_none_match Sample.plain etag)
            Sample.token false (snd first))
     = Ok (mkResponse 304 None
             [("Last-Modified", "Thu, 01 Jan 1970 00:00:01 GMT");
              ("ETag", etag);
              ("Cache-Control", "public, max-age=3600")]).
Proof.
  split; [run_model | split; [run_model | split; run_model]].
Qed.

(** ** Scenarios of the specification *)

Lemma lookup_after_refresh request calendarId st k :
  k <> cacheKey calendarId -> k <> lastUpdateKey calendarId ->
  kv (after_refresh request calendarId st) !! k = kv st !! k.
Proof.
  intros H1 H2. unfold after_refresh. destruct (param_is _ _); [|reflexivity].
  cbn [kv]. now rewrite !lookup_delete_ne by congruence.
Qed.

(** Without a stored access token and without a refresh token, a feed
    request that is not answered 304 is answered 401, and no upstream call
    is made: the state is the one the cache handling left. *)
Theorem no_tokens_unauthorized (rt : Runtime) (w : World) (env : Env) (request : Request)
    (calendarId : string) (forceText : bool) (st : State) (tokenData : Json) :
  resolves rt st calendarId tokenData ->
  kv st !! "oauth_access_token" = None ->
  kv st !! "oauth_refresh_token" = None ->
  not_conditional rt request calendarId (read_cache request st (cacheKey calendarId))
    (read_cache request st (lastUpdateKey calendarId)) ->
  serveCalendar rt w env request calendarId forceText st
  = (Ok (mkResponse 401 (Some "Calendar access expired. Please re-authenticate.") []),
     after_refresh request calendarId st).
Proof.
  intros Hres Haccess Hrefresh Hcond.
  assert (Htruthy : truthy_json tokenData = true)
    by (destruct Hres as (? & _ & _ & _ & H); exact H).
  rewrite (serveCalendar_resolved _ _ _ _ _ _ _ _
             (parseCalendarToken_resolves _ _ _ _ Hres) Htruthy).
  cbv zeta. unfold not_conditional in Hcond. rewrite Hcond.
  unfold fetch_phase, feed_access_token, refreshAccessToken, bind, kv_get.
  rewrite lookup_after_refresh, Haccess by (unfold lastUpdateKey, cacheKey; discriminate).
  cbn [of_kv truthy negb].
  rewrite lookup_after_refresh, Hrefresh by (unfold lastUpdateKey, cacheKey; discriminate).
  reflexivity.
Qed.

(** A store that holds the mapping of the token and nothing else. *)
Lemma no_tokens_unauthorized_witness :
  let st := mkState {[ token_key Sample.token := Sample.mapping ]} [] 0 in
  serveCalendar Reference.runtime (Sample.world []) Sample.env Sample.plain Sample.token false st
  = (Ok (mkResponse 401 (Some "Calendar access expired. Please re-authenticate.") []),
     after_refresh Sample.plain Sample.token st).
Proof.
  intros st.
  apply (no_tokens_unauthorized Reference.runtime (Sample.world []) Sample.env Sample.plain
           Sample.token false st (JObject (mapping_object (JNum 1) "all"))).
  - exists Sample.mapping. split; [apply lookup_singleton_eq|].
    split; [distinct|]. split; [run_model | reflexivity].
  - run_model.
  - run_model.
  - run_model.
Defined.

(** The title scenario: for the away game against the Jets of a team with
    the custom name "Leafs", the description starts with the line
    "Away at Jets", ended by backslash and n; the title is "Leafs: Game" when
    opponent names are removed, and "Leafs vs. Jets" otherwise. *)
Theorem title_scenario (rt : Runtime) (actualTeamName : JsVal) :
  let event :=
    object_of [mkField "is_game" (JBool true); mkField "game_type" (JStr "Away");
               mkField "opponent_name" (JStr "Jets")] in
  generateEventDescription rt event = Ok ("Away at Jets" +:+ esc_n)
  /\ generateEventTitleSync event (JStr "Leafs") actualTeamName true = Ok (JStr "Leafs: Game")
  /\ generateEventTitleSync event (JStr "Leafs") actualTeamName false
     = Ok (JStr "Leafs vs. Jets").
Proof. intros event. split; [reflexivity | split; reflexivity]. Qed.

(** The reference runtime on known values. *)
Example sha256_abc :
  Reference.sha256 "abc" = "ba7816bf8f01cfea414140de5dae2223b00361a396177a9cb410ff61f20015ad".
Proof. run_model. Qed.

Example dates_2024 :
  Reference.parse_date "2024-01-01T00:00:00Z" = Some 1704067200000
  /\ Reference.parse_date "Mon, 01 Jan 2024 00:00:00 GMT" = Some 1704067200000
  /\ Reference.iso_string 1704067200123 = "2024-01-01T00:00:00.123Z"
  /\ Reference.utc_string 1704067200123 = "Mon, 01 Jan 2024 00:00:00 GMT"
  /\ formatDate Reference.runtime (Some 1704067200123) = Ok "20240101T000000Z".
Proof. split; [run_model | split; [run_model | split; [run_model | split; run_model]]]. Qed.

Example json_values :
  Reference.parse_json "{bad" = None
  /\ Reference.parse_json "null" = Some (JScalar JNull)
  /\ Reference.parse_json Sample.mapping = Some (JObject (mapping_object (JNum 1) "all")).
Proof. split; [run_model | split; run_model]. Qed.

Example replacements :
  replace_first "Tigers Practice (Tigers)" "Tigers" "Cats" = "Cats Practice (Tigers)"
  /\ replace_all_nocase "Tigers Practice (tigers)" "Tigers" "Cats" = "Cats Practice (Cats)"
  /\ replace_first "a-b-c" "b" "[$&|$`|$'|$$|$1]" = "a-[b|a-|-c|$|$1]-c"
  /\ parseInt "  -12px" = Some (-12) /\ parseInt "0x1F" = Some 31 /\ parseInt "abc" = None.
Proof. repeat split; run_model. Qed.

(** * Further properties of the worker *)

(** ** The watermark *)

Lemma latest_update_from (rt : Runtime) (events : list Item) (acc : Z) :
  let step := fun latestEventUpdate event =>
    let updatedAt := find_value event "updated_at" in
    if truthy updatedAt then
      match new_Date rt updatedAt with
      | Some updateTime =>
          if latestEventUpdate <? updateTime then updateTime else latestEventUpdate
      | None => latestEventUpdate
      end
    else latestEventUpdate in
  let r := fold_left step events acc in
  acc <= r
  /\ (forall event t, In event events -> update_time rt event = Some t -> t <= r)
  /\ (r = acc \/ exists event, In event events /\ update_time rt event = Some r).
Proof.
  intros step. revert acc. induction events as [|e rest IH]; intros acc; cbn [fold_left].
  - split; [lia|]. split; [intros ? ? []|]. now left.
  - destruct (IH (step acc e)) as (Hle & Hall & Hmax).
    assert (Hstep : acc <= step acc e
                    /\ (forall t, update_time rt e = Some t -> t <= step acc e)
                    /\ (step acc e = acc \/ update_time rt e = Some (step acc e))).
    { unfold step, update_time. destruct (truthy (find_value e "updated_at")).
      - destruct (new_Date rt (find_value e "updated_at")) as [u|].
        + destruct (acc <? u) eqn:E.
          * apply Z.ltb_lt in E. split; [lia|]. split; [|now right].
            intros t [= <-]. lia.
          * apply Z.ltb_ge in E. split; [lia|]. split; [|now left].
            intros t [= <-]. lia.
        + split; [lia|]. split; [discriminate | now left].
      - split; [lia|]. split; [discriminate | now left]. }
    destruct Hstep as (H1 & H2 & H3).
    split; [lia|]. split.
    + intros event t [<- | Hin] Ht.
      * specialize (H2 t Ht). lia.
      * exact (Hall event t Hin Ht).
    + destruct Hmax as [Hr | (event & Hin & Hr)].
      * destruct H3 as [H3 | H3].
        -- left. congruence.
        -- right. exists e. split; [now left|]. now rewrite Hr.
      * right. exists event. split; [now right | exact Hr].
Qed.

(** The watermark of a feed is the latest update time among its events, and
    0 when no event carries a later one: it is never negative, no event was
    updated after it, and unless it is 0 some event was updated at it. *)
Theorem watermark_is_latest_update (rt : Runtime) (events : list Item) :
  0 <= latest_update rt events
  /\ (forall event t,
        In event events -> update_time rt event = Some t -> t <= latest_update rt events)
  /\ (latest_update rt events = 0
      \/ exists event,
           In event events /\ update_time rt event = Some (latest_update rt events)).
Proof. exact (latest_update_from rt events 0). Qed.

(** ** The events of a feed *)

(** An event is in the feed exactly when the upstream sent it, it is not
    cancelled and, for the filter "games", it is a game or has an opponent;
    every other filter type keeps all events that are not cancelled. *)
Theorem feed_events_membership (filterType : JsVal) (eventsData : option JsonDoc)
    (event : Item) :
  (In event (feed_events filterType eventsData)
   <-> In event (events_of eventsData)
       /\ truthy (find_value event "is_canceled") = false
       /\ (filterType = JStr "games" -> game_like event = true))
  /\ (filterType <> JStr "games" ->
      feed_events filterType eventsData = drop_cancelled (events_of eventsData)).
Proof.
  unfold feed_events, apply_filter, drop_cancelled. split.
  - destruct (strict_eq_str filterType "games") eqn:E.
    + assert (Hgames : filterType = JStr "games").
      { destruct filterType; try discriminate E. cbn in E.
        apply String.eqb_eq in E. now subst. }
      rewrite !filter_In, negb_true_iff. unfold game_like. tauto.
    + rewrite filter_In, negb_true_iff. split; [|tauto].
      intros [H1 H2]. split; [exact H1|]. split; [exact H2|].
      intros ->. discriminate E.
  - intros Hne. destruct filterType as [| |b|n|s]; try reflexivity.
    cbn [strict_eq_str]. destruct (String.eqb_spec s "games") as [->|_]; [|reflexivity].
    now contradiction Hne.
Qed.

(** ** Team names in titles *)











(** ** Dates of the document *)

Lemma is_digit_plain a :
  is_digit a = true ->
  Ascii.eqb a "-" = false /\ Ascii.eqb a ":" = false /\ Ascii.eqb a "." = false.
Proof.
  unfold is_digit. intros H. apply andb_true_iff in H. destruct H as [Hlo Hhi].
  apply Nat.leb_le in Hlo. apply Nat.leb_le in Hhi.
  repeat split; apply Ascii.eqb_neq; intros ->; vm_compute in Hlo, Hhi; lia.
Qed.

Lemma remove_chars_digits s rest :
  all_digits s = true ->
  remove_chars (fun a => Ascii.eqb a "-" || Ascii.eqb a ":") (s +:+ rest)
  = s +:+ remove_chars (fun a => Ascii.eqb a "-" || Ascii.eqb a ":") rest.
Proof.
  induction s as [|a s IH]; intros H; [reflexivity|].
  cbn [all_digits] in H. apply andb_true_iff in H. destruct H as [Ha Hs].
  destruct (is_digit_plain a Ha) as (H1 & H2 & _).
  simpl. rewrite H1, H2. cbn [orb]. now rewrite IH.
Qed.

Lemma remove_millis_digits s rest :
  all_digits s = true -> remove_millis (s +:+ rest) = s +:+ remove_millis rest.
Proof.
  induction s as [|a s IH]; intros H; [reflexivity|].
  cbn [all_digits] in H. apply andb_true_iff in H. destruct H as [Ha Hs].
  destruct (is_digit_plain a Ha) as (_ & _ & H3).
  simpl. rewrite H3. cbn [andb]. now rewrite IH.
Qed.

Lemma remove_millis_here ms rest :
  digits 3 ms -> remove_millis (String "." (ms +:+ rest)) = rest.
Proof.
  intros [Hlen Hd].
  destruct ms as [|a [|b [|c [|]]]]; try discriminate Hlen.
  cbn [all_digits] in Hd. rewrite andb_true_r in Hd.
  apply andb_true_iff in Hd. destruct Hd as [Ha Hd].
  apply andb_true_iff in Hd. destruct Hd as [Hb Hc].
  simpl. now rewrite Ha, Hb, Hc.
Qed.

(** [formatDate] turns the extended format of [toISOString],
    YYYY-MM-DDTHH:mm:ss.sssZ, into the basic format YYYYMMDDTHHmmssZ of the
    document: the separators and the milliseconds go, every digit stays. *)
Theorem formatDate_basic_format (rt : Runtime) (t : Z) (y mo d h mi s ms : string) :
  digits 4 y -> digits 2 mo -> digits 2 d -> digits 2 h -> digits 2 mi -> digits 2 s ->
  digits 3 ms ->
  toISOString rt t
  = y +:+ "-" +:+ mo +:+ "-" +:+ d +:+ "T" +:+ h +:+ ":" +:+ mi +:+ ":" +:+ s
      +:+ "." +:+ ms +:+ "Z" ->
  formatDate rt (Some t) = Ok (y +:+ mo +:+ d +:+ "T" +:+ h +:+ mi +:+ s +:+ "Z").
Proof.
  intros [_ Hy] [_ Hmo] [_ Hd] [_ Hh] [_ Hmi] [_ Hs] Hms Hiso.
  pose proof (proj2 Hms) as Hms'.
  assert (Hshape :
    toISOString rt t
    = y +:+ String "-" (mo +:+ String "-" (d +:+ String "T" (h +:+ String ":"
        (mi +:+ String ":" (s +:+ String "." (ms +:+ "Z"))))))) by exact Hiso.
  unfold formatDate. rewrite Hshape. f_equal.
  set (seps := fun a => Ascii.eqb a "-" || Ascii.eqb a ":").
  assert (Hcons : forall a x,
             remove_chars seps (String a x)
             = if seps a then remove_chars seps x else String a (remove_chars seps x))
    by reflexivity.
  assert (Hkeep : forall a x,
             Ascii.eqb a "." = false ->
             remove_millis (String a x) = String a (remove_millis x)).
  { intros a x H. cbn [remove_millis]. now rewrite H. }
  rewrite (remove_chars_digits y _ Hy), Hcons. cbv beta iota delta [seps]. cbn [Ascii.eqb Bool.eqb orb].
  fold seps.
  rewrite (remove_chars_digits mo _ Hmo), Hcons. change (seps "-"%char) with true. cbv iota.
  rewrite (remove_chars_digits d _ Hd), Hcons. change (seps "T"%char) with false. cbv iota.
  rewrite (remove_chars_digits h _ Hh), Hcons. change (seps ":"%char) with true. cbv iota.
  rewrite (remove_chars_digits mi _ Hmi), Hcons. change (seps ":"%char) with true. cbv iota.
  rewrite (remove_chars_digits s _ Hs), Hcons. change (seps "."%char) with false. cbv iota.
  rewrite (remove_chars_digits ms _ Hms').
  rewrite (remove_millis_digits y _ Hy), (remove_millis_digits mo _ Hmo),
    (remove_millis_digits d _ Hd), (Hkeep "T"%char) by reflexivity.
  rewrite (remove_millis_digits h _ Hh), (remove_millis_digits mi _ Hmi),
    (remove_millis_digits s _ Hs).
  now rewrite (remove_millis_here ms _ Hms).
Qed.

(** 2024-01-01T00:00:00.123Z *)
Lemma formatDate_basic_format_witness :
  formatDate Reference.runtime (Some 1704067200123) = Ok "20240101T000000Z".
Proof.
  apply (formatDate_basic_format Reference.runtime 1704067200123
           "2024" "01" "01" "00" "00" "00" "123");
    [split; reflexivity .. | run_model].
Defined.

(** ** The requests sent upstream *)

Lemma within_nil url g p : within url g p [].
Proof. split; [constructor|]. simpl. lia. Qed.

Lemma within_app url g1 p1 g2 p2 l1 l2 :
  within url g1 p1 l1 -> within url g2 p2 l2 -> within url (g1 + g2) (p1 + p2) (l1 ++ l2)%list.
Proof.
  intros (F1 & G1 & P1) (F2 & G2 & P2). split; [now apply Forall_app|].
  rewrite !List.filter_app, !length_app. lia.
Qed.

Lemma within_le url g p g' p' l :
  within url g p l -> (g <= g')%nat -> (p <= p')%nat -> within url g' p' l.
Proof. intros (F & G & P) Hg Hp. split; [exact F|]. lia. Qed.

Lemma within_get url bearer : within url 1 0 [ApiGet url bearer].
Proof.
  split; [constructor; [|constructor]|]; simpl; rewrite String.eqb_refl; simpl;
    [reflexivity | lia].
Qed.

Lemma within_post url refresh id secret : within url 0 1 [TokenPost refresh id secret].
Proof. split; [constructor; [|constructor]|]; simpl; [reflexivity | lia]. Qed.

Lemma traffic_keeps_calls {A} (m : M A) (P : list Call -> Prop) :
  keeps_calls m -> P [] -> traffic m P.
Proof.
  intros Hm HP st r st' H. exists []. rewrite app_nil_r. split; [exact (Hm _ _ _ H) | exact HP].
Qed.

Lemma traffic_fetch w c (P : list Call -> Prop) : P [c] -> traffic (fetch w c) P.
Proof.
  intros HP st r st'. unfold fetch.
  destruct (net w (calls st) c); intros [= _ <-]; exists [c]; now split.
Qed.

Lemma traffic_bind {A B} (m : M A) (k : A -> M B) (P1 P2 P : list Call -> Prop) :
  traffic m P1 -> (forall a, traffic (k a) P2) ->
  (forall l1, P1 l1 -> P l1) -> (forall l1 l2, P1 l1 -> P2 l2 -> P (l1 ++ l2)%list) ->
  traffic (bind m k) P.
Proof.
  intros Hm Hk Hleft Hboth st r st'. unfold bind.
  destruct (m st) as [[a|e] st1] eqn:E; intros H.
  - destruct (Hm _ _ _ E) as (l1 & C1 & H1). destruct (Hk a _ _ _ H) as (l2 & C2 & H2).
    exists (l1 ++ l2)%list. split; [now rewrite C2, C1, app_assoc | now apply Hboth].
  - injection H as _ <-. destruct (Hm _ _ _ E) as (l1 & C1 & H1).
    exists l1. split; [exact C1 | now apply Hleft].
Qed.

Lemma traffic_try_catch {A} (m : M A) h (P1 P2 P : list Call -> Prop) :
  traffic m P1 -> (forall e, traffic (h e) P2) ->
  (forall l1, P1 l1 -> P l1) -> (forall l1 l2, P1 l1 -> P2 l2 -> P (l1 ++ l2)%list) ->
  traffic (try_catch m h) P.
Proof.
  intros Hm Hh Hleft Hboth st r st'. unfold try_catch.
  destruct (m st) as [[a|e] st1] eqn:E; intros H.
  - injection H as _ <-. destruct (Hm _ _ _ E) as (l1 & C1 & H1).
    exists l1. split; [exact C1 | now apply Hleft].
  - destruct (Hm _ _ _ E) as (l1 & C1 & H1). destruct (Hh e _ _ _ H) as (l2 & C2 & H2).
    exists (l1 ++ l2)%list. split; [now rewrite C2, C1, app_assoc | now apply Hboth].
Qed.

(** Sequencing under bounds that add up. *)
Lemma traffic_bind_within {A B} (m : M A) (k : A -> M B) url g1 p1 g2 p2 g p :
  traffic m (within url g1 p1) -> (forall a, traffic (k a) (within url g2 p2)) ->
  (g1 + g2 <= g)%nat -> (p1 + p2 <= p)%nat ->
  traffic (bind m k) (within url g p).
Proof.
  intros Hm Hk Hg Hp. apply (traffic_bind m k (within url g1 p1) (within url g2 p2));
    [exact Hm | exact Hk | |].
  - intros l H. apply (within_le _ _ _ _ _ _ H); lia.
  - intros l1 l2 H1 H2. apply (within_le _ _ _ _ _ _ (within_app _ _ _ _ _ _ _ H1 H2)); lia.
Qed.

Lemma keeps_calls_ret {A} (a : A) : keeps_calls (ret a).
Proof. now intros st r st' [= _ <-]. Qed.

Lemma keeps_calls_throw {A} e : keeps_calls (@throw A e).
Proof. now intros st r st' [= _ <-]. Qed.

Lemma keeps_calls_lift {A} (x : Result A) : keeps_calls (lift x).
Proof. now intros st r st' [= _ <-]. Qed.

Lemma keeps_calls_kv_get k : keeps_calls (kv_get k).
Proof. now intros st r st' [= _ <-]. Qed.

Lemma keeps_calls_kv_put k v ttl : keeps_calls (kv_put k v ttl).
Proof.
  intros st r st'. unfold kv_put. destruct v; try (now intros [= _ <-]).
  destruct (valid_ttl ttl); now intros [= _ <-].
Qed.

Lemma keeps_calls_kv_delete k : keeps_calls (kv_delete k).
Proof. now intros st r st' [= _ <-]. Qed.

Lemma keeps_calls_Date_now w : keeps_calls (Date_now w).
Proof. now intros st r st' [= _ <-]. Qed.

Lemma keeps_calls_response_json r : keeps_calls (response_json r).
Proof.
  unfold response_json. destruct (json r); [apply keeps_calls_ret | apply keeps_calls_throw].
Qed.

Lemma keeps_calls_bind {A B} (m : M A) (k : A -> M B) :
  keeps_calls m -> (forall a, keeps_calls (k a)) -> keeps_calls (bind m k).
Proof.
  intros Hm Hk st r st'. unfold bind.
  destruct (m st) as [[a|e] st1] eqn:E; intros H.
  - now rewrite (Hk a _ _ _ H), (Hm _ _ _ E).
  - injection H as _ <-. exact (Hm _ _ _ E).
Qed.

Lemma keeps_calls_try_catch {A} (m : M A) h :
  keeps_calls m -> (forall e, keeps_calls (h e)) -> keeps_calls (try_catch m h).
Proof.
  intros Hm Hh st r st'. unfold try_catch.
  destruct (m st) as [[a|e] st1] eqn:E; intros H.
  - injection H as _ <-. exact (Hm _ _ _ E).
  - now rewrite (Hh e _ _ _ H), (Hm _ _ _ E).
Qed.

Ltac calls_step :=
  first [ match goal with H : context [keeps_calls] |- _ => apply H end
        | apply keeps_calls_ret | apply keeps_calls_throw | apply keeps_calls_lift
        | apply keeps_calls_kv_get | apply keeps_calls_kv_put | apply keeps_calls_kv_delete
        | apply keeps_calls_Date_now | apply keeps_calls_response_json
        | apply keeps_calls_bind; [|intros ?]
        | apply keeps_calls_try_catch; [|intros ?]
        | match goal with
          | |- keeps_calls (if ?c then _ else _) => destruct c
          | |- keeps_calls (match ?x with _ => _ end) => destruct x
          end
        ].

(** [refreshAccessToken] sends at most the request to the token endpoint. *)
Lemma traffic_refreshAccessToken w env url :
  traffic (refreshAccessToken w env) (within url 0 1).
Proof.
  unfold refreshAccessToken.
  apply (traffic_bind_within _ _ url 0 0 0 1);
    [apply traffic_keeps_calls; [calls_step | apply within_nil] | intros refreshToken | lia ..].
  destruct (negb (truthy refreshToken)).
  { apply traffic_keeps_calls; [calls_step | apply within_nil]. }
  apply (traffic_try_catch _ _ (within url 0 1) (within url 0 0)).
  - apply (traffic_bind_within _ _ url 0 1 0 0);
      [apply traffic_fetch, within_post | intros response | lia ..].
    apply traffic_keeps_calls; [repeat calls_step | apply within_nil].
  - intros e. apply traffic_keeps_calls; [calls_step | apply within_nil].
  - now intros l H.
  - intros l1 l2 H1 H2. apply (within_le _ _ _ _ _ _ (within_app _ _ _ _ _ _ _ H1 H2)); lia.
Qed.

(** [fetchTeamSnapData] sends at most four requests: the GET of the
    endpoint at most twice, and at most two requests to the token endpoint,
    one when no access token is stored and one when the GET is answered 401.
    It sends nothing else, and never tries a third time. *)
Theorem fetchTeamSnapData_sends_at_most_four (w : World) (env : Env) (endpoint : string)
    (st : State) :
  exists l,
    calls (snd (fetchTeamSnapData w env endpoint st)) = (calls st ++ l)%list
    /\ within (TEAMSNAP_API_URL +:+ endpoint) 2 2 l.
Proof.
  set (url := TEAMSNAP_API_URL +:+ endpoint).
  assert (H : traffic (fetchTeamSnapData w env endpoint) (within url 2 2)).
  { pose proof (traffic_refreshAccessToken w env url) as Hrefresh.
    unfold fetchTeamSnapData. fold url.
    apply (traffic_bind_within _ _ url 0 0 2 2);
      [apply traffic_keeps_calls; [calls_step | apply within_nil] | intros stored | lia ..].
    apply (traffic_bind_within _ _ url 0 1 2 1); [| intros accessToken | lia ..].
    { destruct (truthy stored).
      - apply traffic_keeps_calls; [calls_step | apply within_nil].
      - apply (traffic_bind_within _ _ url 0 1 0 0); [exact Hrefresh | intros newTokens | lia ..].
        apply traffic_keeps_calls; [repeat calls_step | apply within_nil]. }
    destruct accessToken as [accessToken|];
      [|apply traffic_keeps_calls; [calls_step | apply within_nil]].
    apply (traffic_bind_within _ _ url 1 0 1 1);
      [apply traffic_fetch, within_get | intros response | lia ..].
    destruct (status response =? 401).
    - apply (traffic_bind_within _ _ url 0 1 1 0); [exact Hrefresh | intros newTokens | lia ..].
      destruct newTokens as [td|];
        [|apply traffic_keeps_calls; [calls_step | apply within_nil]].
      apply (traffic_bind_within _ _ url 1 0 0 0);
        [apply traffic_fetch, within_get | intros retryResponse | lia ..].
      apply traffic_keeps_calls; [repeat calls_step | apply within_nil].
    - apply traffic_keeps_calls; [repeat calls_step | apply within_nil]. }
  destruct (fetchTeamSnapData w env endpoint st) as [r st'] eqn:E.
  exact (H _ _ _ E).
Qed.

(** ** The OAuth token manager *)

Lemma try_catch_never_throws {A} (m : M A) (x : A) :
  never_throws (try_catch m (fun _ => ret x)).
Proof.
  intros st. unfold try_catch. destruct (m st) as [[a|e] st1]; eexists _, _; reflexivity.
Qed.

Lemma refreshAccessToken_never_throws w env : never_throws (refreshAccessToken w env).
Proof.
  intros st. unfold refreshAccessToken, bind at 1, kv_get.
  destruct (negb (truthy (of_kv (kv st !! "oauth_refresh_token")))).
  - eexists _, _; reflexivity.
  - apply try_catch_never_throws.
Qed.

Lemma within_posts_only url p l :
  within url 0 p l -> Forall (fun c => is_post c = true) l /\ (length l <= p)%nat.
Proof.
  revert p. induction l as [|c l IH]; intros p (Hall & Hgets & Hposts);
    [split; [constructor | simpl; lia]|].
  cbn [List.filter] in Hgets, Hposts.
  destruct (is_get url c) eqn:Eg; [simpl in Hgets; lia|].
  assert (Ep : is_post c = true).
  { apply Forall_inv in Hall. now rewrite Eg in Hall. }
  rewrite Ep in Hposts. simpl in Hposts.
  destruct p as [|p]; [exfalso; lia|].
  destruct (IH p) as [IH1 IH2].
  { split; [exact (Forall_inv_tail Hall)|]. split; [exact Hgets | lia]. }
  split; [now constructor | simpl; lia].
Qed.

Lemma at_most_one_post url l :
  within url 0 1 l -> l = [] \/ exists c, l = [c] /\ is_post c = true.
Proof.
  intros H. apply within_posts_only in H. destruct H as [Hposts Hlen].
  destruct l as [|c [|c' l]]; [now left | right | simpl in Hlen; lia].
  exists c. split; [reflexivity | exact (Forall_inv Hposts)].
Qed.

(** [refreshAccessToken] never throws: whatever the store holds and the
    token endpoint answers, it returns the token response or null.  It writes
    no key besides the three of the token manager, and sends at most one
    request, a POST to the token endpoint. *)
Theorem refreshAccessToken_outcome (w : World) (env : Env) (st : State) :
  exists r st' l,
    refreshAccessToken w env st = (Ok r, st')
    /\ same_but_oauth st st'
    /\ calls st' = (calls st ++ l)%list /\ (l = [] \/ exists c, l = [c] /\ is_post c = true).
Proof.
  destruct (refreshAccessToken_never_throws w env st) as (r & st' & E).
  destruct (traffic_refreshAccessToken w env "" _ _ _ E) as (l & Hcalls & Hwithin).
  exists r, st', l. split; [exact E|].
  split; [exact (oauth_only_refreshAccessToken w env _ _ _ E)|].
  split; [exact Hcalls | exact (at_most_one_post _ _ Hwithin)].
Qed.

(** When the token endpoint answers with a token response, the new access
    token is stored, with the expiry time computed from the clock, and the
    response is returned; the refresh token is replaced only when the
    response carries one.  No other key is written. *)
Theorem refresh_success_stores (w : World) (env : Env) (st : State) (rtok : string)
    (resp : HttpResponse) (td : JsonDoc) (a : string) :
  kv st !! "oauth_refresh_token" = Some rtok -> rtok <> "" ->
  net w (calls st) (refresh_call env st) = Resp resp -> ok resp = true ->
  json resp = Some (Some td) ->
  access_token td = JStr a -> valid_ttl (expires_in td) = true ->
  (truthy (refresh_token td) = true -> exists s, refresh_token td = JStr s) ->
  exists st',
    refreshAccessToken w env st = (Ok (Some td), st')
    /\ kv st' !! "oauth_access_token" = Some a
    /\ kv st' !! "oauth_refresh_token"
       = Some (if truthy (refresh_token td) then ToString (refresh_token td) else rtok)
    /\ kv st' !! "oauth_expires_at"
       = Some (string_of_number (expiry_time (clock w (ticks st)) (expires_in td)))
    /\ same_but_oauth st st'
    /\ calls st' = (calls st ++ [refresh_call env st])%list.
Proof.
  intros Hrtok Hne Hnet Hok Hjson Haccess Httl Hrefresh.
  assert (Hrun : exists st',
             refreshAccessToken w env st = (Ok (Some td), st')
             /\ kv st'
                = <["oauth_expires_at" :=
                      string_of_number (expiry_time (clock w (ticks st)) (expires_in td))]>
                    ((if truthy (refresh_token td)
                      then <["oauth_refresh_token" := ToString (refresh_token td)]>
                      else fun m => m)
                       (<["oauth_access_token" := a]> (kv st)))
             /\ calls st' = (calls st ++ [refresh_call env st])%list).
  { unfold refreshAccessToken, bind at 1, kv_get.
    pose proof Hnet as Hnet'. unfold refresh_call in Hnet'. rewrite Hrtok in Hnet'.
    rewrite Hrtok. cbn [of_kv truthy ToString] in *.
    destruct (String.eqb_spec rtok "") as [|_]; [contradiction|]. cbn [negb].
    unfold try_catch, bind, fetch. rewrite Hnet', Hok. unfold response_json. rewrite Hjson.
    unfold ret at 1. unfold kv_put at 1. rewrite Haccess, Httl. cbn [kv calls ticks].
    destruct (truthy (refresh_token td)) eqn:Et.
    - destruct (Hrefresh eq_refl) as (s & Hs). rewrite Hs.
      unfold kv_put, Date_now, ret. cbn [valid_ttl kv calls ticks ToString].
      unfold refresh_call. rewrite Hrtok. cbn [of_kv ToString].
      eexists. split; [reflexivity|]. split; reflexivity.
    - unfold kv_put, Date_now, ret. cbn [valid_ttl kv calls ticks ToString].
      unfold refresh_call. rewrite Hrtok. cbn [of_kv ToString].
      eexists. split; [reflexivity|]. split; reflexivity. }
  destruct Hrun as (st' & Hrun & Hkv & Hcalls). exists st'.
  split; [exact Hrun|]. rewrite Hkv.
  split; [|split; [|split; [|split; [|exact Hcalls]]]].
  - rewrite lookup_insert_ne by discriminate.
    destruct (truthy (refresh_token td)).
    + rewrite lookup_insert_ne by discriminate. apply lookup_insert_eq.
    + apply lookup_insert_eq.
  - rewrite lookup_insert_ne by discriminate.
    destruct (truthy (refresh_token td)).
    + apply lookup_insert_eq.
    + rewrite lookup_insert_ne by discriminate. exact Hrtok.
  - apply lookup_insert_eq.
  - exact (oauth_only_refreshAccessToken w env _ _ _ Hrun).
Qed.

(** The token endpoint grants a token without a lifetime and without a
    refresh token: the access token is stored, the refresh token stays. *)
Lemma refresh_success_stores_witness :
  let st := Portal.state [("oauth_refresh_token", "r1")] in
  exists st',
    refreshAccessToken Portal.world Sample.env st = (Ok (Some Portal.grant), st')
    /\ kv st' !! "oauth_access_token" = Some "at2"
    /\ kv st' !! "oauth_refresh_token"
       = Some (if truthy (refresh_token Portal.grant)
               then ToString (refresh_token Portal.grant) else "r1")
    /\ kv st' !! "oauth_expires_at"
       = Some (string_of_number
                 (expiry_time (clock Portal.world (ticks st)) (expires_in Portal.grant)))
    /\ same_but_oauth st st'
    /\ calls st' = (calls st ++ [refresh_call Sample.env st])%list.
Proof.
  intros st.
  apply (refresh_success_stores Portal.world Sample.env st "r1"
           (mkHttp 200 "" (Some (Some Portal.grant))) Portal.grant "at2").
  - run_model.
  - discriminate.
  - reflexivity.
  - reflexivity.
  - reflexivity.
  - reflexivity.
  - reflexivity.
  - discriminate.
Defined.

(** ** The authentication check *)

Lemma isAuthenticated_without_token w env st :
  truthy (of_kv (kv st !! "oauth_access_token")) = false ->
  isAuthenticated w env st = (Ok false, st).
Proof. intros H. unfold isAuthenticated, bind, kv_get. now rewrite H. Qed.

(** [isAuthenticated] never throws.  It writes no key besides the three of
    the token manager and sends at most one request, a POST to the token
    endpoint; and it holds only if an access token is stored. *)
Theorem isAuthenticated_outcome (w : World) (env : Env) (st : State) :
  exists b st' l,
    isAuthenticated w env st = (Ok b, st')
    /\ same_but_oauth st st'
    /\ calls st' = (calls st ++ l)%list /\ (l = [] \/ exists c, l = [c] /\ is_post c = true)
    /\ (b = true -> exists a, kv st !! "oauth_access_token" = Some a /\ a <> "").
Proof.
  unfold isAuthenticated, bind at 1 2, kv_get.
  assert (Hstay : forall b,
             (b = true -> exists a, kv st !! "oauth_access_token" = Some a /\ a <> "") ->
             exists b' st' l,
               (Ok b, st) = (Ok b', st') /\ same_but_oauth st st'
               /\ calls st' = (calls st ++ l)%list
               /\ (l = [] \/ exists c, l = [c] /\ is_post c = true)
               /\ (b' = true -> exists a, kv st !! "oauth_access_token" = Some a /\ a <> "")).
  { intros b Hb. exists b, st, []. rewrite app_nil_r. split; [reflexivity|].
    split; [apply same_but_oauth_refl|]. split; [reflexivity|]. split; [now left | exact Hb]. }
  destruct (kv st !! "oauth_access_token") as [a|] eqn:Ea; cbn [of_kv truthy negb];
    [|apply Hstay; discriminate].
  destruct (String.eqb_spec a "") as [->|Hne]; cbn [negb]; [apply Hstay; discriminate|].
  assert (Htoken : exists a0 : string, Some a = Some a0 /\ a0 <> "") by (now exists a).
  destruct (truthy (of_kv (kv st !! "oauth_expires_at"))); [|unfold ret; now apply Hstay].
  unfold bind, Date_now.
  set (st1 := mkState (kv st) (calls st) (S (ticks st))).
  assert (Hnow : forall b,
             exists b' st' l,
               (Ok b, st1) = (Ok b', st') /\ same_but_oauth st st'
               /\ calls st' = (calls st ++ l)%list
               /\ (l = [] \/ exists c, l = [c] /\ is_post c = true)
               /\ (b' = true -> exists a0 : string, Some a = Some a0 /\ a0 <> "")).
  { intros b. exists b, st1, []. rewrite app_nil_r. split; [reflexivity|].
    split; [now intros k _ _ _|]. split; [reflexivity|]. split; [now left | now intros _]. }
  destruct (parseInt _) as [expiry|]; [|apply Hnow].
  destruct (expiry <? clock w (ticks st)); [|apply Hnow].
  destruct (refreshAccessToken_never_throws w env st1) as (r & st' & E). rewrite E.
  destruct (traffic_refreshAccessToken w env "" _ _ _ E) as (l & Hcalls & Hwithin).
  eexists _, st', l. split; [reflexivity|].
  split; [exact (oauth_only_refreshAccessToken w env _ _ _ E)|].
  split; [exact Hcalls|]. split; [exact (at_most_one_post _ _ Hwithin) | now intros _].
Qed.

(** While an access token is stored and no stored expiry time lies before
    the clock, [isAuthenticated] holds without a request and without a
    write. *)
Lemma isAuthenticated_while_valid (w : World) (env : Env) (st : State) (a : string) :
  kv st !! "oauth_access_token" = Some a -> a <> "" ->
  (forall e t, kv st !! "oauth_expires_at" = Some e -> parseInt e = Some t ->
               clock w (ticks st) <= t) ->
  exists st',
    isAuthenticated w env st = (Ok true, st') /\ kv st' = kv st /\ calls st' = calls st.
Proof.
  intros Ha Hne Hvalid. unfold isAuthenticated, bind at 1 2, kv_get. rewrite Ha.
  cbn [of_kv truthy]. destruct (String.eqb_spec a "") as [|_]; [contradiction|]. cbn [negb].
  destruct (kv st !! "oauth_expires_at") as [e|] eqn:Ee; cbn [of_kv truthy ToString];
    [|now exists st].
  destruct (negb (String.eqb e "")); [|now exists st].
  unfold bind, Date_now.
  destruct (parseInt e) as [t|] eqn:Et; [|eexists; split; [reflexivity | now split]].
  specialize (Hvalid e t eq_refl Et).
  destruct (Z.ltb_spec t (clock w (ticks st))) as [Hlt|_]; [lia|].
  eexists; split; [reflexivity | now split].
Qed.

Lemma kv_put_inv k v ttl st st' :
  kv_put k v ttl st = (Ok tt, st') ->
  exists s, v = JStr s /\ st' = mkState (<[k := s]> (kv st)) (calls st) (ticks st).
Proof.
  unfold kv_put. destruct v as [| | | |s]; try discriminate.
  destruct (valid_ttl ttl); [|discriminate]. intros [= <-]. now exists s.
Qed.

Lemma try_catch_inv {A} (m : M A) h st r st' :
  try_catch m h st = (r, st') ->
  (exists a, m st = (Ok a, st') /\ r = Ok a)
  \/ (exists e st1, m st = (Throw e, st1) /\ h e st1 = (r, st')).
Proof.
  unfold try_catch. destruct (m st) as [[a|e] st1]; intros H.
  - injection H as <- <-. left. now exists a.
  - right. now exists e, st1.
Qed.

(** What the store holds once [refreshAccessToken] has returned a token
    response. *)
Lemma refresh_returns_inv w env st td st' :
  refreshAccessToken w env st = (Ok (Some td), st') ->
  exists a now,
    access_token td = JStr a
    /\ kv st' !! "oauth_access_token" = Some a
    /\ kv st' !! "oauth_expires_at" = Some (string_of_number (expiry_time now (expires_in td))).
Proof.
  unfold refreshAccessToken. intros H.
  apply bind_inv in H. destruct H as (refreshToken & st1 & _ & H).
  destruct (negb (truthy refreshToken)); [discriminate H|].
  apply try_catch_inv in H. destruct H as [(x & H & Hx) | (e & st2 & _ & H)];
    [|discriminate H].
  injection Hx as <-.
  apply bind_inv in H. destruct H as (response & st2 & _ & H).
  destruct (ok response); [|discriminate H].
  apply bind_inv in H. destruct H as (tokenData & st3 & Hjson & H).
  destruct tokenData as [td'|]; [|discriminate H].
  apply bind_inv in H. destruct H as ([] & st4 & Hput1 & H).
  apply bind_inv in H. destruct H as ([] & st5 & Hput2 & H).
  apply bind_inv in H. destruct H as (now & st6 & Hnow & H).
  apply bind_inv in H. destruct H as ([] & st7 & Hput3 & H).
  injection H as -> <-.
  apply kv_put_inv in Hput1. destruct Hput1 as (a & Ha & ->).
  apply kv_put_inv in Hput3. destruct Hput3 as (x & Hx & ->).
  injection Hx as <-. injection Hnow as <- <-.
  exists a, (clock w (ticks st5)). split; [exact Ha|]. cbn [kv].
  split; [|apply lookup_insert_eq].
  rewrite lookup_insert_ne by discriminate.
  destruct (truthy (refresh_token td)).
  - apply kv_put_inv in Hput2. destruct Hput2 as (s & _ & ->). cbn [kv].
    rewrite lookup_insert_ne by discriminate. apply lookup_insert_eq.
  - injection Hput2 as <-. cbn [kv]. apply lookup_insert_eq.
Qed.

(** A token response without [expires_in] is stored with the expiry time
    "NaN", which never lies before the clock: once such a response has been
    stored, [isAuthenticated] holds at any later time without another
    refresh, as long as the two keys are not written again. *)
Theorem token_without_lifetime_never_expires (w : World) (env : Env) (st st' : State)
    (td : JsonDoc) :
  refreshAccessToken w env st = (Ok (Some td), st') ->
  expires_in td = JUndefined -> access_token td <> JStr "" ->
  kv st' !! "oauth_expires_at" = Some "NaN"
  /\ forall (w' : World) (later : State),
       kv later !! "oauth_access_token" = kv st' !! "oauth_access_token" ->
       kv later !! "oauth_expires_at" = kv st' !! "oauth_expires_at" ->
       exists final,
         isAuthenticated w' env later = (Ok true, final)
         /\ kv final = kv later /\ calls final = calls later.
Proof.
  intros Hrun Hexp Hne.
  destruct (refresh_returns_inv _ _ _ _ _ Hrun) as (a & now & Ha & Haccess & Hexpiry).
  rewrite Hexp in Hexpiry. cbn [expiry_time string_of_number] in Hexpiry.
  split; [exact Hexpiry|]. intros w' later H1 H2.
  apply (isAuthenticated_while_valid w' env later a).
  - now rewrite H1.
  - intros ->. now apply Hne.
  - intros e t He. rewrite H2, Hexpiry in He. injection He as <-. discriminate.
Qed.

(** The grant of the sample token endpoint carries no lifetime. *)
Lemma token_without_lifetime_never_expires_witness :
  let st := Portal.state [("oauth_refresh_token", "r1")] in
  let st' := snd (refreshAccessToken Portal.world Sample.env st) in
  kv st' !! "oauth_expires_at" = Some "NaN"
  /\ forall (w' : World) (later : State),
       kv later !! "oauth_access_token" = kv st' !! "oauth_access_token" ->
       kv later !! "oauth_expires_at" = kv st' !! "oauth_expires_at" ->
       exists final,
         isAuthenticated w' Sample.env later = (Ok true, final)
         /\ kv final = kv later /\ calls final = calls later.
Proof.
  intros st st'.
  apply (token_without_lifetime_never_expires Portal.world Sample.env st st' Portal.grant).
  - run_model.
  - reflexivity.
  - discriminate.
Defined.


(** ** The listing of the teams *)

Lemma bind_cases {A B} (m : M A) (k : A -> M B) st r st' :
  bind m k st = (r, st') ->
  (exists a st1, m st = (Ok a, st1) /\ k a st1 = (r, st'))
  \/ (exists e, m st = (Throw e, st') /\ r = Throw e).
Proof.
  unfold bind. destruct (m st) as [[a|e] st1]; intros H.
  - left. now exists a, st1.
  - injection H as <- <-. right. now exists e.
Qed.


Lemma oauth_only_error {A} (m : M A) st e st' :
  oauth_only m -> m st = (Throw e, st') -> same_but_oauth st st'.
Proof. intros H E. exact (H _ _ _ E). Qed.

(** No listing for anyone but the allowed user: unless [ALLOWED_USER_EMAIL]
    is set and is the email of the signed-in user, the answer is not 200 and
    no key is written besides the three of the token manager; in particular
    no token mapping is stored. *)
Theorem teams_listing_is_guarded (rt : Runtime) (w : World) (env : Env) (allowed : JsVal)
    (stringify : JsonTree -> string) (request : ApiRequest) (st st' : State) (r : Response) :
  handleTeamsApi rt w env allowed stringify request st = (Ok r, st') ->
  signed_in_as_allowed w env allowed st
  \/ (resp_status r <> 200 /\ same_but_oauth st st').
Proof.
  unfold handleTeamsApi. intros H.
  pose proof (oauth_only_fetchTeamSnapData w env "/me") as Hme.
  apply try_catch_inv in H. destruct H as [(x & H & Hx) | (e & st1 & H & Hh)].
  - injection Hx as <-.
    apply bind_inv in H. destruct H as (userData & st1 & Efetch & H).
    assert (Hst1 : same_but_oauth st st1) by exact (Hme _ _ _ Efetch).
    assert (Hnone : forall msg,
               ret (error_response stringify 500 msg) st1 = (Ok r, st') ->
               signed_in_as_allowed w env allowed st
               \/ (resp_status r <> 200 /\ same_but_oauth st st')).
    { intros msg [= <- <-]. right. split; [discriminate | exact Hst1]. }
    destruct userData as [[[[[[|user rest]|]]|] ? ? ?]|]; try exact (Hnone _ H).
    apply bind_inv in H. destruct H as (userEmail & st2 & Eemail & H).
    apply lift_inv in Eemail. destruct Eemail as [Eemail ->].
    apply bind_inv in H. destruct H as (userId & st2 & Eid & H).
    apply lift_inv in Eid. destruct Eid as [Eid ->].
    destruct (truthy allowed) eqn:Hallowed; cbn [negb] in H.
    2:{ injection H as <- <-. right. split; [discriminate | exact Hst1]. }
    destruct (bool_decide_reflect (userEmail = allowed)) as [->|Hne]; cbn [negb] in H.
    2:{ injection H as <- <-. right. split; [discriminate | exact Hst1]. }
    left. split; [exact Hallowed|]. eexists _, user, rest, st1. split; [exact Efetch|]. now split.
  - injection Hh as <- <-.
    apply bind_cases in H. destruct H as [(userData & st2 & Efetch & H) | (e' & Efetch & _)].
    2:{ right. split; [discriminate | exact (Hme _ _ _ Efetch)]. }
    assert (Hst2 : same_but_oauth st st2) by exact (Hme _ _ _ Efetch).
    destruct userData as [[[[[[|user rest]|]]|] ? ? ?]|]; try discriminate H.
    apply bind_cases in H. destruct H as [(userEmail & st3 & Eemail & H) | (e' & Eemail & _)].
    2:{ injection Eemail as _ <-. right. split; [discriminate | exact Hst2]. }
    apply lift_inv in Eemail. destruct Eemail as [Eemail ->].
    apply bind_cases in H. destruct H as [(userId & st3 & Eid & H) | (e' & Eid & _)].
    2:{ injection Eid as _ <-. right. split; [discriminate | exact Hst2]. }
    apply lift_inv in Eid. destruct Eid as [Eid ->].
    destruct (truthy allowed) eqn:Hallowed; cbn [negb] in H; [|discriminate H].
    destruct (bool_decide_reflect (userEmail = allowed)) as [->|Hne]; cbn [negb] in H;
      [|discriminate H].
    left. split; [exact Hallowed|]. eexists _, user, rest, st2. split; [exact Efetch|]. now split.
Qed.

(** Another user is signed in: the listing is refused, nothing is stored. *)
Lemma teams_listing_is_guarded_witness :
  let outcome :=
    handleTeamsApi Reference.runtime Portal.world Sample.env (JStr "owner@example.com")
      Portal.stringify (Portal.get "/api/teams" None) (Portal.state []) in
  signed_in_as_allowed Portal.world Sample.env (JStr "owner@example.com") (Portal.state [])
  \/ (resp_status
        (mkResponse 403
           (Some "Access denied: The email 'coach@example.com' is not authorized to use this service.")
           []) <> 200
      /\ same_but_oauth (Portal.state []) (snd outcome)).
Proof.
  intros outcome.
  apply (teams_listing_is_guarded Reference.runtime Portal.world Sample.env
           (JStr "owner@example.com") Portal.stringify (Portal.get "/api/teams" None)).
  run_model.
Defined.

Lemma teamWithCalendars_registers rt env team st t st' :
  teamWithCalendars rt env team st = (Ok t, st') ->
  (forall k, is_Some (kv st !! k) -> is_Some (kv st' !! k))
  /\ is_Some (kv st' !! token_key (tc_all t))
  /\ is_Some (kv st' !! token_key (tc_games t)).
Proof.
  intros H. destruct (data team) as [fs|] eqn:Hdata.
  2:{ unfold teamWithCalendars in H. rewrite Hdata in H. discriminate H. }
  destruct (teamWithCalendars_stores rt env team fs st _ _ Hdata eq_refl eq_refl)
    as (tc & Hrun & Hall & Hgames).
  rewrite Hrun in H. injection H as <- <-. cbn [kv]. rewrite Hall, Hgames.
  split; [|split].
  - intros k Hk.
    destruct (decide (k = token_key (generateCalendarToken rt env
                                       (obj_prop (object_of fs) "id") "games"
                                       (obj_prop (object_of fs) "name")))) as [->|Hg].
    { rewrite lookup_insert_eq. eauto. }
    rewrite lookup_insert_ne by congruence.
    destruct (decide (k = token_key (generateCalendarToken rt env
                                       (obj_prop (object_of fs) "id") "all"
                                       (obj_prop (object_of fs) "name")))) as [->|Ha].
    { rewrite lookup_insert_eq. eauto. }
    now rewrite lookup_insert_ne by congruence.
  - destruct (decide (token_key (generateCalendarToken rt env
                                   (obj_prop (object_of fs) "id") "all"
                                   (obj_prop (object_of fs) "name"))
                      = token_key (generateCalendarToken rt env
                                     (obj_prop (object_of fs) "id") "games"
                                     (obj_prop (object_of fs) "name")))) as [E|E].
    + rewrite E, lookup_insert_eq. eauto.
    + rewrite lookup_insert_ne by congruence. rewrite lookup_insert_eq. eauto.
  - rewrite lookup_insert_eq. eauto.
Qed.

Lemma teamsWithCalendars_registers rt env teams st listing st' :
  teamsWithCalendars rt env teams st = (Ok listing, st') ->
  (forall k, is_Some (kv st !! k) -> is_Some (kv st' !! k))
  /\ length listing = length teams
  /\ forall t, In t listing ->
       is_Some (kv st' !! token_key (tc_all t)) /\ is_Some (kv st' !! token_key (tc_games t)).
Proof.
  revert st listing st'. induction teams as [|team rest IH]; intros st listing st' H.
  - injection H as <- <-. split; [tauto|]. split; [reflexivity|]. intros t [].
  - cbn [teamsWithCalendars] in H.
    apply bind_inv in H. destruct H as (t & st1 & Ht & H).
    apply bind_inv in H. destruct H as (ts & st2 & Hts & H).
    injection H as <- <-.
    destruct (teamWithCalendars_registers _ _ _ _ _ _ Ht) as (Hkeep1 & Hall & Hgames).
    destruct (IH _ _ _ Hts) as (Hkeep2 & Hlen & Hrest).
    split; [intros k Hk; exact (Hkeep2 k (Hkeep1 k Hk))|].
    split; [simpl; now rewrite Hlen|].
    intros t' [<- | Hin]; [|exact (Hrest t' Hin)].
    split; apply Hkeep2; assumption.
Qed.

(** No dangling address: when the listing is answered 200, the mapping of
    each token whose address it hands out is in the store. *)
Theorem listed_feeds_are_registered (rt : Runtime) (w : World) (env : Env) (allowed : JsVal)
    (stringify : JsonTree -> string) (request : ApiRequest) (st st' : State) (r : Response) :
  handleTeamsApi rt w env allowed stringify request st = (Ok r, st') ->
  resp_status r = 200 ->
  exists userEmail listing,
    resp_body r
    = Some (stringify
              (Obj [("user", Obj [("email", Leaf userEmail)]);
                    ("teams", Arr (map (team_json (req_origin request)) listing))]))
    /\ forall t, In t listing ->
         is_Some (kv st' !! token_key (tc_all t))
         /\ is_Some (kv st' !! token_key (tc_games t)).
Proof.
  unfold handleTeamsApi. intros H Hstatus.
  apply try_catch_inv in H. destruct H as [(x & H & Hx) | (e & st1 & _ & Hh)].
  2:{ injection Hh as <- _. discriminate Hstatus. }
  injection Hx as <-.
  apply bind_inv in H. destruct H as (userData & st1 & _ & H).
  destruct userData as [[[[[[|user rest]|]]|] ? ? ?]|];
    try (injection H as <- _; discriminate Hstatus).
  apply bind_inv in H. destruct H as (userEmail & st2 & _ & H).
  apply bind_inv in H. destruct H as (userId & st3 & _ & H).
  destruct (negb (truthy allowed)); [injection H as <- _; discriminate Hstatus|].
  destruct (negb (bool_decide (userEmail = allowed)));
    [injection H as <- _; discriminate Hstatus|].
  apply bind_inv in H. destruct H as (teamsResponse & st4 & _ & H).
  destruct teamsResponse as [[[c|] ? ? ?]|]; try (injection H as <- _; discriminate Hstatus).
  apply bind_inv in H. destruct H as (listing & st5 & Hlisting & H).
  injection H as <- <-. exists userEmail, listing. split; [reflexivity|].
  exact (proj2 (proj2 (teamsWithCalendars_registers _ _ _ _ _ _ Hlisting))).
Qed.

(** The allowed user is signed in and has one team. *)
Lemma listed_feeds_are_registered_witness :
  let outcome :=
    handleTeamsApi Reference.runtime Portal.world Sample.env Portal.allowed
      Portal.stringify (Portal.get "/api/teams" None) (Portal.state []) in
  exists userEmail listing,
    resp_body (match fst outcome with Ok r => r | Throw _ => mkResponse 0 None [] end)
    = Some (Portal.stringify
              (Obj [("user", Obj [("email", Leaf userEmail)]);
                    ("teams", Arr (map (team_json "https://calsnap.example") listing))]))
    /\ forall t, In t listing ->
         is_Some (kv (snd outcome) !! token_key (tc_all t))
         /\ is_Some (kv (snd outcome) !! token_key (tc_games t)).
Proof.
  intros outcome.
  apply (listed_feeds_are_registered Reference.runtime Portal.world Sample.env Portal.allowed
           Portal.stringify (Portal.get "/api/teams" None) (Portal.state [])).
  - run_model.
  - run_model.
Defined.


(** ** The settings of a team *)

(** Requests that are refused change nothing: when the settings endpoint
    answers 400 or 405, the store, the calls and the clock reads are the
    ones before. *)
Theorem refused_settings_change_nothing (rt : Runtime) (w : World) (env : Env)
    (stringify : JsonTree -> string) (request : ApiRequest) (st st' : State) (r : Response) :
  handleTeamSettingsApi rt w env stringify request st = (Ok r, st') ->
  resp_status r = 400 \/ resp_status r = 405 ->
  st' = st.
Proof.
  unfold handleTeamSettingsApi. intros H Hstatus.
  assert (Hok : resp_status r <> 200) by (destruct Hstatus as [-> | ->]; discriminate).
  destruct (String.eqb (req_method request) "GET").
  { destruct (negb (truthy (of_kv (req_teamId request)))); [now injection H as _ <-|].
    apply bind_inv in H. destruct H as (customName & st1 & _ & H).
    apply bind_inv in H. destruct H as (removeOpponentNames & st2 & _ & H).
    injection H as <- _. now contradiction Hok. }
  destruct (String.eqb (req_method request) "POST"); [|now injection H as _ <-].
  destruct (req_body request) as [parsed|]; [|discriminate H].
  assert (Hpost :
    (if negb (truthy (prop parsed "teamId")) then ret (error_response stringify 400 "Missing teamId")
     else
       do _ <- (if truthy (prop parsed "customName")
                then kv_put (custom_name_key (ToString (prop parsed "teamId")))
                       (prop parsed "customName") JUndefined
                else kv_delete (custom_name_key (ToString (prop parsed "teamId"))));
       do _ <- (if negb (bool_decide (prop parsed "removeOpponentNames" = JUndefined)) then
                  if truthy (prop parsed "removeOpponentNames")
                  then kv_put (remove_opponents_key (ToString (prop parsed "teamId")))
                         (JStr "true") JUndefined
                  else kv_delete (remove_opponents_key (ToString (prop parsed "teamId")))
                else ret tt);
       do _ <- invalidate_feeds rt w env (prop parsed "teamId");
       ret (json_response stringify 200 (Obj [("success", Leaf (JBool true))]))) st
    = (Ok r, st')).
  { destruct parsed as [[]|]; first [exact H | discriminate H]. }
  clear H. destruct (negb (truthy (prop parsed "teamId"))); [now injection Hpost as _ <-|].
  apply bind_inv in Hpost. destruct Hpost as (? & st1 & _ & H).
  apply bind_inv in H. destruct H as (? & st2 & _ & H).
  apply bind_inv in H. destruct H as (? & st3 & _ & H).
  injection H as <- _. now contradiction Hok.
Qed.

(** A POST without [teamId]. *)
Lemma refused_settings_change_nothing_witness :
  snd (handleTeamSettingsApi Reference.runtime Portal.world Sample.env Portal.stringify
         (Portal.post "/api/team-settings" (JObject ∅)) (Portal.state []))
  = Portal.state [].
Proof.
  apply (refused_settings_change_nothing Reference.runtime Portal.world Sample.env
           Portal.stringify (Portal.post "/api/team-settings" (JObject ∅)) (Portal.state [])
           _ (error_response Portal.stringify 400 "Missing teamId")).
  - run_model.
  - left. reflexivity.
Defined.

Lemma string_of_Z_nonempty n : string_of_Z n <> "".
Proof.
  unfold string_of_Z. destruct (Z.to_int n) as [d|d]; cbn.
  - unfold NilZero.string_of_uint. destruct d; discriminate.
  - discriminate.
Qed.

Lemma ToString_truthy v : truthy v = true -> ToString v <> "".
Proof.
  destruct v as [| |[]|n|s]; cbn; try discriminate.
  - intros _. apply string_of_Z_nonempty.
  - destruct (String.eqb_spec s ""); [discriminate | now intros _].
Qed.

Ltac keys_differ :=
  let H := fresh in
  intros H;
  unfold custom_name_key, remove_opponents_key, token_key, lastUpdateKey, cacheKey in H;
  simpl in H; discriminate H.

(** The keys the cache invalidation leaves alone: all but the OAuth keys
    and the cached pairs. *)
Lemma invalidate_feeds_keeps rt w env teamId st r st' k :
  invalidate_feeds rt w env teamId st = (r, st') ->
  k <> "oauth_access_token" -> k <> "oauth_refresh_token" -> k <> "oauth_expires_at" ->
  (forall calendarId, k <> cacheKey calendarId /\ k <> lastUpdateKey calendarId) ->
  kv st' !! k = kv st !! k.
Proof.
  unfold invalidate_feeds. intros H H1 H2 H3 Hcache.
  pose proof (oauth_only_fetchTeamSnapData w env ("/teams/" +:+ ToString teamId)) as Hfetch.
  apply bind_cases in H. destruct H as [(teamData & st1 & Efetch & H) | (e & Efetch & _)].
  2:{ exact (Hfetch _ _ _ Efetch k H1 H2 H3). }
  rewrite <- (Hfetch _ _ _ Efetch k H1 H2 H3).
  apply bind_cases in H. destruct H as [(teamName & st2 & Ename & H) | (e & Ename & _)].
  2:{ destruct teamData as [[[[[[|it rest]|]]|] ? ? ?]|]; now injection Ename as _ <-. }
  assert (st2 = st1) as ->.
  { destruct teamData as [[[[[[|it rest]|]]|] ? ? ?]|]; now injection Ename as _ <-. }
  destruct (truthy teamName); [|now injection H as _ <-].
  unfold bind, kv_delete in H. injection H as _ <-. cbn [kv].
  rewrite !lookup_delete_ne; [reflexivity | ..]; intros E; symmetry in E; revert E;
    apply Hcache.
Qed.

(** What a client posts, a later GET returns: after a POST of a custom name
    and of the opponent switch for a team has been answered, the GET of the
    settings of that team returns both, and changes nothing. *)
Theorem posted_settings_are_returned (rt : Runtime) (w w' : World) (env : Env)
    (stringify : JsonTree -> string) (post get : ApiRequest) (st st' : State) (r : Response)
    (parsed : Json) (c : string) (b : bool) :
  req_method post = "POST" -> req_body post = Some parsed ->
  truthy (prop parsed "teamId") = true ->
  prop parsed "customName" = JStr c -> c <> "" ->
  prop parsed "removeOpponentNames" = JBool b ->
  handleTeamSettingsApi rt w env stringify post st = (Ok r, st') ->
  req_method get = "GET" -> req_teamId get = Some (ToString (prop parsed "teamId")) ->
  handleTeamSettingsApi rt w' env stringify get st'
  = (Ok (json_response stringify 200 (settings_json (JStr c) b)), st').
Proof.
  intros Hpost Hbody Hid Hname Hne Hswitch Hrun Hget Hteam.
  set (teamId := ToString (prop parsed "teamId")) in *.
  assert (Hstored : kv st' !! custom_name_key teamId = Some c
                    /\ kv st' !! remove_opponents_key teamId
                       = if b then Some "true" else None).
  { unfold handleTeamSettingsApi in Hrun. rewrite Hpost, Hbody in Hrun.
    cbn [String.eqb Ascii.eqb Bool.eqb] in Hrun.
    destruct parsed as [v|o]; [destruct v; discriminate Hname|].
    rewrite Hid, Hname, Hswitch in Hrun. fold teamId in Hrun.
    cbn [negb truthy] in Hrun.
    destruct (String.eqb_spec c "") as [|_]; [contradiction|]. cbn [negb] in Hrun.
    unfold bind at 1, kv_put at 1 in Hrun. cbn [valid_ttl] in Hrun.
    destruct (bool_decide_reflect (JBool b = JUndefined)) as [|_]; [discriminate|].
    cbn [negb] in Hrun.
    assert (Hinv : forall st1,
               (do _ <- invalidate_feeds rt w env (prop (JObject o) "teamId");
                ret (json_response stringify 200 (Obj [("success", Leaf (JBool true))]))) st1
               = (Ok r, st') ->
               forall k, k = custom_name_key teamId \/ k = remove_opponents_key teamId ->
                         kv st' !! k = kv st1 !! k).
    { intros st1 H k Hk. apply bind_inv in H. destruct H as ([] & st2 & Hinv & H).
      injection H as _ <-.
      apply (invalidate_feeds_keeps _ _ _ _ _ _ _ _ Hinv);
        destruct Hk as [-> | ->]; try keys_differ; intros calendarId; split; keys_differ. }
    destruct b;
      [unfold bind at 1, kv_put at 1 in Hrun | unfold bind at 1, kv_delete at 1 in Hrun];
      cbn [valid_ttl kv calls ticks] in Hrun.
    - split; rewrite (Hinv _ Hrun) by tauto; cbn [kv].
      + rewrite lookup_insert_ne by keys_differ. apply lookup_insert_eq.
      + apply lookup_insert_eq.
    - split; rewrite (Hinv _ Hrun) by tauto; cbn [kv].
      + rewrite lookup_delete_ne by keys_differ. apply lookup_insert_eq.
      + apply lookup_delete_eq. }
  destruct Hstored as [Hc Hb].
  unfold handleTeamSettingsApi. rewrite Hget, Hteam. cbn [String.eqb Ascii.eqb Bool.eqb].
  cbn [of_kv truthy ToString]. fold teamId.
  destruct (String.eqb_spec teamId "") as [E|_].
  { exfalso. exact (ToString_truthy _ Hid E). }
  cbn [negb]. unfold bind, kv_get. rewrite Hc, Hb. destruct b; reflexivity.
Qed.

(** The sample settings for team 1, posted and read back. *)
Lemma posted_settings_are_returned_witness :
  let st' :=
    snd (handleTeamSettingsApi Reference.runtime Portal.world Sample.env Portal.stringify
           (Portal.post "/api/team-settings" Portal.settings) (Portal.state [])) in
  handleTeamSettingsApi Reference.runtime Portal.world Sample.env Portal.stringify
    (Portal.get "/api/team-settings" (Some "1")) st'
  = (Ok (json_response Portal.stringify 200 (settings_json (JStr "Cats") true)), st').
Proof.
  intros st'.
  apply (posted_settings_are_returned Reference.runtime Portal.world Portal.world Sample.env
           Portal.stringify (Portal.post "/api/team-settings" Portal.settings)
           (Portal.get "/api/team-settings" (Some "1")) (Portal.state []) st'
           (json_response Portal.stringify 200 (Obj [("success", Leaf (JBool true))]))
           Portal.settings "Cats" true).
  - reflexivity.
  - reflexivity.
  - run_model.
  - run_model.
  - discriminate.
  - run_model.
  - run_model.
  - reflexivity.
  - run_model.
Defined.

(** A change of the settings drops the cached feeds: when a POST of
    settings is answered and the upstream, asked for the team once the
    settings are written, names it, neither the cached document nor the
    cached watermark of the team's two feeds is in the store afterwards. *)
Theorem settings_post_drops_cached_feeds (rt : Runtime) (w : World) (env : Env)
    (stringify : JsonTree -> string) (post : ApiRequest) (st st' : State) (r : Response)
    (parsed : Json) :
  req_method post = "POST" -> req_body post = Some parsed ->
  truthy (prop parsed "teamId") = true ->
  handleTeamSettingsApi rt w env stringify post st = (Ok r, st') ->
  exists st0 teamData st1,
    settings_written (ToString (prop parsed "teamId")) st st0
    /\ fetchTeamSnapData w env ("/teams/" +:+ ToString (prop parsed "teamId")) st0
       = (Ok teamData, st1)
    /\ forall teamName filterType,
         named_by teamData teamName -> truthy teamName = true ->
         filterType = "all" \/ filterType = "games" ->
         let token := generateCalendarToken rt env (prop parsed "teamId") filterType teamName in
         kv st' !! cacheKey token = None /\ kv st' !! lastUpdateKey token = None.
Proof.
  intros Hpost Hbody Hid Hrun.
  unfold handleTeamSettingsApi in Hrun. rewrite Hpost, Hbody in Hrun.
  cbn [String.eqb Ascii.eqb Bool.eqb] in Hrun.
  destruct parsed as [v|o]; [destruct v; discriminate Hid|].
  rewrite Hid in Hrun. cbn [negb] in Hrun.
  set (teamId := prop (JObject o) "teamId") in *.
  apply bind_inv in Hrun. destruct Hrun as ([] & st1 & Hname & Hrun).
  apply bind_inv in Hrun. destruct Hrun as ([] & st2 & Hswitch & Hrun).
  apply bind_inv in Hrun. destruct Hrun as ([] & st3 & Hinv & Hrun).
  injection Hrun as _ <-.
  assert (H1 : settings_written (ToString teamId) st st1).
  { destruct (truthy (prop (JObject o) "customName")).
    - apply kv_put_inv in Hname. destruct Hname as (s & _ & ->). repeat split.
      intros k Hk _. cbn [kv]. now rewrite lookup_insert_ne by congruence.
    - injection Hname as <-. repeat split.
      intros k Hk _. cbn [kv]. now rewrite lookup_delete_ne by congruence. }
  assert (H2 : settings_written (ToString teamId) st st2).
  { destruct H1 as (Hc & Ht & Hk).
    destruct (negb (bool_decide (prop (JObject o) "removeOpponentNames" = JUndefined)));
      [|injection Hswitch as <-; repeat split; assumption].
    destruct (truthy (prop (JObject o) "removeOpponentNames")).
    - apply kv_put_inv in Hswitch. destruct Hswitch as (s & _ & ->). repeat split; try assumption.
      intros k Hk1 Hk2. cbn [kv]. rewrite lookup_insert_ne by congruence. now apply Hk.
    - injection Hswitch as <-. repeat split; try assumption.
      intros k Hk1 Hk2. cbn [kv]. rewrite lookup_delete_ne by congruence. now apply Hk. }
  unfold invalidate_feeds in Hinv.
  apply bind_inv in Hinv. destruct Hinv as (teamData & st4 & Hfetch & Hinv).
  exists st2, teamData, st4. split; [exact H2|]. split; [exact Hfetch|].
  intros teamName filterType (doc & it & rest & -> & Hcoll & Hit) Htruthy Hfilter token.
  destruct doc as [coll ? ? ?]. cbn [collection] in Hcoll. subst coll.
  apply bind_inv in Hinv. destruct Hinv as (teamName' & st5 & Hlift & Hinv).
  apply lift_inv in Hlift. destruct Hlift as [Hlift ->].
  rewrite Hit in Hlift. injection Hlift as <-. rewrite Htruthy in Hinv.
  unfold bind, kv_delete in Hinv. injection Hinv as <-. cbn [kv]. subst token.
  destruct Hfilter as [-> | ->]; split; rewrite !lookup_delete_None; tauto.
Qed.

(** The sample settings for team 1: both feeds of the Tigers leave the
    cache. *)
Lemma settings_post_drops_cached_feeds_witness :
  let st :=
    Portal.state [(cacheKey Sample.token, "BEGIN:VCALENDAR");
                  (lastUpdateKey Sample.token, "1700000000000")] in
  let st' :=
    snd (handleTeamSettingsApi Reference.runtime Portal.world Sample.env Portal.stringify
           (Portal.post "/api/team-settings" Portal.settings) st) in
  exists st0 teamData st1,
    settings_written "1" st st0
    /\ fetchTeamSnapData Portal.world Sample.env "/teams/1" st0 = (Ok teamData, st1)
    /\ forall teamName filterType,
         named_by teamData teamName -> truthy teamName = true ->
         filterType = "all" \/ filterType = "games" ->
         let token :=
           generateCalendarToken Reference.runtime Sample.env (JNum 1) filterType teamName in
         kv st' !! cacheKey token = None /\ kv st' !! lastUpdateKey token = None.
Proof.
  intros st st'.
  apply (settings_post_drops_cached_feeds Reference.runtime Portal.world Sample.env
           Portal.stringify (Portal.post "/api/team-settings" Portal.settings) st st'
           (json_response Portal.stringify 200 (Obj [("success", Leaf (JBool true))]))
           Portal.settings).
  - reflexivity.
  - reflexivity.
  - run_model.
  - run_model.
Defined.

(** The settings are written before the team is looked up, and the lookup
    is not guarded: when the request for the team does not get through, the
    POST ends in the exception of [fetch], and the custom name is stored
    all the same. *)
Theorem settings_outlast_a_failed_lookup (rt : Runtime) (w : World) (env : Env)
    (stringify : JsonTree -> string) (post : ApiRequest) (st : State) (parsed : Json)
    (c a : string) :
  req_method post = "POST" -> req_body post = Some parsed ->
  truthy (prop parsed "teamId") = true ->
  prop parsed "customName" = JStr c -> c <> "" ->
  kv st !! "oauth_access_token" = Some a -> a <> "" ->
  net w (calls st)
    (ApiGet (TEAMSNAP_API_URL +:+ "/teams/" +:+ ToString (prop parsed "teamId")) a)
  = NetFail ->
  exists st',
    handleTeamSettingsApi rt w env stringify post st = (Throw NetworkError, st')
    /\ kv st' !! custom_name_key (ToString (prop parsed "teamId")) = Some c.
Proof.
  intros Hpost Hbody Hid Hname Hne Htoken Ha Hnet.
  unfold handleTeamSettingsApi. rewrite Hpost, Hbody.
  cbn [String.eqb Ascii.eqb Bool.eqb].
  destruct parsed as [v|o]; [destruct v; discriminate Hid|].
  rewrite Hid, Hname. cbn [negb truthy].
  destruct (String.eqb_spec c "") as [|_]; [contradiction|]. cbn [negb].
  set (teamId := prop (JObject o) "teamId") in *.
  unfold bind at 1, kv_put at 1. cbn [valid_ttl].
  set (st1 := mkState (<[custom_name_key (ToString teamId) := c]> (kv st)) (calls st) (ticks st)).
  assert (Hswitch : exists st2,
             (if negb (bool_decide (prop (JObject o) "removeOpponentNames" = JUndefined)) then
                if truthy (prop (JObject o) "removeOpponentNames")
                then kv_put (remove_opponents_key (ToString teamId)) (JStr "true") JUndefined
                else kv_delete (remove_opponents_key (ToString teamId))
              else ret tt) st1 = (Ok tt, st2)
             /\ calls st2 = calls st
             /\ kv st2 !! "oauth_access_token" = Some a
             /\ kv st2 !! custom_name_key (ToString teamId) = Some c).
  { assert (Hc : kv st1 !! custom_name_key (ToString teamId) = Some c)
      by apply lookup_insert_eq.
    assert (Hat : kv st1 !! "oauth_access_token" = Some a).
    { cbn [st1 kv]. rewrite lookup_insert_ne by keys_differ. exact Htoken. }
    destruct (negb (bool_decide (prop (JObject o) "removeOpponentNames" = JUndefined)));
      [|now exists st1].
    destruct (truthy (prop (JObject o) "removeOpponentNames")).
    - eexists. split; [reflexivity|]. cbn [kv calls]. split; [reflexivity|].
      split; rewrite lookup_insert_ne by keys_differ; assumption.
    - eexists. split; [reflexivity|]. cbn [kv calls]. split; [reflexivity|].
      split; rewrite lookup_delete_ne by keys_differ; assumption. }
  destruct Hswitch as (st2 & Hrun2 & Hcalls & Hat & Hc).
  unfold bind at 1. rewrite Hrun2.
  unfold bind at 1, invalidate_feeds, bind at 1, fetchTeamSnapData, bind at 1, kv_get.
  rewrite Hat. cbn [of_kv truthy].
  destruct (String.eqb_spec a "") as [|_]; [contradiction|]. cbn [negb].
  unfold bind at 1, ret at 1, bind at 1, fetch. rewrite Hcalls. cbn [ToString].
  rewrite Hnet. eexists. split; [reflexivity | exact Hc].
Qed.

(** The upstream cannot be reached. *)
Lemma settings_outlast_a_failed_lookup_witness :
  let offline := mkWorld (fun _ _ => NetFail) (fun _ => 1704067200000) in
  exists st',
    handleTeamSettingsApi Reference.runtime offline Sample.env Portal.stringify
      (Portal.post "/api/team-settings" Portal.settings) (Portal.state [])
    = (Throw NetworkError, st')
    /\ kv st' !! custom_name_key (ToString (prop Portal.settings "teamId")) = Some "Cats".
Proof.
  intros offline.
  apply (settings_outlast_a_failed_lookup Reference.runtime offline Sample.env Portal.stringify
           (Portal.post "/api/team-settings" Portal.settings) (Portal.state [])
           Portal.settings "Cats" "at").
  - reflexivity.
  - reflexivity.
  - run_model.
  - run_model.
  - discriminate.
  - run_model.
  - discriminate.
  - reflexivity.
Defined.

(** ** The router *)

Lemma drop_length_append x y : drop (String.length x) (x +:+ y) = y.
Proof. induction x as [|a x IH]; [now destruct y | exact IH]. Qed.

Lemma take_length_append x y : take (String.length x) (x +:+ y) = x.
Proof. induction x as [|a x IH]; [now destruct y | simpl; now rewrite IH]. Qed.

Lemma ends_with_append x suffix : ends_with suffix (x +:+ suffix) = true.
Proof.
  unfold ends_with. rewrite length_append.
  replace (String.length x + String.length suffix - String.length suffix)%nat
    with (String.length x) by lia.
  rewrite drop_length_append, String.eqb_refl, andb_true_r. apply Nat.leb_le. lia.
Qed.

Lemma ends_with_other x suffix other :
  String.length other = String.length suffix -> other <> suffix ->
  ends_with suffix (x +:+ other) = false.
Proof.
  intros Hlen Hne. unfold ends_with. rewrite length_append, <- Hlen.
  replace (String.length x + String.length other - String.length other)%nat
    with (String.length x) by lia.
  rewrite drop_length_append. apply andb_false_iff. right. now apply String.eqb_neq.
Qed.

Lemma calendarId_of_address token ext :
  String.length ext = 4%nat -> calendarId_of ("/" +:+ token +:+ ext) = token.
Proof.
  intros Hext. unfold calendarId_of, substring.
  change ("/" +:+ token +:+ ext) with (String "/" (token +:+ ext)).
  cbn [String.length]. rewrite length_append, Hext.
  set (n := String.length token).
  replace (Z.min (Z.max 1 0) (Z.of_nat (S (n + 4)))) with 1 by lia.
  replace (Z.min (Z.max (Z.of_nat (S (n + 4)) - 4) 0) (Z.of_nat (S (n + 4))))
    with (Z.of_nat n + 1) by lia.
  replace (Z.to_nat (Z.max 1 (Z.of_nat n + 1) - Z.min 1 (Z.of_nat n + 1))) with n by lia.
  replace (Z.to_nat (Z.min 1 (Z.of_nat n + 1))) with 1%nat by lia.
  cbn [drop]. apply take_length_append.
Qed.

Lemma ends_with_address token ext : ends_with ext ("/" +:+ token +:+ ext) = true.
Proof. exact (ends_with_append ("/" +:+ token) ext). Qed.

Lemma ends_with_other_address token ext other :
  String.length other = String.length ext -> other <> ext ->
  ends_with ext ("/" +:+ token +:+ other) = false.
Proof. exact (ends_with_other ("/" +:+ token) ext other). Qed.

Lemma starts_with_extension pat token rest :
  has_char "." pat = false -> starts_with eq_exact pat token = false ->
  starts_with eq_exact pat (token +:+ String "." rest) = false.
Proof.
  revert token. induction pat as [|p pat IH]; intros token Hdot H; [discriminate H|].
  cbn [has_char] in Hdot. apply orb_false_iff in Hdot. destruct Hdot as [Hp Hpat].
  destruct token as [|a token].
  - cbn. unfold eq_exact. now rewrite Hp.
  - cbn [starts_with] in H. cbn. apply andb_false_iff in H. apply andb_false_iff.
    destruct H as [H|H]; [now left | right; now apply IH].
Qed.

(** The address of a feed reaches [serveCalendar] with its token: a request
    for the path /<token>.ics, as the listing hands it out, is answered by
    [serveCalendar] for that token, and the path /<token>.txt by the same
    with the text format forced.  No authentication check comes before,
    whatever the method and the rest of the request; only a token that
    begins with "api/" is routed elsewhere. *)
Theorem feed_address_is_served (rt : Runtime) (w : World) (env : Env) (allowed : JsVal)
    (stringify : JsonTree -> string) (settingsHTML : string)
    (handleOAuthCallback : ApiRequest -> M Response)
    (method origin : string) (teamId : option string) (body : option Json) (feed : Request)
    (token : string) :
  starts_with eq_exact "api/" token = false ->
  worker_fetch rt w env allowed stringify settingsHTML handleOAuthCallback
    (mkApiRequest method origin ("/" +:+ token +:+ ".ics") teamId body feed)
  = serveCalendar rt w env feed token false
  /\ worker_fetch rt w env allowed stringify settingsHTML handleOAuthCallback
       (mkApiRequest method origin ("/" +:+ token +:+ ".txt") teamId body feed)
     = serveCalendar rt w env feed token true.
Proof.
  intros Hapi. unfold worker_fetch. cbn [req_pathname req_feed].
  assert (Hroute : forall ext,
             starts_with eq_exact "/api/" ("/" +:+ token +:+ String "." ext) = false).
  { intros ext. change (starts_with eq_exact "api/" (token +:+ String "." ext) = false).
    now apply starts_with_extension. }
  split.
  - rewrite (Hroute "ics"). now rewrite ends_with_address, calendarId_of_address.
  - rewrite (Hroute "txt").
    rewrite ends_with_other_address, ends_with_address by (reflexivity || discriminate).
    now rewrite calendarId_of_address.
Qed.

(** The address of the sample feed. *)
Lemma feed_address_is_served_witness :
  worker_fetch Reference.runtime Portal.world Sample.env Portal.allowed Portal.stringify ""
    (fun _ => throw TypeError)
    (mkApiRequest "GET" "https://calsnap.example" ("/" +:+ Sample.token +:+ ".ics") None None
       Sample.plain)
  = serveCalendar Reference.runtime Portal.world Sample.env Sample.plain Sample.token false
  /\ worker_fetch Reference.runtime Portal.world Sample.env Portal.allowed Portal.stringify ""
       (fun _ => throw TypeError)
       (mkApiRequest "GET" "https://calsnap.example" ("/" +:+ Sample.token +:+ ".txt") None None
          Sample.plain)
     = serveCalendar Reference.runtime Portal.world Sample.env Sample.plain Sample.token true.
Proof.
  apply (feed_address_is_served Reference.runtime Portal.world Sample.env Portal.allowed
           Portal.stringify "" (fun _ => throw TypeError) "GET" "https://calsnap.example"
           None None Sample.plain Sample.token).
  run_model.
Defined.

(** No API without a stored access token: whatever the method, the body
    and the rest of the path, a request under /api/ is answered 401 while no
    access token is stored, also when its path ends like that of a feed; no
    request is sent upstream and the store is not touched. *)
Theorem api_requires_stored_token (rt : Runtime) (w : World) (env : Env) (allowed : JsVal)
    (stringify : JsonTree -> string) (settingsHTML : string)
    (handleOAuthCallback : ApiRequest -> M Response) (request : ApiRequest) (st : State) :
  starts_with eq_exact "/api/" (req_pathname request) = true ->
  truthy (of_kv (kv st !! "oauth_access_token")) = false ->
  worker_fetch rt w env allowed stringify settingsHTML handleOAuthCallback request st
  = (Ok (error_response stringify 401 "Not authenticated"), st).
Proof.
  intros Hapi Htoken. unfold worker_fetch. rewrite Hapi. unfold handleApiRequest.
  now rewrite (bind_Ok _ _ _ _ _ (isAuthenticated_without_token w env st Htoken)).
Qed.

(** A POST of settings to a path that ends in .ics, with nothing stored. *)
Lemma api_requires_stored_token_witness :
  worker_fetch Reference.runtime Portal.world Sample.env Portal.allowed Portal.stringify ""
    (fun _ => throw TypeError) (Portal.post "/api/team-settings.ics" Portal.settings)
    (mkState ∅ [] 0)
  = (Ok (error_response Portal.stringify 401 "Not authenticated"), mkState ∅ [] 0).
Proof.
  apply (api_requires_stored_token Reference.runtime Portal.world Sample.env Portal.allowed
           Portal.stringify "" (fun _ => throw TypeError)
           (Portal.post "/api/team-settings.ics" Portal.settings) (mkState ∅ [] 0));
    reflexivity.
Defined.

(** Without a stored access token every page leads to the sign-in: a
    request that is not for the API, a feed or the OAuth callback is
    redirected to the authorization page of TeamSnap, the settings page
    included; no request is sent upstream and the store is not touched. *)
Theorem visitors_are_sent_to_sign_in (rt : Runtime) (w : World) (env : Env) (allowed : JsVal)
    (stringify : JsonTree -> string) (settingsHTML : string)
    (handleOAuthCallback : ApiRequest -> M Response) (request : ApiRequest) (st : State) :
  starts_with eq_exact "/api/" (req_pathname request) = false ->
  ends_with ".ics" (req_pathname request) = false ->
  ends_with ".txt" (req_pathname request) = false ->
  req_pathname request <> "/auth-callback" ->
  truthy (of_kv (kv st !! "oauth_access_token")) = false ->
  worker_fetch rt w env allowed stringify settingsHTML handleOAuthCallback request st
  = (Ok (redirect
           (TEAMSNAP_OAUTH_URL +:+ "?"
              +:+ form_urlencoded
                    [("client_id", ToString (TEAMSNAP_CLIENT_ID env));
                     ("redirect_uri", req_origin request +:+ "/auth-callback");
                     ("response_type", "code")])),
     st).
Proof.
  intros Hapi Hics Htxt Hcallback Htoken. unfold worker_fetch.
  rewrite Hapi, Hics, Htxt.
  destruct (String.eqb_spec (req_pathname request) "/auth-callback") as [|_]; [contradiction|].
  pose proof (isAuthenticated_without_token w env st Htoken) as Hauth.
  destruct (String.eqb (req_pathname request) "/");
    [now rewrite (bind_Ok _ _ _ _ _ Hauth)|].
  destruct (String.eqb (req_pathname request) "/settings");
    now rewrite (bind_Ok _ _ _ _ _ Hauth).
Qed.

(** The settings page, with nothing stored. *)
Lemma visitors_are_sent_to_sign_in_witness :
  worker_fetch Reference.runtime Portal.world Sample.env Portal.allowed Portal.stringify ""
    (fun _ => throw TypeError) (Portal.get "/settings" None) (mkState ∅ [] 0)
  = (Ok (redirect
           ("https://auth.teamsnap.com/oauth/authorize?client_id=client-id"
              +:+ "&redirect_uri=https%3A%2F%2Fcalsnap.example%2Fauth-callback"
              +:+ "&response_type=code")),
     mkState ∅ [] 0).
Proof.
  apply (visitors_are_sent_to_sign_in Reference.runtime Portal.world Sample.env Portal.allowed
           Portal.stringify "" (fun _ => throw TypeError) (Portal.get "/settings" None)
           (mkState ∅ [] 0)); try reflexivity.
  discriminate.
Defined.

(** ** Feeds with an update time *)

Lemma token_key_not_cached calendarId :
  token_key calendarId <> cacheKey calendarId
  /\ token_key calendarId <> lastUpdateKey calendarId.
Proof.
  unfold token_key, lastUpdateKey, cacheKey.
  split; intros H; apply (f_equal String.length) in H; rewrite !length_append in H;
    simpl in H; lia.
Qed.

Lemma render_nonempty rt w env teamId actualTeamName events st icsContent st' :
  render rt w env teamId actualTeamName events st = (Ok icsContent, st') -> icsContent <> "".
Proof.
  unfold render. intros H.
  apply bind_inv in H. destruct H as (customTeamName & st1 & _ & H).
  apply bind_inv in H. destruct H as (ics & st2 & _ & H).
  injection H as <- _. intros E. apply (f_equal String.length) in E.
  rewrite length_append in E. simpl in E. lia.
Qed.

Lemma render_and_respond_positive rt w env request calendarId forceText teamId filterType
    actualTeamName events latest st2 icsContent st3 :
  render rt w env teamId actualTeamName events st2 = (Ok icsContent, st3) ->
  0 < latest ->
  exists contentHeaders,
    render_and_respond rt w env request calendarId forceText teamId filterType actualTeamName
      events latest st2
    = (Ok (mkResponse 200 (Some icsContent)
             (freshness_headers rt (TimeClip latest)
                (make_etag calendarId (string_of_Z latest))
              ++ contentHeaders)),
       mkState (<[lastUpdateKey calendarId := string_of_Z latest]>
                  (<[cacheKey calendarId := icsContent]> (kv st3)))
         (calls st3) (ticks st3)).
Proof.
  intros Hrender Hpos. unfold render_and_respond.
  rewrite (bind_Ok _ _ _ _ _ Hrender).
  destruct (Z.ltb_spec 0 latest) as [_|]; [|lia].
  destruct (Z.eqb_spec latest 0) as [|_]; [lia|]. cbn [negb].
  unfold bind, ret, kv_put. cbn [valid_ttl Z.leb Z.compare kv calls ticks].
  destruct (forceText || param_is (q_format request) "text"); eexists; reflexivity.
Qed.

(** A feed whose events carry an update time is cached and revalidates:
    when the request is not answered from the cache, the new document is
    served with the ETag of the watermark and stored with the watermark, and
    the same feed requested again with that ETag in If-None-Match, without a
    bypass flag, is answered 304 without a request upstream and without a
    write, whatever the upstream and the clock are by then. *)
Theorem rendered_feed_is_cached (rt : Runtime) (w : World) (env : Env) (request : Request)
    (calendarId : string) (forceText : bool) (st st2 st3 : State) (tokenData : Json)
    (actualTeamName : JsVal) (eventsData : option JsonDoc) (icsContent : string) :
  let teamId := prop tokenData "teamId" in
  let filterType := prop tokenData "filterType" in
  let cachedIcs := read_cache request st (cacheKey calendarId) in
  let cachedLastUpdate := read_cache request st (lastUpdateKey calendarId) in
  let st1 := after_refresh request calendarId st in
  let events := feed_events filterType eventsData in
  let latest := latest_update rt events in
  let etag := make_etag calendarId (string_of_Z latest) in
  resolves rt st calendarId tokenData ->
  not_conditional rt request calendarId cachedIcs cachedLastUpdate ->
  fetch_phase w env teamId st1 = (Ok (inr (actualTeamName, eventsData)), st2) ->
  0 < latest ->
  cache_is_fresh cachedIcs cachedLastUpdate latest = false ->
  render rt w env teamId actualTeamName events st2 = (Ok icsContent, st3) ->
  exists contentHeaders final,
    serveCalendar rt w env request calendarId forceText st
    = (Ok (mkResponse 200 (Some icsContent)
             (freshness_headers rt (TimeClip latest) etag ++ contentHeaders)),
       final)
    /\ cached_pair final calendarId icsContent (string_of_Z latest)
    /\ forall (w' : World) (forceText' : bool) (again : Request),
         no_bypass again -> h_if_none_match again = Some etag ->
         exists headers,
           serveCalendar rt w' env again calendarId forceText' final
           = (Ok (mkResponse 304 None headers), final).
Proof.
  intros teamId filterType cachedIcs cachedLastUpdate st1 events latest etag
    Hres Hcond Hfetch Hpos Hstale Hrender.
  destruct (render_and_respond_positive rt w env request calendarId forceText teamId
              filterType actualTeamName events latest st2 icsContent st3 Hrender Hpos)
    as (contentHeaders & Hresp).
  exists contentHeaders. eexists. split; [|split].
  - assert (Htruthy : truthy_json tokenData = true)
      by (destruct Hres as (? & _ & _ & _ & H); exact H).
    rewrite (serveCalendar_resolved _ _ _ _ _ _ _ _
               (parseCalendarToken_resolves _ _ _ _ Hres) Htruthy).
    cbv zeta. unfold not_conditional in Hcond. fold cachedIcs cachedLastUpdate. rewrite Hcond.
    fold st1 teamId. rewrite Hfetch. unfold serve_events.
    fold filterType. fold (feed_events filterType eventsData). fold events. fold latest.
    fold cachedIcs cachedLastUpdate. rewrite Hstale. exact Hresp.
  - unfold cached_pair. cbn [kv].
    destruct (token_key_not_cached calendarId) as [_ _].
    assert (Hkeys : cacheKey calendarId <> lastUpdateKey calendarId).
    { unfold lastUpdateKey. intros E. apply (f_equal String.length) in E.
      rewrite length_append in E. simpl in E. lia. }
    rewrite lookup_insert_ne by congruence. rewrite !lookup_insert_eq.
    split; [reflexivity|]. split; [exact (render_nonempty _ _ _ _ _ _ _ _ _ Hrender)|].
    split; [reflexivity | apply string_of_Z_nonempty].
  - intros w' forceText' again (Hoff & Hrefresh) Hmatch.
    set (final := mkState _ _ _).
    assert (Hres' : resolves rt final calendarId tokenData).
    { destruct Hres as (mapping & Hmap & Hrest). exists mapping. split; [|exact Hrest].
      destruct (token_key_not_cached calendarId) as [Hc Hl].
      unfold final. cbn [kv]. rewrite !lookup_insert_ne by congruence.
      assert (Hframe : same_but_oauth st1 st3).
      { exact (same_but_oauth_trans _ _ _
                 (oauth_only_fetch_phase _ _ _ _ _ _ Hfetch)
                 (oauth_only_render _ _ _ _ _ _ _ _ _ Hrender)). }
      rewrite Hframe by (unfold token_key; discriminate).
      unfold st1. now rewrite lookup_after_refresh. }
    assert (Hcurrent : copy_is_current rt again calendarId (string_of_Z latest))
      by (right; exact Hmatch).
    destruct (conditional_response_current rt again calendarId icsContent (string_of_Z latest)
                (render_nonempty _ _ _ _ _ _ _ _ _ Hrender) (string_of_Z_nonempty latest)
                Hcurrent) as (headers & Hnot_modified).
    exists headers. unfold serveCalendar.
    rewrite (bind_Ok _ _ _ _ _ (parseCalendarToken_resolves _ _ _ _ Hres')).
    destruct Hres' as (_ & _ & _ & _ & Htruthy). rewrite Htruthy. cbn [negb].
    rewrite (param_is_false _ _ Hoff), (param_is_false _ _ Hrefresh). cbn [orb].
    unfold bind, kv_get, ret.
    assert (Hkeys : cacheKey calendarId <> lastUpdateKey calendarId).
    { unfold lastUpdateKey. intros E. apply (f_equal String.length) in E.
      rewrite length_append in E. simpl in E. lia. }
    unfold final at 1 2. cbn [kv].
    rewrite (lookup_insert_ne _ _ (cacheKey calendarId)) by congruence.
    rewrite !lookup_insert_eq. cbn [of_kv].
    rewrite Hnot_modified. reflexivity.
Qed.

(** One practice, updated on 2023-12-01, and nothing cached. *)
Lemma rendered_feed_is_cached_witness :
  let events :=
    [Sample.item [("id", JNum 9); ("label", JStr "Practice");
                  ("start_date", JStr "2024-01-02T17:00:00Z");
                  ("updated_at", JStr "2023-12-01T00:00:00Z")]] in
  let w := Sample.world events in
  let st := Sample.state [] in
  let etag := make_etag Sample.token "1701388800000" in
  exists icsContent contentHeaders final,
    serveCalendar Reference.runtime w Sample.env Sample.plain Sample.token false st
    = (Ok (mkResponse 200 (Some icsContent)
             (freshness_headers Reference.runtime (TimeClip 1701388800000) etag
              ++ contentHeaders)),
       final)
    /\ cached_pair final Sample.token icsContent "1701388800000"
    /\ forall (w' : World) (forceText' : bool) (again : Request),
         no_bypass again -> h_if_none_match again = Some etag ->
         exists headers,
           serveCalendar Reference.runtime w' Sample.env again Sample.token forceText' final
           = (Ok (mkResponse 304 None headers), final).
Proof.
  intros events w st etag.
  set (tokenData := JObject (mapping_object (JNum 1) "all")).
  set (st2 := snd (fetch_phase w Sample.env (prop tokenData "teamId")
                     (after_refresh Sample.plain Sample.token st))).
  set (rendered :=
         render Reference.runtime w Sample.env (prop tokenData "teamId") (JStr "Tigers")
           (feed_events (prop tokenData "filterType") (Some (Sample.api_doc events))) st2).
  assert (Hlatest : latest_update Reference.runtime
                      (feed_events (prop tokenData "filterType")
                         (Some (Sample.api_doc events))) = 1701388800000) by run_model.
  assert (Hcond : not_conditional Reference.runtime Sample.plain Sample.token
                    (read_cache Sample.plain st (cacheKey Sample.token))
                    (read_cache Sample.plain st (lastUpdateKey Sample.token))) by run_model.
  assert (Hfetch : fetch_phase w Sample.env (prop tokenData "teamId")
                     (after_refresh Sample.plain Sample.token st)
                   = (Ok (inr (JStr "Tigers", Some (Sample.api_doc events))), st2))
    by run_model.
  assert (Hstale : cache_is_fresh (read_cache Sample.plain st (cacheKey Sample.token))
                     (read_cache Sample.plain st (lastUpdateKey Sample.token))
                     (latest_update Reference.runtime
                        (feed_events (prop tokenData "filterType")
                           (Some (Sample.api_doc events)))) = false)
    by run_model.
  assert (Hrender : rendered
                    = (Ok match fst rendered with Ok s => s | Throw _ => "" end, snd rendered))
    by run_model.
  assert (Hpos : 0 < latest_update Reference.runtime
                       (feed_events (prop tokenData "filterType")
                          (Some (Sample.api_doc events))))
    by (rewrite Hlatest; reflexivity).
  destruct (rendered_feed_is_cached Reference.runtime w Sample.env Sample.plain Sample.token
              false st st2 (snd rendered) tokenData (JStr "Tigers")
              (Some (Sample.api_doc events)) _
              (sample_resolves []) Hcond Hfetch Hpos Hstale Hrender)
    as (contentHeaders & final & Hfirst & Hpair & Hagain).
  rewrite Hlatest in Hfirst, Hpair, Hagain.
  change (string_of_Z 1701388800000) with "1701388800000" in Hfirst, Hpair, Hagain.
  eexists _, contentHeaders, final.
  split; [exact Hfirst|]. split; [exact Hpair | exact Hagain].
Defined.


(** ** The structure of the document *)

Lemma starts_with_append prefix rest : starts_with eq_exact prefix (prefix +:+ rest) = true.
Proof.
  induction prefix as [|a prefix IH]; [reflexivity|].
  cbn. unfold eq_exact at 1. now rewrite Ascii.eqb_refl.
Qed.

Lemma generateEventFromTemplate_block rt w env teamId startDate endDate event fs customTitle
    st block st' :
  data event = Some fs ->
  generateEventFromTemplate rt w env teamId startDate endDate (object_of fs) customTitle st
  = (Ok block, st') ->
  block_of event block.
Proof.
  intros Hdata H. unfold block_of, event_object. rewrite Hdata.
  unfold generateEventFromTemplate in H.
  apply bind_inv in H as (d & st1 & _ & H).
  apply bind_inv in H as (updatedAt & st2 & _ & H).
  apply bind_inv in H as (dtstart & st3 & _ & H).
  apply bind_inv in H as (dtend & st4 & _ & H).
  apply bind_inv in H as (title & st5 & _ & H).
  apply bind_inv in H as (eventBlock & st6 & Hloc & H).
  apply bind_inv in H as (lastmod & st7 & _ & H).
  apply bind_inv in H as (now & st8 & _ & H).
  apply bind_inv in H as (dtstamp & st9 & _ & H).
  apply ret_inv in H as [-> _].
  assert (Hblock : exists more,
             eventBlock
             = "BEGIN:VEVENT" +:+ CRLF +:+ "UID:teamsnap-"
                 +:+ ToString (obj_prop (object_of fs) "id") +:+ "@teamsnap.com" +:+ CRLF
                 +:+ more).
  { destruct (negb (String.eqb _ "")); destruct (truthy (obj_prop (object_of fs) "location_name")).
    - apply bind_inv in Hloc as (locationText & st10 & _ & Hloc).
      apply bind_inv in Hloc as (lt & st11 & _ & Hloc).
      apply ret_inv in Hloc as [-> _]. rewrite !append_assoc. eexists. reflexivity.
    - apply ret_inv in Hloc as [-> _]. rewrite !append_assoc. eexists. reflexivity.
    - apply bind_inv in Hloc as (locationText & st10 & _ & Hloc).
      apply bind_inv in Hloc as (lt & st11 & _ & Hloc).
      apply ret_inv in Hloc as [-> _]. rewrite !append_assoc. eexists. reflexivity.
    - apply ret_inv in Hloc as [-> _]. rewrite !append_assoc. eexists. reflexivity. }
  destruct Hblock as (more & ->).
  split; [|split].
  - rewrite !append_assoc. rewrite <- (append_assoc "BEGIN:VEVENT" CRLF).
    apply starts_with_append.
  - apply ends_with_append.
  - do 4 apply has_line_left.
    exists ("BEGIN:VEVENT" +:+ CRLF), more. now rewrite !append_assoc.
Qed.

Lemma render_events_blocks rt w env teamId actualTeamName events icsContent st r st' :
  render_events rt w env teamId actualTeamName events icsContent st = (Ok r, st') ->
  exists blocks,
    r = icsContent +:+ join_blocks blocks
    /\ Forall2 block_of (List.filter has_start events) blocks.
Proof.
  revert icsContent st. induction events as [|event rest IH]; intros icsContent st H.
  - apply ret_inv in H as [-> _]. exists []. split; [now rewrite append_nil_r | constructor].
  - cbn [render_events] in H. cbn [List.filter]. unfold has_start at 1, event_object.
    destruct (data event) as [fs|] eqn:Hdata; [|discriminate H].
    destruct (truthy (obj_prop (object_of fs) "start_date")); cbn [negb] in H.
    + apply bind_inv in H as (customTitle & st1 & _ & H).
      apply bind_inv in H as (eventBlock & st2 & Hblock & H).
      destruct (IH _ _ H) as (blocks & -> & Hall).
      exists (eventBlock :: blocks). split; [cbn; now rewrite append_assoc|].
      constructor; [|exact Hall].
      exact (generateEventFromTemplate_block _ _ _ _ _ _ _ _ _ _ _ _ Hdata Hblock).
    + exact (IH _ _ H).
Qed.

(** The structure of the document: the header, then one block for each
    event that has a start date, in the order of the events, then
    END:VCALENDAR.  Each block runs from BEGIN:VEVENT to END:VEVENT and
    holds the UID of its event; an event without a start date leaves no
    trace. *)
Theorem document_structure (rt : Runtime) (w : World) (env : Env) (teamId actualTeamName : JsVal)
    (events : list Item) (st st' : State) (document : string) :
  render rt w env teamId actualTeamName events st = (Ok document, st') ->
  exists blocks,
    document
    = calendar_header
        (js_or (of_kv (kv st !! ("custom_team_name_" +:+ ToString teamId)))
           (js_or actualTeamName (JStr "")))
        +:+ join_blocks blocks +:+ "END:VCALENDAR" +:+ CRLF
    /\ Forall2 block_of (List.filter has_start events) blocks.
Proof.
  unfold render. intros H.
  apply bind_inv in H as (customTeamName & st1 & Hname & H).
  injection Hname as <- <-.
  apply bind_inv in H as (icsContent & st2 & Hevents & H).
  apply ret_inv in H as [-> _].
  destruct (render_events_blocks _ _ _ _ _ _ _ _ _ _ Hevents) as (blocks & -> & Hall).
  exists blocks. split; [now rewrite append_assoc | exact Hall].
Qed.

(** A practice with a start date and a note without one. *)
Lemma document_structure_witness :
  let practice :=
    Sample.item [("id", JNum 9); ("label", JStr "Practice");
                 ("start_date", JStr "2024-01-02T17:00:00Z")] in
  let note := Sample.item [("id", JNum 10); ("label", JStr "Note")] in
  let st := Sample.state [] in
  let rendered :=
    render Reference.runtime (Sample.world []) Sample.env (JNum 1) (JStr "Tigers")
      [note; practice] st in
  exists blocks,
    match fst rendered with Ok s => s | Throw _ => "" end
    = calendar_header
        (js_or (of_kv (kv st !! ("custom_team_name_" +:+ ToString (JNum 1))))
           (js_or (JStr "Tigers") (JStr "")))
        +:+ join_blocks blocks +:+ "END:VCALENDAR" +:+ CRLF
    /\ Forall2 block_of (List.filter has_start [note; practice]) blocks.
Proof.
  intros practice note st rendered.
  apply (document_structure Reference.runtime (Sample.world []) Sample.env (JNum 1)
           (JStr "Tigers") [note; practice] st (snd rendered)).
  run_model.
Defined.

(** ** Failures of the upstream and of the data *)

Lemma never_throws_ret {A} (a : A) : never_throws (ret a).
Proof. intros st. now exists a, st. Qed.

Lemma never_throws_bind {A B} (m : M A) (k : A -> M B) :
  never_throws m -> (forall a, never_throws (k a)) -> never_throws (bind m k).
Proof.
  intros Hm Hk st. destruct (Hm st) as (a & st1 & E).
  destruct (Hk a st1) as (b & st2 & E2). exists b, st2. unfold bind. now rewrite E.
Qed.

Lemma never_throws_kv_get k : never_throws (kv_get k).
Proof. intros st. now eexists _, st. Qed.

(** No failure of the upstream escapes the fetch phase of a feed: whatever
    the token endpoint and the API answer, and also when a request does not
    get through or a body does not parse, [serveCalendar] comes out of it
    with the answer 401, the answer 500, or the team name and the events. *)
Theorem fetch_phase_never_throws (w : World) (env : Env) (teamId : JsVal) (st : State) :
  exists outcome st',
    fetch_phase w env teamId st = (Ok outcome, st')
    /\ match outcome with
       | inl failure => resp_status failure = 401 \/ resp_status failure = 500
       | inr _ => True
       end.
Proof.
  assert (H : never_throws (fetch_phase w env teamId)).
  { unfold fetch_phase. apply never_throws_bind.
    - unfold feed_access_token. apply never_throws_bind; [apply never_throws_kv_get|].
      intros accessToken. destruct (negb (truthy accessToken)); [|apply never_throws_ret].
      apply never_throws_bind; [apply refreshAccessToken_never_throws|].
      intros [td|]; apply never_throws_ret.
    - intros [accessToken|]; [|apply never_throws_ret].
      apply never_throws_bind; [apply try_catch_never_throws|]. intros actualTeamName.
      apply never_throws_bind; [apply try_catch_never_throws|].
      intros [failure|eventsData]; apply never_throws_ret. }
  destruct (H st) as (outcome & st' & E). exists outcome, st'. split; [exact E|].
  revert E. generalize st outcome st'.
  change (returns (fun outcome => match outcome with
                                  | inl failure =>
                                      resp_status failure = 401 \/ resp_status failure = 500
                                  | inr _ => True
                                  end) (fetch_phase w env teamId)).
  unfold fetch_phase. apply returns_bind. intros [accessToken|]; [|repeat returns_step].
  apply returns_bind. intros actualTeamName.
  apply (returns_bind_post
           (fun x => match x with
                     | inl failure => resp_status failure = 500
                     | inr _ => True
                     end)).
  - unfold fetch_team_events. repeat returns_step.
  - intros [failure | eventsData] Hx; repeat returns_step.
Qed.

(** An event whose start date does not parse fails the whole feed: when the
    renderer comes to it, [toISOString] throws, nothing catches the
    RangeError, and no document is returned. *)
Theorem unparseable_start_fails_the_feed (rt : Runtime) (w : World) (env : Env)
    (teamId actualTeamName : JsVal) (event : Item) (rest : list Item) (fs : list Field)
    (icsContent : string) (st st1 : State) (customTitle : JsVal) (description : string) :
  data event = Some fs ->
  truthy (obj_prop (object_of fs) "start_date") = true ->
  new_Date rt (obj_prop (object_of fs) "start_date") = None ->
  customTitle_of teamId actualTeamName (object_of fs) st = (Ok customTitle, st1) ->
  generateEventDescription rt (object_of fs) = Ok description ->
  exists st',
    render_events rt w env teamId actualTeamName (event :: rest) icsContent st
    = (Throw RangeError, st').
Proof.
  intros Hdata Hstart Hdate Htitle Hdescription.
  cbn [render_events]. rewrite Hdata, Hstart. cbn [negb].
  rewrite (bind_Ok _ _ _ _ _ Htitle). rewrite Hdate.
  unfold generateEventFromTemplate. rewrite Hdescription.
  unfold bind at 1 2, lift at 1.
  destruct (truthy (obj_prop (object_of fs) "updated_at"));
    unfold bind, ret, Date_now, lift, formatDate; eexists; reflexivity.
Qed.

(** A practice that starts "tomorrow". *)
Lemma unparseable_start_fails_the_feed_witness :
  let practice :=
    Sample.item [("id", JNum 9); ("label", JStr "Practice"); ("start_date", JStr "tomorrow")] in
  exists st',
    render_events Reference.runtime (Sample.world []) Sample.env (JNum 1) (JStr "Tigers")
      [practice] "" (Sample.state [])
    = (Throw RangeError, st').
Proof.
  intros practice.
  apply (unparseable_start_fails_the_feed Reference.runtime (Sample.world []) Sample.env
           (JNum 1) (JStr "Tigers") practice []
           [mkField "id" (JNum 9); mkField "label" (JStr "Practice");
            mkField "start_date" (JStr "tomorrow")]
           "" (Sample.state []) (Sample.state []) (JStr "Practice") "").
  - reflexivity.
  - reflexivity.
  - run_model.
  - run_model.
  - run_model.
Defined.

(** ** The answers of a feed *)

Lemma conditional_response_status rt calendarId ifModifiedSince ifNoneMatch cachedIcs
    cachedLastUpdate r :
  conditional_response rt calendarId ifModifiedSince ifNoneMatch cachedIcs cachedLastUpdate
  = Some r ->
  resp_status r = 304 /\ resp_body r = None.
Proof.
  unfold conditional_response.
  destruct (truthy cachedIcs && truthy cachedLastUpdate); [|discriminate].
  destruct (truthy ifModifiedSince && _); [now intros [= <-]|].
  destruct (truthy ifNoneMatch && _); [now intros [= <-] | discriminate].
Qed.

Lemma fetch_phase_failure_answer w env teamId :
  returns (fun x => match x with
                    | inl failure =>
                        (resp_status failure = 401 \/ resp_status failure = 500)
                        /\ resp_body failure <> None
                    | inr _ => True
                    end)
    (fetch_phase w env teamId).
Proof.
  unfold fetch_phase. apply returns_bind.
  intros [accessToken|]; [|apply returns_ret; split; [tauto | discriminate]].
  apply returns_bind. intros actualTeamName.
  apply (returns_bind_post
           (fun x => match x with
                     | inl failure => resp_status failure = 500 /\ resp_body failure <> None
                     | inr _ => True
                     end)).
  - unfold fetch_team_events.
    repeat first [ apply returns_throw
                 | apply returns_ret; cbn; first [exact I | split; [reflexivity | discriminate]]
                 | apply returns_bind; intros ?
                 | apply returns_try_catch; [|intros ?]
                 | match goal with
                   | |- returns _ (if ?c then _ else _) => destruct c
                   end ].
  - intros [failure | eventsData] Hx; apply returns_ret; [|exact I].
    destruct Hx as [-> Hbody]. split; [tauto | exact Hbody].
Qed.

(** A feed request is answered 200, 304, 400, 401 or 500, and nothing else;
    only the answer 304 has no body. *)
Theorem feed_answers (rt : Runtime) (w : World) (env : Env) (request : Request)
    (calendarId : string) (forceText : bool) (st st' : State) (r : Response) :
  serveCalendar rt w env request calendarId forceText st = (Ok r, st') ->
  (resp_status r = 304 /\ resp_body r = None)
  \/ ((resp_status r = 200 \/ resp_status r = 400 \/ resp_status r = 401
       \/ resp_status r = 500)
      /\ resp_body r <> None).
Proof.
  revert st r st'.
  change (returns (fun r => (resp_status r = 304 /\ resp_body r = None)
                            \/ ((resp_status r = 200 \/ resp_status r = 400
                                 \/ resp_status r = 401 \/ resp_status r = 500)
                                /\ resp_body r <> None))
            (serveCalendar rt w env request calendarId forceText)).
  unfold serveCalendar. apply returns_bind. intros tokenData.
  destruct (negb (truthy_json tokenData)).
  { apply returns_ret. right. split; [tauto | discriminate]. }
  apply returns_bind. intros cachedIcs. apply returns_bind. intros cachedLastUpdate.
  apply returns_bind. intros _.
  destruct (conditional_response _ _ _ _ _ _) as [notModified|] eqn:Hcond.
  { apply returns_ret. left. exact (conditional_response_status _ _ _ _ _ _ _ Hcond). }
  apply (returns_bind_post _ _ _ _ (fetch_phase_failure_answer w env _)).
  intros [failure | [actualTeamName eventsData]] Hx.
  { apply returns_ret. right. destruct Hx as [[-> | ->] Hbody]; (split; [tauto | exact Hbody]). }
  unfold serve_events, render_and_respond, cached_response.
  repeat first [ apply returns_throw
               | apply returns_ret; right; split; [cbn; tauto | discriminate]
               | apply returns_bind; intros ?
               | apply returns_try_catch; [|intros ?]
               | match goal with
                 | |- returns _ (if ?c then _ else _) => destruct c
                 | |- returns _ (match ?x with _ => _ end) => destruct x
                 end ].
Qed.

(** The sample feed, with nothing cached and no event upstream. *)
Lemma feed_answers_witness :
  let outcome :=
    serveCalendar Reference.runtime (Sample.world []) Sample.env Sample.plain Sample.token
      false (Sample.state []) in
  let r := match fst outcome with Ok r => r | Throw _ => mkResponse 0 None [] end in
  (resp_status r = 304 /\ resp_body r = None)
  \/ ((resp_status r = 200 \/ resp_status r = 400 \/ resp_status r = 401
       \/ resp_status r = 500)
      /\ resp_body r <> None).
Proof.
  intros outcome r.
  apply (feed_answers Reference.runtime (Sample.world []) Sample.env Sample.plain Sample.token
           false (Sample.state []) (snd outcome) r).
  run_model.
Defined.

(** ** The location of an event *)

(** The lookup of a location never fails the feed: whatever the upstream
    answers, also when the request does not get through or the record is
    malformed, the location text is the name of the location, or the name
    followed by an escaped line break and an address; no exception leaves
    the lookup. *)
Theorem location_lookup_never_throws (w : World) (env : Env) (eventData : gmap string JsVal)
    (st : State) :
  exists locationText st',
    locationText_of w env eventData st = (Ok locationText, st')
    /\ (locationText = obj_prop eventData "location_name"
        \/ exists address,
             locationText
             = JStr (ToString (obj_prop eventData "location_name") +:+ esc_n +:+ address)).
Proof.
  assert (H : never_throws (locationText_of w env eventData)).
  { unfold locationText_of. destruct (truthy (obj_prop eventData "location_id"));
      [apply try_catch_never_throws | apply never_throws_ret]. }
  destruct (H st) as (locationText & st' & E). exists locationText, st'. split; [exact E|].
  revert E. generalize st locationText st'.
  change (returns (fun locationText =>
                     locationText = obj_prop eventData "location_name"
                     \/ exists address,
                          locationText
                          = JStr (ToString (obj_prop eventData "location_name")
                                    +:+ esc_n +:+ address))
            (locationText_of w env eventData)).
  unfold locationText_of.
  repeat first [ apply returns_throw
               | apply returns_ret; first [now left | right; eexists; reflexivity]
               | apply returns_bind; intros ?
               | apply returns_try_catch; [|intros ?]
               | match goal with
                 | |- returns _ (if ?c then _ else _) => destruct c
                 | |- returns _ (match ?x with _ => _ end) => destruct x
                 end ].
Qed.

(** ** Conditional requests *)

Lemma param_is_true p lit : param_is p lit = true -> p = Some lit.
Proof.
  destruct p as [v|]; [|discriminate]. cbn. intros H. apply String.eqb_eq in H. now subst.
Qed.

Lemma truthy_of_kv o : truthy (of_kv o) = true -> exists s, o = Some s /\ s <> "".
Proof.
  destruct o as [s|]; [|discriminate]. cbn. intros H. exists s. split; [reflexivity|].
  intros ->. discriminate H.
Qed.

(** The answer 304 is given only to a client whose copy is current: when a
    feed request is answered 304, no bypass flag was given, the cached pair
    is in the store, the If-Modified-Since date is at or after the cached
    watermark or the If-None-Match header is the cached ETag, and the state
    is the one before the request. *)
Theorem not_modified_only_if_current (rt : Runtime) (w : World) (env : Env) (request : Request)
    (calendarId : string) (forceText : bool) (st st' : State) (r : Response) :
  serveCalendar rt w env request calendarId forceText st = (Ok r, st') ->
  resp_status r = 304 ->
  no_bypass request
  /\ (exists ics lastUpdate,
         cached_pair st calendarId ics lastUpdate
         /\ copy_is_current rt request calendarId lastUpdate)
  /\ st' = st.
Proof.
  intros Hrun Hstatus.
  pose proof (not_modified_only_conditional _ _ _ _ _ _ _ _ _ Hrun Hstatus) as Hcond.
  unfold read_cache in Hcond. destruct (bypass request) eqn:Hbypass.
  { rewrite conditional_response_no_cache in Hcond. discriminate Hcond. }
  assert (Hflags : no_bypass request).
  { unfold bypass in Hbypass. apply orb_false_elim in Hbypass as [Hoff Hrefresh].
    split; intros E; [rewrite E in Hoff | rewrite E in Hrefresh]; discriminate. }
  split; [exact Hflags|].
  unfold conditional_response in Hcond.
  destruct (truthy (of_kv (kv st !! cacheKey calendarId))) eqn:Hics; [|discriminate Hcond].
  destruct (truthy (of_kv (kv st !! lastUpdateKey calendarId))) eqn:Hlu; [|discriminate Hcond].
  apply truthy_of_kv in Hics. destruct Hics as (ics & Hics & Hics_ne).
  apply truthy_of_kv in Hlu. destruct Hlu as (lastUpdate & Hlu & Hlu_ne).
  assert (Hpair : cached_pair st calendarId ics lastUpdate) by (repeat split; assumption).
  assert (Hcurrent : copy_is_current rt request calendarId lastUpdate).
  { rewrite Hlu in Hcond. cbn [andb of_kv ToString] in Hcond.
    destruct (truthy (of_kv (h_if_modified_since request))) eqn:Hsince.
    - apply truthy_of_kv in Hsince. destruct Hsince as (since & Hsince & Hsince_ne).
      rewrite Hsince in Hcond. cbn [andb of_kv new_Date] in Hcond.
      destruct (num_le _ _) eqn:Hle.
      + left. unfold num_le in Hle.
        destruct (parseInt lastUpdate) as [watermark|] eqn:Hparse; [|discriminate Hle].
        cbn [Date_of_number] in Hle.
        destruct (TimeClip watermark) as [x|] eqn:Hclip; [|discriminate Hle].
        destruct (Date_parse rt since) as [t|] eqn:Hdate; [|discriminate Hle].
        assert (x = watermark) as ->.
        { unfold TimeClip in Hclip. destruct (Z.abs watermark <=? _); now inversion Hclip. }
        exists since, t, watermark. apply Z.leb_le in Hle. repeat split; assumption.
      + right. destruct (h_if_none_match request) as [tag|]; [|discriminate Hcond].
        cbn [of_kv truthy strict_eq_str] in Hcond.
        destruct (String.eqb tag (make_etag calendarId lastUpdate)) eqn:Etag;
          [apply String.eqb_eq in Etag; now rewrite Etag|].
        rewrite andb_false_r in Hcond. discriminate Hcond.
    - cbn [andb] in Hcond. right.
      destruct (h_if_none_match request) as [tag|]; [|discriminate Hcond].
      cbn [of_kv truthy strict_eq_str] in Hcond.
      destruct (String.eqb tag (make_etag calendarId lastUpdate)) eqn:Etag;
        [apply String.eqb_eq in Etag; now rewrite Etag|].
      rewrite andb_false_r in Hcond. discriminate Hcond. }
  split; [now exists ics, lastUpdate|].
  unfold serveCalendar in Hrun.
  apply bind_inv in Hrun as (tokenData & st0 & Htoken & Hrun).
  apply parseCalendarToken_keeps_state in Htoken. subst st0.
  destruct (negb (truthy_json tokenData)).
  { injection Hrun as <- _. discriminate Hstatus. }
  destruct Hflags as [Hoff Hrefresh].
  rewrite (param_is_false _ _ Hoff), (param_is_false _ _ Hrefresh) in Hrun.
  cbn [orb] in Hrun. unfold bind at 1 2 3, kv_get, ret at 1 in Hrun.
  destruct (conditional_response_current rt request calendarId ics lastUpdate
              Hics_ne Hlu_ne Hcurrent) as (headers & Hnot_modified).
  rewrite Hics, Hlu in Hrun. cbn [of_kv] in Hrun. rewrite Hnot_modified in Hrun.
  now injection Hrun as _ <-.
Qed.

(** A cached pair of watermark 1000, and a request with its ETag. *)
Lemma not_modified_only_if_current_witness :
  let st := Sample.state [(cacheKey Sample.token, "BEGIN:VCALENDAR");
                          (lastUpdateKey Sample.token, "1000")] in
  let request := with_if_none_match Sample.plain (make_etag Sample.token "1000") in
  no_bypass request
  /\ (exists ics lastUpdate,
         cached_pair st Sample.token ics lastUpdate
         /\ copy_is_current Reference.runtime request Sample.token lastUpdate)
  /\ snd (serveCalendar Reference.runtime (Sample.world []) Sample.env request Sample.token
            false st) = st.
Proof.
  intros st request.
  apply (not_modified_only_if_current Reference.runtime (Sample.world []) Sample.env request
           Sample.token false st _
           (mkResponse 304 None
              (freshness_headers Reference.runtime (TimeClip 1000)
                 (make_etag Sample.token "1000")))).
  - run_model.
  - reflexivity.
Defined.


(** ** The keys a feed request leaves alone *)









